(** * NodeCrypt WebRTC layer: adapter (RTCManager) and call coordinator
      (RTCSignaling), as a shallow embedding.

    The two JavaScript classes are embedded as state-passing functions over
    one explicit [State].  The browser's transport engine (RTCPeerConnection,
    getUserMedia, MediaStreamTrack) and the secure channel (nodeCrypt) are the
    program's environment: every call the program makes into them is appended
    to a chronological [trace], and every engine operation that can fail takes
    its outcome from an [Engine] record the theorems quantify over.

    Each [await] is run to completion before the next statement: the model
    covers one operation at a time, not the interleaving of two. *)

From stdpp Require Import base strings gmap list pretty.
From Stdlib Require Import ZArith.

Open Scope Z_scope.
Open Scope string_scope.
Open Scope list_scope.

(** ** Values of the transport engine *)

Inductive TrackKind := audio | video.
Inductive ReadyState := live | ended.

(** A MediaStreamTrack object.  Tracks are heap objects: the local stream and
    every sender created from it point at the same object. *)
Record MediaStreamTrack := {
  kind : TrackKind;
  enabled : bool;
  readyState : ReadyState
}.

Inductive SdpType := offer | answer.

(** [{ type, sdp }]; [sdp] is absent when it is read from a message that
    carries none. *)
Record SessionDescription := {
  sd_type : SdpType;
  sdp : option string
}.

(** [{ candidate, sdpMLineIndex, sdpMid }] *)
Record IceCandidateInit := {
  candidate : option string;
  sdpMLineIndex : option nat;
  sdpMid : option string
}.

(** RTCPeerConnection.connectionState *)
Inductive ConnectionState :=
  cs_new | cs_connecting | cs_connected | cs_disconnected | cs_failed | cs_closed.

(** What is thrown.  Every thrown value is an error object with a
    [message]: the catch blocks read [error.message]. *)
Inductive Error :=
| JsError (msg : string)                 (* throw new Error(msg) *)
| TypeError (msg : string)                (* raised by the language *)
| DOMException (name msg : string).       (* raised by the engine *)

Definition error_message (e : Error) : string :=
  match e with
  | JsError m => m
  | TypeError m => m
  | DOMException _ m => m
  end.

(** What an engine operation settles to. *)
Inductive Outcome (A : Type) :=
| Resolved (a : A)
| Rejected (e : Error).
Arguments Resolved {A} a.
Arguments Rejected {A} e.

(** ** Signaling messages *)

(** The payload object spread into a message. *)
Inductive Payload :=
| PCall (callId : option string)
| PReject (callId : option string) (reason : string)
| PSdp (sdp : option string)
| PCandidate (c : IceCandidateInit).

(** [{ type, timestamp, ...payload }] *)
Record SignalMessage := {
  type : string;
  timestamp : Z;
  payload : Payload
}.

(** [{ type: 'rtc:signal', to, data }] *)
Record Envelope := {
  to : string;
  data : SignalMessage
}.

(** Field reads on an inbound message; a missing field reads [undefined]. *)
Definition msg_callId (m : SignalMessage) : option string :=
  match payload m with
  | PCall c => c
  | PReject c _ => c
  | _ => None
  end.

Definition msg_reason (m : SignalMessage) : option string :=
  match payload m with
  | PReject _ r => Some r
  | _ => None
  end.

Definition msg_sdp (m : SignalMessage) : option string :=
  match payload m with
  | PSdp s => s
  | _ => None
  end.

Definition msg_candidate (m : SignalMessage) : IceCandidateInit :=
  match payload m with
  | PCandidate c => c
  | _ => {| candidate := None; sdpMLineIndex := None; sdpMid := None |}
  end.

(** ** Objects of the program *)

Record PeerConnection := {
  handle : nat;                                   (* object identity *)
  senders : list (option nat);                    (* sender.track, by track id *)
  localDescription : option SessionDescription;
  remoteDescription : option SessionDescription
}.

Record DataChannel := {
  dc_owner : nat;
  dc_label : string
}.

(** RTCManager: [peerConnections], [localStream], [dataChannels]. *)
Record RTCManager := {
  peerConnections : gmap string PeerConnection;
  localStream : option (list nat);
  dataChannels : gmap string DataChannel
}.

(** An entry of [activeCalls]. *)
Record Call := {
  callId : option string;
  initiator : bool;
  startTime : Z;
  state : string
}.

Record NodeCrypt := {
  isOpen : bool
}.

(** The caller's callbacks of [config].  They are foreign code: the model
    records the invocation and lets the callback return ([None]) or throw. *)
Record Config := {
  debug : bool;
  onConnectionStateChange : option (string -> ConnectionState -> option Error);
  onCallRequest : option (string -> option string -> option Error);
  onCallAccept : option (string -> option string -> option Error);
  onCallReject : option (string -> option string -> option string -> option Error);
  onCallEnd : option (string -> option string -> option Error)
}.

Inductive Notification :=
| OnConnectionStateChange (peerId : string) (st : ConnectionState)
| OnCallRequest (peerId : string) (callId : option string)
| OnCallAccept (peerId : string) (callId : option string)
| OnCallReject (peerId : string) (callId : option string) (reason : option string)
| OnCallEnd (peerId : string) (callId : option string).

(** Calls that leave the program, in the order they are made. *)
Inductive Event :=
| GetUserMedia
| NewPeerConnection (h : nat)
| AddTrack (h : nat) (t : nat)
| CreateDataChannel (h : nat) (label : string)
| CreateOffer (h : nat)
| CreateAnswer (h : nat)
| SetLocalDescription (h : nat) (d : SessionDescription)
| SetRemoteDescription (h : nat) (d : SessionDescription)
| AddIceCandidate (h : nat) (c : IceCandidateInit)
| TrackStop (t : nat)
| Close (h : nat)
| Send (m : Envelope)
| Notify (n : Notification).

Record LogLine := {
  component : string;
  level : string;
  source : string;
  text : string
}.

Record State := {
  (* RTCSignaling *)
  nodeCrypt : option NodeCrypt;
  config : Config;
  activeCalls : gmap string Call;
  rtcManager : option RTCManager;        (* null until initialize *)
  (* environment *)
  tracks : gmap nat MediaStreamTrack;    (* heap of track objects *)
  now : Z;                               (* Date.now() *)
  random : string;                       (* Math.random().toString(36).substr(2, 9) *)
  next_handle : nat;                     (* next fresh object identity *)
  trace : list Event;
  console : list LogLine
}.

Definition set_activeCalls (f : gmap string Call -> gmap string Call) (s : State) : State :=
  {| nodeCrypt := nodeCrypt s; config := config s; activeCalls := f (activeCalls s);
     rtcManager := rtcManager s; tracks := tracks s; now := now s; random := random s;
     next_handle := next_handle s; trace := trace s; console := console s |}.

Definition set_rtcManager (m : option RTCManager) (s : State) : State :=
  {| nodeCrypt := nodeCrypt s; config := config s; activeCalls := activeCalls s;
     rtcManager := m; tracks := tracks s; now := now s; random := random s;
     next_handle := next_handle s; trace := trace s; console := console s |}.

Definition set_tracks (f : gmap nat MediaStreamTrack -> gmap nat MediaStreamTrack)
    (s : State) : State :=
  {| nodeCrypt := nodeCrypt s; config := config s; activeCalls := activeCalls s;
     rtcManager := rtcManager s; tracks := f (tracks s); now := now s; random := random s;
     next_handle := next_handle s; trace := trace s; console := console s |}.

Definition set_next_handle (n : nat) (s : State) : State :=
  {| nodeCrypt := nodeCrypt s; config := config s; activeCalls := activeCalls s;
     rtcManager := rtcManager s; tracks := tracks s; now := now s; random := random s;
     next_handle := n; trace := trace s; console := console s |}.

Definition set_trace (t : list Event) (s : State) : State :=
  {| nodeCrypt := nodeCrypt s; config := config s; activeCalls := activeCalls s;
     rtcManager := rtcManager s; tracks := tracks s; now := now s; random := random s;
     next_handle := next_handle s; trace := t; console := console s |}.

Definition set_console (c : list LogLine) (s : State) : State :=
  {| nodeCrypt := nodeCrypt s; config := config s; activeCalls := activeCalls s;
     rtcManager := rtcManager s; tracks := tracks s; now := now s; random := random s;
     next_handle := next_handle s; trace := trace s; console := c |}.

(** ** State and exception monad

    A thrown error keeps the state reached so far, as in JavaScript. *)

Inductive Res (A : Type) :=
| Ok (a : A) (s : State)
| Throw (e : Error) (s : State).
Arguments Ok {A} a s.
Arguments Throw {A} e s.

Definition M (A : Type) : Type := State -> Res A.

Definition ret {A} (a : A) : M A := fun s => Ok a s.

Definition throw {A} (e : Error) : M A := fun s => Throw e s.

Definition bind {A B} (m : M A) (k : A -> M B) : M B :=
  fun s => match m s with
           | Ok a s' => k a s'
           | Throw e s' => Throw e s'
           end.

(** [try { m } catch (error) { h error }] *)
Definition try_catch {A} (m : M A) (h : Error -> M A) : M A :=
  fun s => match m s with
           | Ok a s' => Ok a s'
           | Throw e s' => h e s'
           end.

Notation "'let!' x ':=' m 'in' k" := (bind m (fun x => k))
  (at level 10, x name, m at level 100, k at level 200).
Notation "m '>>' k" := (bind m (fun _ => k))
  (at level 100, k at level 200, right associativity).

Definition final {A} (r : Res A) : State :=
  match r with
  | Ok _ s => s
  | Throw _ s => s
  end.

Definition returns {A} (r : Res A) : bool :=
  match r with
  | Ok _ _ => true
  | Throw _ _ => false
  end.

Definition emit (e : Event) : M unit :=
  fun s => Ok tt (set_trace (trace s ++ [e]) s).

(** Foreach over an array, in index order. *)
Fixpoint for_each {A} (f : A -> M unit) (l : list A) : M unit :=
  match l with
  | [] => ret tt
  | x :: l' => f x >> for_each f l'
  end.

(** [cb?.(args)] for a callback of [config]. *)
Definition notify (cb : option (option Error)) (n : Notification) : M unit :=
  match cb with
  | None => ret tt
  | Some r =>
      emit (Notify n) >>
      match r with
      | None => ret tt
      | Some e => throw e
      end
  end.

(** ** The transport engine's choices *)

Record Constraints := {
  want_audio : bool;
  want_video : bool
}.

Record Engine := {
  getUserMedia : Constraints -> Outcome (list TrackKind);
  new_RTCPeerConnection : string -> Outcome unit;
  pc_createOffer : PeerConnection -> Outcome string;
  pc_createAnswer : PeerConnection -> Outcome string;
  pc_setLocalDescription : PeerConnection -> SessionDescription -> Outcome unit;
  pc_setRemoteDescription : PeerConnection -> SessionDescription -> Outcome unit;
  new_RTCIceCandidate : IceCandidateInit -> Outcome unit;
  pc_addIceCandidate : PeerConnection -> IceCandidateInit -> Outcome unit
}.

Definition settle {A} (o : Outcome A) : M A :=
  match o with
  | Resolved a => ret a
  | Rejected err => throw err
  end.

(** Run an engine operation: record the call, then resolve or reject. *)
Definition engine_call {A} (e : Event) (o : Outcome A) : M A :=
  emit e >> settle o.

Definition fresh_handle : M nat :=
  fun s => Ok (next_handle s) (set_next_handle (S (next_handle s)) s).

(** ** RTCManager (webrtc_rtc-manager.js) *)

Module RTCManager.

Definition set_peerConnections
    (f : gmap string PeerConnection -> gmap string PeerConnection)
    (m : RTCManager) : RTCManager :=
  {| peerConnections := f (peerConnections m); localStream := localStream m;
     dataChannels := dataChannels m |}.

Definition set_localStream (l : option (list nat)) (m : RTCManager) : RTCManager :=
  {| peerConnections := peerConnections m; localStream := l;
     dataChannels := dataChannels m |}.

Definition set_dataChannels
    (f : gmap string DataChannel -> gmap string DataChannel)
    (m : RTCManager) : RTCManager :=
  {| peerConnections := peerConnections m; localStream := localStream m;
     dataChannels := f (dataChannels m) |}.

Definition with_local (d : SessionDescription) (pc : PeerConnection) : PeerConnection :=
  {| handle := handle pc; senders := senders pc;
     localDescription := Some d; remoteDescription := remoteDescription pc |}.

Definition with_remote (d : SessionDescription) (pc : PeerConnection) : PeerConnection :=
  {| handle := handle pc; senders := senders pc;
     localDescription := localDescription pc; remoteDescription := Some d |}.

(** [new RTCManager(config)]: empty registries, no local stream. *)
Definition constructor : RTCManager :=
  {| peerConnections := ∅; localStream := None; dataChannels := ∅ |}.

(** The receiver of a method.  Callers dereference [this.rtcManager] before
    the call (see [RTCSignaling.on_rtcManager]). *)
Definition this : M RTCManager :=
  fun s => match rtcManager s with
           | Some m => Ok m s
           | None => Throw (TypeError "Cannot read properties of null") s
           end.

Definition modify_this (f : RTCManager -> RTCManager) : M unit :=
  fun s => Ok tt (set_rtcManager (f <$> rtcManager s) s).

Definition logEvent (src message lvl : string) : M unit :=
  fun s =>
    if debug (config s)
    then Ok tt (set_console (console s ++
           [{| component := "RTCManager"; level := lvl; source := src; text := message |}]) s)
    else Ok tt s.

Definition end_track (tr : MediaStreamTrack) : MediaStreamTrack :=
  {| kind := kind tr; enabled := enabled tr; readyState := ended |}.

(** [track.stop()]: the track object ends, for every holder of it. *)
Definition stop (t : nat) : M unit :=
  emit (TrackStop t) >>
  fun s => Ok tt (set_tracks (alter end_track t) s).

(** [if (sender.track) sender.track.stop()] *)
Definition stop_sender (sender : option nat) : M unit :=
  match sender with
  | Some track => stop track
  | None => ret tt
  end.

Definition set_enabled (b : bool) (t : nat) : M unit :=
  fun s => Ok tt (set_tracks (alter (fun tr =>
     {| kind := kind tr; enabled := b; readyState := readyState tr |}) t) s).

(** The engine hands out one new live track object per captured kind. *)
Fixpoint new_tracks (kinds : list TrackKind) : M (list nat) :=
  match kinds with
  | [] => ret []
  | k :: kinds' =>
      let! t := fresh_handle in
      (fun s => Ok tt (set_tracks
         <[t := {| kind := k; enabled := true; readyState := live |}]> s)) >>
      let! ts := new_tracks kinds' in
      ret (t :: ts)
  end.

Definition connectionState_text (st : ConnectionState) : string :=
  match st with
  | cs_new => "new"
  | cs_connecting => "connecting"
  | cs_connected => "connected"
  | cs_disconnected => "disconnected"
  | cs_failed => "failed"
  | cs_closed => "closed"
  end.

(** [this.callbacks]: the entries the methods below invoke.  They act on the
    state, so they are passed beside it. *)
Record Callbacks := {
  cb_onConnectionStateChange : string -> ConnectionState -> M unit;
  cb_onIceCandidate : string -> IceCandidateInit -> M unit;
  cb_onOffer : string -> SessionDescription -> M unit;
  cb_onAnswer : string -> SessionDescription -> M unit
}.

(** The constructor's defaults, [() => {}]. *)
Definition default_callbacks : Callbacks :=
  {| cb_onConnectionStateChange := fun _ _ => ret tt;
     cb_onIceCandidate := fun _ _ => ret tt;
     cb_onOffer := fun _ _ => ret tt;
     cb_onAnswer := fun _ _ => ret tt |}.

Section Methods.

Variable E : Engine.
Variable callbacks : Callbacks.

Definition initLocalStream (constraints : Constraints) : M (list nat) :=
  try_catch
    (let! kinds := engine_call GetUserMedia (getUserMedia E constraints) in
     let! stream := new_tracks kinds in
     modify_this (set_localStream (Some stream)) >>
     logEvent "initLocalStream" "Local stream initialized" "info" >>
     ret stream)
    (fun error =>
       logEvent "initLocalStream"
         ("Failed to get user media: " +:+ error_message error) "error" >>
       throw error).

Definition setupDataChannel (peerId : string) (dataChannel : DataChannel) : M unit :=
  modify_this (set_dataChannels <[peerId := dataChannel]>).

Definition createPeerConnection (peerId : string) (isInitiator : bool)
    : M PeerConnection :=
  try_catch
    (let! h := fresh_handle in
     engine_call (NewPeerConnection h) (new_RTCPeerConnection E peerId) >>
     let! me := this in
     let stream := default [] (localStream me) in
     for_each (fun track => emit (AddTrack h track)) stream >>
     let peerConnection :=
       {| handle := h; senders := Some <$> stream;
          localDescription := None; remoteDescription := None |} in
     (if isInitiator
      then emit (CreateDataChannel h "signal") >>
           setupDataChannel peerId {| dc_owner := h; dc_label := "signal" |}
      else ret tt) >>
     modify_this (set_peerConnections <[peerId := peerConnection]>) >>
     logEvent "createPeerConnection" ("Peer connection created for " +:+ peerId) "info" >>
     ret peerConnection)
    (fun error =>
       logEvent "createPeerConnection"
         ("Error creating peer connection: " +:+ error_message error) "error" >>
       throw error).

(** [this.peerConnections.get(peerId)] followed by the not-found throw. *)
Definition get_peerConnection (peerId : string) : M PeerConnection :=
  let! me := this in
  match peerConnections me !! peerId with
  | Some pc => ret pc
  | None => throw (JsError ("Peer connection not found for " +:+ peerId))
  end.

(** The engine commits a description on the connection object. *)
Definition commit (peerId : string) (f : PeerConnection -> PeerConnection) : M unit :=
  modify_this (set_peerConnections (alter f peerId)).

Definition createOffer (peerId : string) : M SessionDescription :=
  try_catch
    (let! peerConnection := get_peerConnection peerId in
     let! text := engine_call (CreateOffer (handle peerConnection))
                    (pc_createOffer E peerConnection) in
     let o := {| sd_type := offer; sdp := Some text |} in
     engine_call (SetLocalDescription (handle peerConnection) o)
       (pc_setLocalDescription E peerConnection o) >>
     commit peerId (with_local o) >>
     logEvent "createOffer" ("Offer created for " +:+ peerId) "info" >>
     cb_onOffer callbacks peerId o >>
     ret o)
    (fun error =>
       logEvent "createOffer" ("Error creating offer: " +:+ error_message error) "error" >>
       throw error).

Definition handleOffer (peerId : string) (o : SessionDescription)
    : M SessionDescription :=
  try_catch
    (let! peerConnection := get_peerConnection peerId in
     engine_call (SetRemoteDescription (handle peerConnection) o)
       (pc_setRemoteDescription E peerConnection o) >>
     commit peerId (with_remote o) >>
     let negotiated := with_remote o peerConnection in
     let! text := engine_call (CreateAnswer (handle peerConnection))
                    (pc_createAnswer E negotiated) in
     let a := {| sd_type := answer; sdp := Some text |} in
     engine_call (SetLocalDescription (handle peerConnection) a)
       (pc_setLocalDescription E negotiated a) >>
     commit peerId (with_local a) >>
     logEvent "handleOffer" ("Answer created for " +:+ peerId) "info" >>
     cb_onAnswer callbacks peerId a >>
     ret a)
    (fun error =>
       logEvent "handleOffer" ("Error handling offer: " +:+ error_message error) "error" >>
       throw error).

Definition handleAnswer (peerId : string) (a : SessionDescription) : M unit :=
  try_catch
    (let! peerConnection := get_peerConnection peerId in
     engine_call (SetRemoteDescription (handle peerConnection) a)
       (pc_setRemoteDescription E peerConnection a) >>
     commit peerId (with_remote a) >>
     logEvent "handleAnswer" ("Answer handled for " +:+ peerId) "info")
    (fun error =>
       logEvent "handleAnswer" ("Error handling answer: " +:+ error_message error) "error" >>
       throw error).

(** The catch logs and does not rethrow. *)
Definition addIceCandidate (peerId : string) (c : option IceCandidateInit) : M unit :=
  try_catch
    (let! peerConnection := get_peerConnection peerId in
     match c with
     | Some init =>
         settle (new_RTCIceCandidate E init) >>
         engine_call (AddIceCandidate (handle peerConnection) init)
           (pc_addIceCandidate E peerConnection init)
     | None => ret tt
     end)
    (fun error =>
       logEvent "addIceCandidate"
         ("Error adding ICE candidate: " +:+ error_message error) "error").

Definition closePeerConnection (peerId : string) : M unit :=
  let! me := this in
  match peerConnections me !! peerId with
  | Some peerConnection =>
      for_each stop_sender (senders peerConnection) >>
      emit (Close (handle peerConnection)) >>
      modify_this (set_peerConnections (delete peerId)) >>
      modify_this (set_dataChannels (delete peerId)) >>
      logEvent "closePeerConnection" ("Peer connection closed for " +:+ peerId) "info"
  | None => ret tt
  end.

Definition stopLocalStream : M unit :=
  let! me := this in
  match localStream me with
  | Some stream =>
      for_each stop stream >>
      modify_this (set_localStream None)
  | None => ret tt
  end.

(** [getAudioTracks()] / [getVideoTracks()] of a stream. *)
Definition tracks_of_kind (k : TrackKind) (stream : list nat) (s : State) : list nat :=
  List.filter (fun t => match tracks s !! t with
                        | Some tr => match kind tr, k with
                                     | audio, audio | video, video => true
                                     | _, _ => false
                                     end
                        | None => false
                        end) stream.

Definition toggle (k : TrackKind) (on : bool) : M unit :=
  let! me := this in
  match localStream me with
  | Some stream => fun s => for_each (set_enabled on) (tracks_of_kind k stream s) s
  | None => ret tt
  end.

Definition toggleAudio (on : bool) : M unit := toggle audio on.
Definition toggleVideo (on : bool) : M unit := toggle video on.

(** The handlers [createPeerConnection] installs on the connection for
    [peerId]; the engine calls them with the connection's current state or
    with the event's candidate. *)
Definition onconnectionstatechange (peerId : string) (connectionState : ConnectionState)
    : M unit :=
  logEvent "onconnectionstatechange"
    (peerId +:+ ": " +:+ connectionState_text connectionState) "info" >>
  cb_onConnectionStateChange callbacks peerId connectionState >>
  match connectionState with
  | cs_failed | cs_disconnected => closePeerConnection peerId
  | _ => ret tt
  end.

Definition onicecandidate (peerId : string) (c : option IceCandidateInit) : M unit :=
  match c with
  | Some init =>
      logEvent "onicecandidate" ("ICE candidate from " +:+ peerId) "info" >>
      cb_onIceCandidate callbacks peerId init
  | None => ret tt
  end.

(** The handler [setupDataChannel] installs as [dataChannel.onclose] on a
    channel set up for [peerId]. *)
Definition dc_onclose (peerId : string) : M unit :=
  logEvent "setupDataChannel" ("Data channel closed for " +:+ peerId) "info" >>
  modify_this (set_dataChannels (delete peerId)).

(** The handler [createPeerConnection] installs as
    [peerConnection.ondatachannel]; [channel] is [event.channel]. *)
Definition ondatachannel (peerId : string) (channel : DataChannel) : M unit :=
  setupDataChannel peerId channel.

(** [destroy()].  [order] is the order in which [peerConnections.forEach]
    visits the registry: its keys, in insertion order, which the registry of
    the model does not keep. *)
Definition destroy (order : list string) : M unit :=
  stopLocalStream >>
  for_each closePeerConnection order >>
  modify_this (set_peerConnections (fun _ => ∅)) >>
  modify_this (set_dataChannels (fun _ => ∅)).

End Methods.

End RTCManager.

(** ** RTCSignaling (rtc-signaling.js) *)

Module RTCSignaling.

Definition logEvent (src message lvl : string) : M unit :=
  fun s =>
    if debug (config s)
    then Ok tt (set_console (console s ++
           [{| component := "RTCSignaling"; level := lvl; source := src; text := message |}]) s)
    else Ok tt s.

(** [this.rtcManager.method(...)]: reading a property of [null] throws before
    the method is entered. *)
Definition on_rtcManager {A} (method : M A) : M A :=
  fun s => match rtcManager s with
           | Some _ => method s
           | None => Throw (TypeError "Cannot read properties of null") s
           end.

Definition sendSignalingMessage (peerId messageType : string) (p : Payload) : M unit :=
  fun s =>
    let message := {| type := messageType; timestamp := now s; payload := p |} in
    match nodeCrypt s with
    | Some channel =>
        if isOpen channel
        then emit (Send {| to := peerId; data := message |}) s
        else Ok tt s
    | None => Ok tt s
    end.

(** The callbacks [initialize] hands to the RTCManager it builds. *)
Definition callbacks : RTCManager.Callbacks :=
  {| RTCManager.cb_onConnectionStateChange := fun peerId st s =>
       notify ((fun f => f peerId st) <$> onConnectionStateChange (config s))
              (OnConnectionStateChange peerId st) s;
     RTCManager.cb_onIceCandidate := fun peerId c =>
       sendSignalingMessage peerId "rtc:ice-candidate"
         (PCandidate {| candidate := candidate c;
                        sdpMLineIndex := sdpMLineIndex c;
                        sdpMid := sdpMid c |});
     RTCManager.cb_onOffer := fun peerId o =>
       sendSignalingMessage peerId "rtc:offer" (PSdp (sdp o));
     RTCManager.cb_onAnswer := fun peerId a =>
       sendSignalingMessage peerId "rtc:answer" (PSdp (sdp a)) |}.

(** [value || alternative()] on an optional string: [null], [undefined] and
    the empty string are falsy. *)
Definition or_else (value : option string) (alternative : M string) : M string :=
  match value with
  | Some v => if String.eqb v "" then alternative else ret v
  | None => alternative
  end.

Definition generateCallId : M string :=
  fun s => Ok ("call_" +:+ pretty (now s) +:+ "_" +:+ random s) s.

Definition rejectCall (peerId : string) (callId reason : option string) : M unit :=
  sendSignalingMessage peerId "rtc:call-reject"
    (PReject callId (default "user-rejected" reason)) >>
  (fun s => Ok tt (set_activeCalls (delete peerId) s)) >>
  logEvent "rejectCall" ("Call rejected from " +:+ peerId) "info".

Section Methods.

Variable E : Engine.

Definition initialize (constraints : Constraints) : M bool :=
  try_catch
    ((fun s => Ok tt (set_rtcManager (Some RTCManager.constructor) s)) >>
     on_rtcManager (RTCManager.initLocalStream E constraints) >>
     logEvent "initialize" "RTC Signaling initialized successfully" "info" >>
     ret true)
    (fun error =>
       logEvent "initialize" ("Initialization failed: " +:+ error_message error) "error" >>
       throw error).

Definition initiateCall (peerId : string) (callId : option string) : M string :=
  try_catch
    (let! id := or_else callId generateCallId in
     sendSignalingMessage peerId "rtc:call-request" (PCall (Some id)) >>
     on_rtcManager (RTCManager.createPeerConnection E peerId true) >>
     on_rtcManager (RTCManager.createOffer E callbacks peerId) >>
     (fun s => Ok tt (set_activeCalls
        <[peerId := {| callId := Some id; initiator := true;
                       startTime := now s; state := "connecting" |}]> s)) >>
     logEvent "initiateCall" ("Call initiated to " +:+ peerId) "info" >>
     ret id)
    (fun error =>
       logEvent "initiateCall" ("Failed to initiate call: " +:+ error_message error) "error" >>
       throw error).

Definition acceptCall (peerId : string) (callId : option string) : M unit :=
  try_catch
    (on_rtcManager (RTCManager.createPeerConnection E peerId false) >>
     sendSignalingMessage peerId "rtc:call-accept" (PCall callId) >>
     (fun s => Ok tt (set_activeCalls
        <[peerId := {| callId := callId; initiator := false;
                       startTime := now s; state := "connecting" |}]> s)) >>
     logEvent "acceptCall" ("Call accepted from " +:+ peerId) "info")
    (fun error =>
       logEvent "acceptCall" ("Failed to accept call: " +:+ error_message error) "error" >>
       throw error).

Definition endCall (peerId : string) : M unit :=
  fun s =>
    match activeCalls s !! peerId with
    | Some call =>
        (sendSignalingMessage peerId "rtc:call-end" (PCall (callId call)) >>
         on_rtcManager (RTCManager.closePeerConnection peerId) >>
         (fun s' => Ok tt (set_activeCalls (delete peerId) s')) >>
         logEvent "endCall" ("Call ended with " +:+ peerId) "info") s
    | None => Ok tt s
    end.

Definition handleOffer (peerId : string) (message : SignalMessage) : M unit :=
  try_catch
    (let! known := on_rtcManager
                     (let! me := RTCManager.this in
                      ret (bool_decide (is_Some (peerConnections me !! peerId)))) in
     (if known then ret tt
      else on_rtcManager (RTCManager.createPeerConnection E peerId false) >> ret tt) >>
     on_rtcManager (RTCManager.handleOffer E callbacks peerId
                      {| sd_type := offer; sdp := msg_sdp message |}) >>
     logEvent "handleOffer" ("Offer handled from " +:+ peerId) "info")
    (fun error =>
       logEvent "handleOffer" ("Error handling offer: " +:+ error_message error) "error").

Definition handleAnswer (peerId : string) (message : SignalMessage) : M unit :=
  try_catch
    (on_rtcManager (RTCManager.handleAnswer E peerId
                      {| sd_type := answer; sdp := msg_sdp message |}) >>
     logEvent "handleAnswer" ("Answer handled from " +:+ peerId) "info")
    (fun error =>
       logEvent "handleAnswer" ("Error handling answer: " +:+ error_message error) "error").

Definition handleIceCandidate (peerId : string) (message : SignalMessage) : M unit :=
  try_catch
    (let c := {| candidate := candidate (msg_candidate message);
                 sdpMLineIndex := sdpMLineIndex (msg_candidate message);
                 sdpMid := sdpMid (msg_candidate message) |} in
     on_rtcManager (RTCManager.addIceCandidate E peerId (Some c)))
    (fun error =>
       logEvent "handleIceCandidate"
         ("Error adding ICE candidate: " +:+ error_message error) "error").

Definition handleCallRequest (peerId : string) (message : SignalMessage) : M unit :=
  fun s =>
    notify ((fun f => f peerId (msg_callId message)) <$> onCallRequest (config s))
           (OnCallRequest peerId (msg_callId message)) s.

Definition handleCallAccept (peerId : string) (message : SignalMessage) : M unit :=
  fun s =>
    notify ((fun f => f peerId (msg_callId message)) <$> onCallAccept (config s))
           (OnCallAccept peerId (msg_callId message)) s.

Definition handleCallReject (peerId : string) (message : SignalMessage) : M unit :=
  (fun s =>
     notify ((fun f => f peerId (msg_callId message) (msg_reason message))
               <$> onCallReject (config s))
            (OnCallReject peerId (msg_callId message) (msg_reason message)) s) >>
  (fun s => Ok tt (set_activeCalls (delete peerId) s)) >>
  on_rtcManager (RTCManager.closePeerConnection peerId).

Definition handleCallEnd (peerId : string) (message : SignalMessage) : M unit :=
  (fun s =>
     notify ((fun f => f peerId (msg_callId message)) <$> onCallEnd (config s))
            (OnCallEnd peerId (msg_callId message)) s) >>
  (fun s => Ok tt (set_activeCalls (delete peerId) s)) >>
  on_rtcManager (RTCManager.closePeerConnection peerId).

(** [this.messageHandlers]: message type to handler.  Handlers act on the
    state, so the table is passed beside it. *)
Definition messageHandlers : gmap string (string -> SignalMessage -> M unit) :=
  <["rtc:offer" := handleOffer]>
  (<["rtc:answer" := handleAnswer]>
  (<["rtc:ice-candidate" := handleIceCandidate]>
  (<["rtc:call-request" := handleCallRequest]>
  (<["rtc:call-accept" := handleCallAccept]>
  (<["rtc:call-reject" := handleCallReject]>
  (<["rtc:call-end" := handleCallEnd]> ∅)))))).

End Methods.


Definition handleSignalingMessage
    (handlers : gmap string (string -> SignalMessage -> M unit))
    (peerId : string) (message : SignalMessage) : M unit :=
  match handlers !! type message with
  | Some handler =>
      try_catch
        (handler peerId message)
        (fun error =>
           logEvent "handleSignalingMessage"
             ("Error handling " +:+ type message +:+ ": " +:+ error_message error) "error")
  | None => ret tt
  end.

Definition getActiveCall (peerId : string) (s : State) : option Call :=
  activeCalls s !! peerId.

Definition toggleAudio (on : bool) : M unit :=
  on_rtcManager (RTCManager.toggleAudio on).

Definition toggleVideo (on : bool) : M unit :=
  on_rtcManager (RTCManager.toggleVideo on).

(** [destroy()].  [calls] is the order in which [activeCalls.forEach] visits
    the call records, [order] the order in which the manager's registry is
    visited afterwards, as in [RTCManager.destroy]. *)
Definition destroy (calls order : list string) : M unit :=
  for_each endCall calls >>
  on_rtcManager (RTCManager.destroy order).

End RTCSignaling.

(** ** Reading a run *)


(** Inbound messages from one peer, dispatched in arrival order. *)
Fixpoint receive (E : Engine) (peerId : string) (messages : list SignalMessage) : M unit :=
  match messages with
  | [] => ret tt
  | message :: rest =>
      RTCSignaling.handleSignalingMessage (RTCSignaling.messageHandlers E) peerId message >>
      receive E peerId rest
  end.

(** The envelopes handed to [nodeCrypt.send], oldest first. *)
Definition sent (t : list Event) : list Envelope :=
  omap (fun e => match e with Send m => Some m | _ => None end) t.

(** The candidates handed to [peerConnection.addIceCandidate], oldest first. *)
Definition forwarded (t : list Event) : list IceCandidateInit :=
  omap (fun e => match e with AddIceCandidate _ c => Some c | _ => None end) t.

(** The connections closed, oldest first. *)
Definition closed (t : list Event) : list nat :=
  omap (fun e => match e with Close h => Some h | _ => None end) t.

(** The tracks stopped, oldest first. *)
Definition stopped (t : list Event) : list nat :=
  omap (fun e => match e with TrackStop x => Some x | _ => None end) t.

(** The registered connection of a peer, if any. *)
Definition connection_of (s : State) (peerId : string) : option PeerConnection :=
  m ← rtcManager s; peerConnections m !! peerId.

(** The guard of [sendSignalingMessage]:
    [this.nodeCrypt && this.nodeCrypt.isOpen()]. *)
Definition channel_open (s : State) : bool :=
  match nodeCrypt s with
  | Some channel => isOpen channel
  | None => false
  end.

(** The tracks a connection's senders hold. *)
Definition sender_tracks (pc : PeerConnection) : list nat := omap id (senders pc).

(** The heap after [stop()] on each of [ts]. *)
Definition stop_all (ts : list nat) (h : gmap nat MediaStreamTrack)
    : gmap nat MediaStreamTrack :=
  foldl (fun h t => alter RTCManager.end_track t h) h ts.

(** The connection object [createPeerConnection] builds in state [s]. *)
Definition new_connection (s : State) : PeerConnection :=
  {| handle := next_handle s;
     senders := Some <$> default [] (m ← rtcManager s; localStream m);
     localDescription := None;
     remoteDescription := None |}.

(** ** Frames

    [keeps R m]: whatever [m] does, and whether it returns or throws, the
    state it leaves is [R]-related to the one it started from. *)

Definition keeps {A} (R : relation State) (m : M A) : Prop :=
  forall s, R s (final (m s)).

(** Nothing is handed to [addIceCandidate]. *)
Definition no_forward : relation State :=
  fun s s' => forwarded (trace s') = forwarded (trace s).

(** What belongs to the other peers is as it was. *)
Definition others_untouched (peerId : string) : relation State :=
  fun s s' => forall q, q <> peerId ->
    activeCalls s' !! q = activeCalls s !! q /\
    connection_of s' q = connection_of s q.

(** The environment a method reads but never writes. *)
Definition same_env : relation State :=
  fun s s' => nodeCrypt s' = nodeCrypt s /\ config s' = config s /\
              now s' = now s /\ random s' = random s.

(** The connection registered for a peer is the same object. *)
Definition same_handle (peerId : string) : relation State :=
  fun s s' => handle <$> connection_of s' peerId = handle <$> connection_of s peerId.

(** No track is stopped and no connection is closed. *)
Definition no_release : relation State :=
  fun s s' => closed (trace s') = closed (trace s) /\
              stopped (trace s') = stopped (trace s) /\
              tracks s' = tracks s.

(** The call records are as they were. *)
Definition same_calls : relation State :=
  fun s s' => activeCalls s' = activeCalls s.

(** ** Concrete worlds *)

Definition no_callbacks (dbg : bool) : Config :=
  {| debug := dbg; onConnectionStateChange := None; onCallRequest := None;
     onCallAccept := None; onCallReject := None; onCallEnd := None |}.

(** A freshly constructed coordinator over an open channel. *)
Definition fresh_state : State :=
  {| nodeCrypt := Some {| isOpen := true |};
     config := no_callbacks false;
     activeCalls := ∅;
     rtcManager := None;
     tracks := ∅;
     now := 1000;
     random := "k3j9x0q2a";
     next_handle := 0;
     trace := [];
     console := [] |}.

(** The clock moves on. *)
Definition at_time (t : Z) (s : State) : State :=
  {| nodeCrypt := nodeCrypt s; config := config s; activeCalls := activeCalls s;
     rtcManager := rtcManager s; tracks := tracks s; now := t; random := random s;
     next_handle := next_handle s; trace := trace s; console := console s |}.

(** The secure channel goes down. *)
Definition offline (s : State) : State :=
  {| nodeCrypt := Some {| isOpen := false |}; config := config s;
     activeCalls := activeCalls s; rtcManager := rtcManager s; tracks := tracks s;
     now := now s; random := random s; next_handle := next_handle s;
     trace := trace s; console := console s |}.

(** An engine on which every operation succeeds. *)
Definition willing : Engine :=
  {| getUserMedia := fun _ => Resolved [audio; video];
     new_RTCPeerConnection := fun _ => Resolved tt;
     pc_createOffer := fun _ => Resolved "v=0 offer";
     pc_createAnswer := fun _ => Resolved "v=0 answer";
     pc_setLocalDescription := fun _ _ => Resolved tt;
     pc_setRemoteDescription := fun _ _ => Resolved tt;
     new_RTCIceCandidate := fun _ => Resolved tt;
     pc_addIceCandidate := fun _ _ => Resolved tt |}.

(** The same engine, except that offer generation is rejected. *)
Definition no_offer : Engine :=
  {| getUserMedia := getUserMedia willing;
     new_RTCPeerConnection := new_RTCPeerConnection willing;
     pc_createOffer := fun _ => Rejected (DOMException "OperationError" "createOffer failed");
     pc_createAnswer := pc_createAnswer willing;
     pc_setLocalDescription := pc_setLocalDescription willing;
     pc_setRemoteDescription := pc_setRemoteDescription willing;
     new_RTCIceCandidate := new_RTCIceCandidate willing;
     pc_addIceCandidate := pc_addIceCandidate willing |}.

Definition constraints_av : Constraints := {| want_audio := true; want_video := true |}.

(** The coordinator after [initialize]: manager built, local tracks 0
    (audio) and 1 (video). *)
Definition ready : State :=
  final (RTCSignaling.initialize willing constraints_av fresh_state).

(** ... after it has called bob. *)
Definition calling_bob : State :=
  final (RTCSignaling.initiateCall willing "bob" None ready).

(** ... and then carol as well. *)
Definition calling_both : State :=
  final (RTCSignaling.initiateCall willing "carol" None calling_bob).

Definition ice (n : nat) : SignalMessage :=
  {| type := "rtc:ice-candidate"; timestamp := 900;
     payload := PCandidate {| candidate := Some ("candidate:" +:+ pretty n);
                              sdpMLineIndex := Some 0%nat; sdpMid := Some "0" |} |}.

Definition offer_msg : SignalMessage :=
  {| type := "rtc:offer"; timestamp := 950; payload := PSdp (Some "v=0 remote offer") |}.


(** bob's call record and connection in [calling_bob]. *)
Definition bob_call : Call :=
  {| callId := Some "call_1000_k3j9x0q2a"; initiator := true;
     startTime := 1000; state := "connecting" |}.

Definition bob_connection : PeerConnection :=
  {| handle := 2; senders := [Some 0%nat; Some 1%nat];
     localDescription := Some {| sd_type := offer; sdp := Some "v=0 offer" |};
     remoteDescription := None |}.

(** The manager of a state on which [initialize] has run. *)
Definition manager_of (s : State) : RTCManager :=
  default RTCManager.constructor (rtcManager s).


Definition with_config (c : Config) (s : State) : State :=
  {| nodeCrypt := nodeCrypt s; config := c; activeCalls := activeCalls s;
     rtcManager := rtcManager s; tracks := tracks s; now := now s; random := random s;
     next_handle := next_handle s; trace := trace s; console := console s |}.


(** * What the further properties speak of *)

(** ** What a method leaves alone *)

(** Nothing is handed to [nodeCrypt.send]. *)
Definition no_send : relation State :=
  fun s s' => sent (trace s') = sent (trace s).

(** With [debug] off nothing is written to the console. *)
Definition quiet : relation State :=
  fun s s' => config s' = config s /\
              (debug (config s) = false -> console s' = console s).

(** Every track object is still there, of the same kind, and a track that
    had ended has not come back. *)
Definition ended_stays : relation State :=
  fun s s' => forall t tr, tracks s !! t = Some tr ->
    exists tr', tracks s' !! t = Some tr' /\ kind tr' = kind tr /\
                (readyState tr = ended -> readyState tr' = ended).

(** ** Closing *)

(** What [closePeerConnection] hands to the engine for a peer. *)
Definition closing_events (m : RTCManager) (peerId : string) : list Event :=
  match peerConnections m !! peerId with
  | Some pc => (TrackStop <$> sender_tracks pc) ++ [Close (handle pc)]
  | None => []
  end.

(** The tracks it stops. *)
Definition closing_tracks (m : RTCManager) (peerId : string) : list nat :=
  match peerConnections m !! peerId with
  | Some pc => sender_tracks pc
  | None => []
  end.

(** The manager it leaves. *)
Definition without (peerId : string) (m : RTCManager) : RTCManager :=
  match peerConnections m !! peerId with
  | Some _ => RTCManager.set_dataChannels (delete peerId)
                (RTCManager.set_peerConnections (delete peerId) m)
  | None => m
  end.

(** ** toggleAudio and toggleVideo *)

(** The track with its [enabled] flag set. *)
Definition with_enabled (b : bool) (tr : MediaStreamTrack) : MediaStreamTrack :=
  {| kind := kind tr; enabled := b; readyState := readyState tr |}.

Definition same_kind (k1 k2 : TrackKind) : bool :=
  match k1, k2 with
  | audio, audio | video, video => true
  | _, _ => false
  end.

(** The connection states on which [onconnectionstatechange] closes the
    connection. *)
Definition is_failure (st : ConnectionState) : bool :=
  match st with
  | cs_failed | cs_disconnected => true
  | _ => false
  end.

(** What [endCall] sends for a peer. *)
Definition call_end_events (s : State) (peerId : string) : list Event :=
  match activeCalls s !! peerId with
  | Some call =>
      (if channel_open s
       then [Send {| to := peerId;
                     data := {| type := "rtc:call-end"; timestamp := now s;
                                payload := PCall (callId call) |} |}]
       else []) ++
      match rtcManager s with
      | Some m => closing_events m peerId
      | None => []
      end
  | None => []
  end.

(** The [rtc:call-end] envelopes for the recorded calls of [calls]. *)
Definition call_end_envelopes (s : State) (calls : list string) : list Envelope :=
  omap (fun p => (fun call =>
          {| to := p;
             data := {| type := "rtc:call-end"; timestamp := now s;
                        payload := PCall (callId call) |} |}) <$> activeCalls s !! p) calls.

(** The track behind handle [t] has been stopped. *)
Definition is_ended (s : State) (t : nat) : Prop :=
  readyState <$> tracks s !! t = Some ended.

(** ** Runs *)

(** What can happen to a coordinator: a call of its interface, an event
    of the engine on one of its connections, or the clock moving on.
    [Receive] dispatches through the handler table the constructor builds;
    [Destroy] is given the two iteration orders. *)
Inductive Action :=
| Initialize (c : Constraints)
| InitiateCall (peerId : string) (callId : option string)
| AcceptCall (peerId : string) (callId : option string)
| RejectCall (peerId : string) (callId reason : option string)
| EndCall (peerId : string)
| Receive (peerId : string) (message : SignalMessage)
| ToggleAudio (on : bool)
| ToggleVideo (on : bool)
| ConnectionStateChange (peerId : string) (st : ConnectionState)
| IceCandidateFound (peerId : string) (c : option IceCandidateInit)
| DataChannelArrived (peerId : string) (channel : DataChannel)
| DataChannelClosed (peerId : string)
| Destroy (calls order : list string)
| Tick (t : Z).

(** The state an action leaves, whether it returns or throws. *)
Definition perform (E : Engine) (a : Action) (s : State) : State :=
  match a with
  | Initialize c => final (RTCSignaling.initialize E c s)
  | InitiateCall p cid => final (RTCSignaling.initiateCall E p cid s)
  | AcceptCall p cid => final (RTCSignaling.acceptCall E p cid s)
  | RejectCall p cid reason => final (RTCSignaling.rejectCall p cid reason s)
  | EndCall p => final (RTCSignaling.endCall p s)
  | Receive p message =>
      final (RTCSignaling.handleSignalingMessage (RTCSignaling.messageHandlers E) p message s)
  | ToggleAudio on => final (RTCSignaling.toggleAudio on s)
  | ToggleVideo on => final (RTCSignaling.toggleVideo on s)
  | ConnectionStateChange p st =>
      final (RTCManager.onconnectionstatechange RTCSignaling.callbacks p st s)
  | IceCandidateFound p c => final (RTCManager.onicecandidate RTCSignaling.callbacks p c s)
  | DataChannelArrived p channel => final (RTCManager.ondatachannel p channel s)
  | DataChannelClosed p => final (RTCManager.dc_onclose p s)
  | Destroy calls order => final (RTCSignaling.destroy calls order s)
  | Tick t => at_time t s
  end.

(** A run: the actions one after the other. *)
Definition run (E : Engine) (actions : list Action) (s : State) : State :=
  foldl (fun s a => perform E a s) s actions.

(** Every call record reads 'connecting'. *)
Definition all_connecting (s : State) : Prop :=
  forall p c, activeCalls s !! p = Some c -> state c = "connecting".

(** ... and still does afterwards. *)
Definition keeps_connecting : relation State :=
  fun s s' => all_connecting s -> all_connecting s'.

(** Track objects are allocated at the next free handle. *)
Definition fresh_tracks (s : State) : Prop :=
  forall t, is_Some (tracks s !! t) -> (t < next_handle s)%nat.

(** Handles only grow, new tracks sit at new handles, and a track
    that was there keeps its kind and, once ended, stays ended. *)
Definition grows : relation State := fun s s' =>
  (next_handle s <= next_handle s')%nat /\
  (forall t, is_Some (tracks s' !! t) ->
     is_Some (tracks s !! t) \/ (next_handle s <= t < next_handle s')%nat) /\
  (forall t tr, (t < next_handle s)%nat -> tracks s !! t = Some tr ->
     exists tr', tracks s' !! t = Some tr' /\ kind tr' = kind tr /\
       (readyState tr = ended -> readyState tr' = ended)).

(** What the language throws on [this.rtcManager.method(...)] while
    [rtcManager] is [null]. *)
Definition null_manager : Error := TypeError "Cannot read properties of null".

(** ** More worlds *)

(** An engine on which the user refuses the camera and the microphone. *)
Definition no_media : Engine :=
  {| getUserMedia := fun _ => Rejected (DOMException "NotAllowedError" "Permission denied");
     new_RTCPeerConnection := new_RTCPeerConnection willing;
     pc_createOffer := pc_createOffer willing;
     pc_createAnswer := pc_createAnswer willing;
     pc_setLocalDescription := pc_setLocalDescription willing;
     pc_setRemoteDescription := pc_setRemoteDescription willing;
     new_RTCIceCandidate := new_RTCIceCandidate willing;
     pc_addIceCandidate := pc_addIceCandidate willing |}.

(** An engine whose connection constructor throws. *)
Definition no_connection : Engine :=
  {| getUserMedia := getUserMedia willing;
     new_RTCPeerConnection := fun _ =>
       Rejected (DOMException "NotSupportedError" "bad configuration");
     pc_createOffer := pc_createOffer willing;
     pc_createAnswer := pc_createAnswer willing;
     pc_setLocalDescription := pc_setLocalDescription willing;
     pc_setRemoteDescription := pc_setRemoteDescription willing;
     new_RTCIceCandidate := new_RTCIceCandidate willing;
     pc_addIceCandidate := pc_addIceCandidate willing |}.

(** A caller that listens to every event and whose callbacks return. *)
Definition listening : Config :=
  {| debug := false;
     onConnectionStateChange := Some (fun _ _ => None);
     onCallRequest := Some (fun _ _ => None);
     onCallAccept := Some (fun _ _ => None);
     onCallReject := Some (fun _ _ _ => None);
     onCallEnd := Some (fun _ _ => None) |}.

(** A caller whose [onCallEnd] callback throws. *)
Definition broken_hangup : Config :=
  {| debug := false; onConnectionStateChange := None; onCallRequest := None;
     onCallAccept := None; onCallReject := None;
     onCallEnd := Some (fun _ _ => Some (TypeError "panel is not defined")) |}.

Definition hangup_msg : SignalMessage :=
  {| type := "rtc:call-end"; timestamp := 980;
     payload := PCall (Some "call_1000_k3j9x0q2a") |}.

Definition reject_msg : SignalMessage :=
  {| type := "rtc:call-reject"; timestamp := 985;
     payload := PReject (Some "call_1000_k3j9x0q2a") "busy" |}.

Definition answer_msg : SignalMessage :=
  {| type := "rtc:answer"; timestamp := 990; payload := PSdp (Some "v=0 remote answer") |}.

(** bob is being called when dave's offer arrives. *)
Definition offered_by_dave : State :=
  final (RTCSignaling.handleOffer willing "dave" offer_msg calling_bob).

(** The call to bob has been ended: the local tracks 0 and 1 are stopped. *)
Definition hung_up : State := final (RTCSignaling.endCall "bob" calling_bob).

(** A day of the coordinator: it starts, calls bob, is connected, hears
    the answer, mutes, loses the connection, hangs up, starts again and
    calls carol. *)
Definition a_day : list Action :=
  [Initialize constraints_av; InitiateCall "bob" None;
   ConnectionStateChange "bob" cs_connected; Receive "bob" answer_msg;
   ToggleAudio false; Tick 2000; ConnectionStateChange "bob" cs_failed;
   EndCall "bob"; Initialize constraints_av; InitiateCall "carol" None;
   Receive "carol" hangup_msg; Destroy [] []].
(** * Properties *)

(** ** The monad and the trace readers *)

Lemma keeps_Ok {A} R (m : M A) s a s' : keeps R m -> m s = Ok a s' -> R s s'.
Proof. intros Hk Hm. specialize (Hk s). by rewrite Hm in Hk. Qed.

Lemma keeps_Throw {A} R (m : M A) s e s' : keeps R m -> m s = Throw e s' -> R s s'.
Proof. intros Hk Hm. specialize (Hk s). by rewrite Hm in Hk. Qed.

Lemma sent_app t u : sent (t ++ u) = sent t ++ sent u.
Proof. apply omap_app. Qed.

Lemma forwarded_app t u : forwarded (t ++ u) = forwarded t ++ forwarded u.
Proof. apply omap_app. Qed.

Lemma closed_app t u : closed (t ++ u) = closed t ++ closed u.
Proof. apply omap_app. Qed.

Lemma stopped_app t u : stopped (t ++ u) = stopped t ++ stopped u.
Proof. apply omap_app. Qed.

Lemma sent_stops l : sent (TrackStop <$> l) = [].
Proof. by induction l. Qed.

Lemma closed_stops l : closed (TrackStop <$> l) = [].
Proof. by induction l. Qed.


(** ** Frames compose along the structure of a method *)

Section Keeps.

Context (R : relation State) `{!Reflexive R} `{!Transitive R}.

Lemma keeps_ret {A} (a : A) : keeps R (ret a).
Proof. intros s. reflexivity. Qed.

Lemma keeps_throw {A} (e : Error) : keeps R (@throw A e).
Proof. intros s. reflexivity. Qed.

Lemma keeps_bind {A B} (m : M A) (k : A -> M B) :
  keeps R m -> (forall a, keeps R (k a)) -> keeps R (bind m k).
Proof.
  intros Hm Hk s. unfold bind. specialize (Hm s).
  destruct (m s) as [a s'|e s']; cbn in *; [|done].
  etrans; [exact Hm|apply Hk].
Qed.

Lemma keeps_try_catch {A} (m : M A) (h : Error -> M A) :
  keeps R m -> (forall e, keeps R (h e)) -> keeps R (try_catch m h).
Proof.
  intros Hm Hh s. unfold try_catch. specialize (Hm s).
  destruct (m s) as [a s'|e s']; cbn in *; [done|].
  etrans; [exact Hm|apply Hh].
Qed.

Lemma keeps_for_each {A} (f : A -> M unit) (l : list A) :
  (forall a, keeps R (f a)) -> keeps R (for_each f l).
Proof.
  intros Hf. induction l as [|a l IH]; cbn.
  - apply keeps_ret.
  - apply keeps_bind; [apply Hf|intros _; exact IH].
Qed.

Lemma keeps_settle {A} (o : Outcome A) : keeps R (settle o).
Proof. destruct o; [apply keeps_ret|apply keeps_throw]. Qed.

Lemma keeps_on_rtcManager {A} (m : M A) :
  keeps R m -> keeps R (RTCSignaling.on_rtcManager m).
Proof.
  intros Hm s. unfold RTCSignaling.on_rtcManager.
  destruct (rtcManager s); [apply Hm|reflexivity].
Qed.

Lemma keeps_this : keeps R RTCManager.this.
Proof. intros s. unfold RTCManager.this. destruct (rtcManager s); reflexivity. Qed.

End Keeps.

#[global] Instance no_forward_refl : Reflexive no_forward.
Proof. by intros s. Qed.
#[global] Instance no_forward_trans : Transitive no_forward.
Proof. intros s1 s2 s3 H1 H2. unfold no_forward in *. congruence. Qed.

#[global] Instance others_untouched_refl p : Reflexive (others_untouched p).
Proof. by intros s q Hq. Qed.
#[global] Instance others_untouched_trans p : Transitive (others_untouched p).
Proof.
  intros s1 s2 s3 H1 H2 q Hq.
  destruct (H1 q Hq) as [<- <-]. by apply H2.
Qed.

#[global] Instance same_env_refl : Reflexive same_env.
Proof. by intros s. Qed.
#[global] Instance same_env_trans : Transitive same_env.
Proof. intros s1 s2 s3 (?&?&?&?) (?&?&?&?). unfold same_env. repeat split; congruence. Qed.

#[global] Instance same_handle_refl p : Reflexive (same_handle p).
Proof. by intros s. Qed.
#[global] Instance same_handle_trans p : Transitive (same_handle p).
Proof. intros s1 s2 s3 H1 H2. unfold same_handle in *. congruence. Qed.

#[global] Instance no_release_refl : Reflexive no_release.
Proof. by intros s. Qed.
#[global] Instance no_release_trans : Transitive no_release.
Proof. intros s1 s2 s3 (?&?&?) (?&?&?). unfold no_release. repeat split; congruence. Qed.

#[global] Instance same_calls_refl : Reflexive same_calls.
Proof. by intros s. Qed.
#[global] Instance same_calls_trans : Transitive same_calls.
Proof. intros s1 s2 s3 H1 H2. unfold same_calls in *. congruence. Qed.

(** The steps that touch one field: unfold them and split on what they read. *)
Ltac leaf :=
  unfold RTCSignaling.callbacks; cbn;
  unfold RTCManager.get_peerConnection, RTCManager.commit, RTCManager.setupDataChannel,
    RTCManager.stop_sender, RTCManager.stop, RTCSignaling.or_else, engine_call;
  unfold RTCSignaling.sendSignalingMessage, RTCSignaling.logEvent, RTCManager.logEvent,
    RTCManager.modify_this, RTCManager.this, RTCSignaling.generateCallId,
    notify, settle, emit, fresh_handle, bind, ret, throw;
  intros; cbn;
  repeat (case_match; simplify_eq/=).

(** Walk a method down to its leaves; [tac] closes each leaf. *)
Ltac frame tac :=
  repeat match goal with
    | |- Reflexive _ => apply _
    | |- Transitive _ => apply _
    | |- forall _, _ => intros ?
    | |- keeps _ (ret _) => apply keeps_ret
    | |- keeps _ (throw _) => apply keeps_throw
    | |- keeps _ (settle _) => apply keeps_settle
    | |- keeps _ RTCManager.this => apply keeps_this
    | |- keeps _ (bind _ _) => apply keeps_bind
    | |- keeps _ (try_catch _ _) => apply keeps_try_catch
    | |- keeps _ (for_each _ _) => apply keeps_for_each
    | |- keeps _ (RTCSignaling.on_rtcManager _) => apply keeps_on_rtcManager
    | |- keeps _ (if ?b then _ else _) => destruct b
    | |- keeps _ (match ?o with _ => _ end) => destruct o
    | |- keeps _ _ => solve [intros ?s; leaf; tac]
    end.

Ltac no_forward_leaf :=
  unfold no_forward; cbn; rewrite ?forwarded_app; cbn; rewrite ?app_nil_r; done.


Ltac env_leaf := unfold same_env; cbn; done.

Ltac handle_leaf :=
  unfold same_handle, connection_of; cbn;
  try match goal with |- context [rtcManager ?s] => destruct (rtcManager s); cbn end;
  rewrite ?lookup_alter_eq;
  try match goal with |- context [peerConnections ?m !! ?p] =>
        destruct (peerConnections m !! p); cbn end;
  done.

Ltac release_leaf :=
  unfold no_release; cbn; rewrite ?closed_app, ?stopped_app; cbn;
  rewrite ?app_nil_r; done.

Ltac calls_leaf := unfold same_calls; cbn; done.

(** ** Frames of the adapter's methods *)

Lemma handleOffer_no_forward E peerId message :
  keeps no_forward (RTCSignaling.handleOffer E peerId message).
Proof.
  unfold RTCSignaling.handleOffer, RTCManager.handleOffer, RTCManager.createPeerConnection.
  frame no_forward_leaf.
Qed.

Lemma handleAnswer_no_forward E peerId message :
  keeps no_forward (RTCSignaling.handleAnswer E peerId message).
Proof.
  unfold RTCSignaling.handleAnswer, RTCManager.handleAnswer.
  frame no_forward_leaf.
Qed.




Lemma createPeerConnection_env E peerId b :
  keeps same_env (RTCManager.createPeerConnection E peerId b).
Proof. unfold RTCManager.createPeerConnection. frame env_leaf. Qed.

Lemma createOffer_env E peerId :
  keeps same_env (RTCManager.createOffer E RTCSignaling.callbacks peerId).
Proof. unfold RTCManager.createOffer. frame env_leaf. Qed.

Lemma createOffer_same_handle E peerId :
  keeps (same_handle peerId) (RTCManager.createOffer E RTCSignaling.callbacks peerId).
Proof. unfold RTCManager.createOffer. frame handle_leaf. Qed.

Lemma createPeerConnection_calls E peerId b :
  keeps same_calls (RTCManager.createPeerConnection E peerId b).
Proof. unfold RTCManager.createPeerConnection. frame calls_leaf. Qed.

Lemma createOffer_calls E peerId :
  keeps same_calls (RTCManager.createOffer E RTCSignaling.callbacks peerId).
Proof. unfold RTCManager.createOffer. frame calls_leaf. Qed.

Lemma createPeerConnection_no_release E peerId b :
  keeps no_release (RTCManager.createPeerConnection E peerId b).
Proof. unfold RTCManager.createPeerConnection. frame release_leaf. Qed.


(** ** What the loops do *)

Lemma for_each_emit {A} (f : A -> Event) (l : list A) (s : State) :
  for_each (fun a => emit (f a)) l s = Ok tt (set_trace (trace s ++ (f <$> l)) s).
Proof.
  revert s. induction l as [|a l IH]; intros s; cbn [for_each fmap list_fmap].
  - unfold ret. f_equal. destruct s; unfold set_trace; cbn. by rewrite app_nil_r.
  - unfold bind, emit. rewrite IH. f_equal.
    unfold set_trace; cbn. by rewrite <- app_assoc.
Qed.

Lemma for_each_stop_sender (l : list (option nat)) (s : State) :
  for_each RTCManager.stop_sender l s =
  Ok tt (set_tracks (stop_all (omap id l))
           (set_trace (trace s ++ (TrackStop <$> omap id l)) s)).
Proof.
  revert s. induction l as [|[t|] l IH]; intros s;
    cbn [for_each omap list_omap fmap list_fmap RTCManager.stop_sender id].
  - unfold ret. f_equal. destruct s; unfold set_trace, set_tracks; cbn.
    by rewrite app_nil_r.
  - unfold RTCManager.stop, bind, emit. rewrite IH. f_equal.
    unfold set_trace, set_tracks; cbn. by rewrite <- app_assoc.
  - unfold bind, ret. apply IH.
Qed.

Lemma for_each_stop (l : list nat) (s : State) :
  for_each RTCManager.stop l s =
  Ok tt (set_tracks (stop_all l) (set_trace (trace s ++ (TrackStop <$> l)) s)).
Proof.
  revert s. induction l as [|t l IH]; intros s; cbn [for_each fmap list_fmap].
  - unfold ret. f_equal. destruct s; unfold set_trace, set_tracks; cbn.
    by rewrite app_nil_r.
  - unfold RTCManager.stop, bind, emit. rewrite IH. f_equal.
    unfold set_trace, set_tracks; cbn. by rewrite <- app_assoc.
Qed.

(** A stopped track is ended; every other track is as it was. *)
Lemma stop_all_lookup (ts : list nat) (h : gmap nat MediaStreamTrack) (t : nat) :
  stop_all ts h !! t =
  if bool_decide (t ∈ ts) then RTCManager.end_track <$> h !! t else h !! t.
Proof.
  revert h. induction ts as [|x ts IH]; intros h.
  - done.
  - change (stop_all (x :: ts) h) with (stop_all ts (alter RTCManager.end_track x h)).
    rewrite IH. destruct (decide (x = t)) as [->|Hne].
    + rewrite lookup_alter_eq.
      rewrite (bool_decide_eq_true_2 (t ∈ t :: ts)) by apply list_elem_of_here.
      case_bool_decide; [|done].
      by destruct (h !! t).
    + rewrite lookup_alter_ne by done.
      rewrite (bool_decide_ext (t ∈ x :: ts) (t ∈ ts)); [done|].
      rewrite elem_of_cons. split; [intros [Heq|Hin]; [by subst|done]|by right].
Qed.

(** ** sendSignalingMessage and logEvent *)


Lemma sendSignalingMessage_step (s : State) (peerId messageType : string) (p : Payload) :
  exists s1,
    RTCSignaling.sendSignalingMessage peerId messageType p s = Ok tt s1 /\
    rtcManager s1 = rtcManager s /\ activeCalls s1 = activeCalls s /\
    tracks s1 = tracks s /\ next_handle s1 = next_handle s /\ now s1 = now s /\
    channel_open s1 = channel_open s /\
    trace s1 = trace s ++
      (if channel_open s
       then [Send {| to := peerId;
                     data := {| type := messageType; timestamp := now s; payload := p |} |}]
       else []).
Proof.
  unfold RTCSignaling.sendSignalingMessage, channel_open, emit.
  destruct (nodeCrypt s) as [[[]]|] eqn:Hn; eexists; (split; [reflexivity|]); cbn;
    rewrite ?Hn, ?app_nil_r; done.
Qed.

Lemma logEvent_step (src message lvl : string) (s : State) :
  exists s', RTCSignaling.logEvent src message lvl s = Ok tt s' /\
    activeCalls s' = activeCalls s /\ rtcManager s' = rtcManager s /\
    tracks s' = tracks s /\ trace s' = trace s.
Proof.
  unfold RTCSignaling.logEvent. destruct (debug (config s)); eexists; by split.
Qed.

Lemma or_else_generate (cid : option string) (s : State) :
  exists id, RTCSignaling.or_else cid RTCSignaling.generateCallId s = Ok id s /\
             (forall c, cid = Some c -> c <> "" -> id = c).
Proof.
  unfold RTCSignaling.or_else, RTCSignaling.generateCallId.
  destruct cid as [c|].
  - destruct (String.eqb_spec c "") as [->|Hne].
    + eexists; split; [reflexivity|]. intros c' [= <-] Hc. done.
    + exists c. split; [done|]. by intros c' [= <-] _.
  - eexists; split; [reflexivity|]. intros c' [=].
Qed.

(** ** closePeerConnection and stopLocalStream *)

Lemma closePeerConnection_known (s : State) (peerId : string) m pc :
  rtcManager s = Some m ->
  peerConnections m !! peerId = Some pc ->
  exists s',
    RTCManager.closePeerConnection peerId s = Ok tt s' /\
    trace s' = trace s ++ (TrackStop <$> sender_tracks pc) ++ [Close (handle pc)] /\
    tracks s' = stop_all (sender_tracks pc) (tracks s) /\
    rtcManager s' = Some (RTCManager.set_dataChannels (delete peerId)
                            (RTCManager.set_peerConnections (delete peerId) m)) /\
    activeCalls s' = activeCalls s /\
    next_handle s' = next_handle s.
Proof.
  intros Hm Hpc. unfold RTCManager.closePeerConnection.
  unfold bind at 1. unfold RTCManager.this. rewrite Hm, Hpc.
  unfold bind at 1. rewrite for_each_stop_sender.
  unfold bind, emit, RTCManager.modify_this, RTCManager.logEvent. cbn. rewrite Hm. cbn.
  destruct (debug (config s)); eexists; (split; [reflexivity|]); cbn;
    rewrite <- ?app_assoc; done.
Qed.

Lemma stopLocalStream_known (s : State) m stream :
  rtcManager s = Some m ->
  localStream m = Some stream ->
  exists s',
    RTCManager.stopLocalStream s = Ok tt s' /\
    tracks s' = stop_all stream (tracks s) /\
    localStream <$> rtcManager s' = Some None.
Proof.
  intros Hm Hstream. unfold RTCManager.stopLocalStream.
  unfold bind at 1. unfold RTCManager.this. rewrite Hm, Hstream.
  unfold bind. rewrite for_each_stop. unfold RTCManager.modify_this. cbn. rewrite Hm.
  eexists; split; [reflexivity|]. by cbn.
Qed.

(** ** createPeerConnection and createOffer *)

Lemma createPeerConnection_ok E (s : State) (peerId : string) (isInitiator : bool) m :
  rtcManager s = Some m ->
  new_RTCPeerConnection E peerId = Resolved tt ->
  exists s',
    RTCManager.createPeerConnection E peerId isInitiator s = Ok (new_connection s) s' /\
    trace s' = trace s ++ [NewPeerConnection (next_handle s)]
                 ++ (AddTrack (next_handle s) <$> default [] (localStream m))
                 ++ (if isInitiator then [CreateDataChannel (next_handle s) "signal"] else []) /\
    rtcManager s' = Some
      (RTCManager.set_peerConnections <[peerId := new_connection s]>
         (if isInitiator
          then RTCManager.set_dataChannels
                 <[peerId := {| dc_owner := next_handle s; dc_label := "signal" |}]> m
          else m)) /\
    activeCalls s' = activeCalls s /\
    tracks s' = tracks s /\
    next_handle s' = S (next_handle s).
Proof.
  intros Hm Hnew. unfold RTCManager.createPeerConnection, new_connection.
  unfold try_catch, bind at 1. unfold fresh_handle.
  unfold bind at 1. unfold engine_call, bind at 1. unfold emit at 1.
  rewrite Hnew. unfold settle, ret at 1.
  unfold bind at 1. unfold RTCManager.this. cbn [rtcManager set_trace set_next_handle].
  rewrite Hm. unfold bind at 1. rewrite for_each_emit.
  destruct isInitiator;
    unfold bind, emit, RTCManager.setupDataChannel, RTCManager.modify_this,
      RTCManager.logEvent, ret; cbn; rewrite Hm; cbn;
    destruct (debug (config s)); eexists; (split; [reflexivity|]); cbn;
    rewrite <- ?app_assoc, ?app_nil_r; done.
Qed.

Lemma createOffer_ok E (s : State) (peerId : string) m pc text :
  rtcManager s = Some m ->
  peerConnections m !! peerId = Some pc ->
  pc_createOffer E pc = Resolved text ->
  pc_setLocalDescription E pc {| sd_type := offer; sdp := Some text |} = Resolved tt ->
  exists s',
    RTCManager.createOffer E RTCSignaling.callbacks peerId s
      = Ok {| sd_type := offer; sdp := Some text |} s' /\
    trace s' = trace s ++
      [CreateOffer (handle pc);
       SetLocalDescription (handle pc) {| sd_type := offer; sdp := Some text |}] ++
      (if channel_open s
       then [Send {| to := peerId;
                     data := {| type := "rtc:offer"; timestamp := now s;
                                payload := PSdp (Some text) |} |}]
       else []) /\
    rtcManager s' = Some (RTCManager.set_peerConnections
                            (alter (RTCManager.with_local
                                      {| sd_type := offer; sdp := Some text |}) peerId) m) /\
    activeCalls s' = activeCalls s /\
    tracks s' = tracks s /\
    next_handle s' = next_handle s.
Proof.
  intros Hm Hpc Hoffer Hlocal. unfold RTCManager.createOffer.
  unfold try_catch, bind at 1. unfold RTCManager.get_peerConnection, bind at 1.
  unfold RTCManager.this. rewrite Hm, Hpc. unfold ret at 1.
  unfold engine_call. rewrite Hoffer.
  unfold bind, emit, settle, ret, RTCManager.commit, RTCManager.modify_this,
    RTCManager.logEvent. cbn. rewrite Hlocal. cbn.
  unfold RTCSignaling.sendSignalingMessage, channel_open, emit.
  destruct (debug (config s)); cbn;
    (destruct (nodeCrypt s) as [[[]]|]; cbn; eexists; (split; [reflexivity|]); cbn;
     rewrite ?Hm, <- ?app_assoc, ?app_nil_r; done).
Qed.

(** ** endCall *)

Lemma endCall_unknown (s : State) (peerId : string) :
  activeCalls s !! peerId = None -> RTCSignaling.endCall peerId s = Ok tt s.
Proof. unfold RTCSignaling.endCall. by intros ->. Qed.




(** ** Handlers that fail *)







(** * The claims *)

(** ** C1: remote candidates and the remote description *)

(** C1 (as amended): remote candidates are never buffered.
    [handleIceCandidate] always returns; when a connection is registered for
    the peer and the candidate object can be built, the candidate is handed
    to the engine at once, whether or not a remote description has been
    applied; otherwise it is discarded.  Nothing is stored for later, and
    applying a remote description ([handleOffer], [handleAnswer]) hands no
    candidate to the engine. *)
Theorem handleIceCandidate_immediate E (s : State) (peerId : string)
    (message offer_message answer_message : SignalMessage) :
  (exists s',
     RTCSignaling.handleIceCandidate E peerId message s = Ok tt s' /\
     trace s' = trace s ++
       match connection_of s peerId, new_RTCIceCandidate E (msg_candidate message) with
       | Some pc, Resolved _ => [AddIceCandidate (handle pc) (msg_candidate message)]
       | _, _ => []
       end /\
     rtcManager s' = rtcManager s /\
     activeCalls s' = activeCalls s /\
     tracks s' = tracks s) /\
  forwarded (trace (final (RTCSignaling.handleOffer E peerId offer_message s)))
    = forwarded (trace s) /\
  forwarded (trace (final (RTCSignaling.handleAnswer E peerId answer_message s)))
    = forwarded (trace s).
Proof.
  split; [|split; [apply handleOffer_no_forward|apply handleAnswer_no_forward]].
  unfold RTCSignaling.handleIceCandidate, RTCManager.addIceCandidate, connection_of.
  assert ({| candidate := candidate (msg_candidate message);
             sdpMLineIndex := sdpMLineIndex (msg_candidate message);
             sdpMid := sdpMid (msg_candidate message) |} = msg_candidate message) as ->.
  { by destruct (msg_candidate message). }
  unfold try_catch, RTCSignaling.on_rtcManager, RTCManager.get_peerConnection,
    RTCManager.this, bind, engine_call, bind, emit, settle, ret, throw,
    RTCManager.logEvent, RTCSignaling.logEvent.
  destruct (rtcManager s) as [m|] eqn:Hm; cbn.
  - destruct (peerConnections m !! peerId) as [pc|]; cbn.
    + destruct (new_RTCIceCandidate E (msg_candidate message)) as [[]|err]; cbn.
      * destruct (pc_addIceCandidate E pc (msg_candidate message)) as [[]|err]; cbn.
        -- eexists; split; [reflexivity|]. by cbn.
        -- destruct (debug (config s)); eexists; (split; [reflexivity|]); by cbn.
      * destruct (debug (config s)); eexists; (split; [reflexivity|]); cbn;
          by rewrite app_nil_r.
    + destruct (debug (config s)); eexists; (split; [reflexivity|]); cbn;
        by rewrite app_nil_r.
  - destruct (debug (config s)); eexists; (split; [reflexivity|]); cbn;
      by rewrite ?app_nil_r, ?Hm.
Qed.

(** C1 fails as stated.  Receiver: three candidates from alice arrive before
    her offer; the offer is then applied and answered, and none of the three
    ever reaches the engine.  Initiator: a candidate from bob arrives after
    the local offer and before any answer; it reaches the engine although no
    remote description has been applied. *)
Lemma early_candidates_not_queued :
  let received := final (receive willing "alice" [ice 1; ice 2; ice 3; offer_msg] ready) in
  let early := final (receive willing "bob" [ice 1] calling_bob) in
  (remoteDescription <$> connection_of received "alice"
     = Some (Some {| sd_type := offer; sdp := Some "v=0 remote offer" |}) /\
   forwarded (trace received) = [] /\
   forwarded (trace received) <> msg_candidate <$> [ice 1; ice 2; ice 3]) /\
  (remoteDescription <$> connection_of early "bob" = Some None /\
   forwarded (trace early) = [msg_candidate (ice 1)]).
Proof. vm_compute. repeat split; discriminate. Qed.

(** ** C2: endCall is idempotent *)



(** ** C3: the engine reports 'connected' *)

(** C3 (as amended): when the engine reports connection state 'connected'
    for a peer, the state is passed to the caller's [onConnectionStateChange]
    callback, if one is configured, and nothing else happens: the call
    records, with their [state] and [startTime], the connections and the
    tracks are as they were. *)
Theorem connected_is_only_reported (s : State) (peerId : string) :
  let r := RTCManager.onconnectionstatechange RTCSignaling.callbacks peerId cs_connected s in
  activeCalls (final r) = activeCalls s /\
  rtcManager (final r) = rtcManager s /\
  tracks (final r) = tracks s /\
  trace (final r) = trace s ++
    match onConnectionStateChange (config s) with
    | Some _ => [Notify (OnConnectionStateChange peerId cs_connected)]
    | None => []
    end.
Proof.
  unfold RTCManager.onconnectionstatechange, RTCSignaling.callbacks, bind,
    RTCManager.logEvent, notify, emit, bind, ret, throw. cbn.
  destruct (debug (config s)); cbn;
    (destruct (onConnectionStateChange (config s)) as [f|]; cbn;
     [destruct (f peerId cs_connected); cbn|]; by rewrite ?app_nil_r).
Qed.

(** C3 fails as stated: bob was called at time 1000 and his connection
    reports 'connected' at time 5000; his call record still reads
    'connecting', the state written when it was created, with the start time
    of its creation. *)
Lemma connected_leaves_record_connecting :
  let later := at_time 5000 calling_bob in
  let after := final (RTCManager.onconnectionstatechange RTCSignaling.callbacks
                        "bob" cs_connected later) in
  RTCSignaling.getActiveCall "bob" later = Some bob_call /\
  RTCSignaling.getActiveCall "bob" after = Some bob_call /\
  state bob_call = "connecting" /\
  startTime bob_call = 1000.
Proof. vm_compute. repeat split. Qed.

(** ** C4: the shared local stream *)




(** ** C5: a step of initiateCall fails *)




(** ** C6: createPeerConnection on a peer that has a connection *)

(** C6 (as amended): [createPeerConnection] makes no check for an existing
    connection.  On an initialized manager it succeeds whenever the engine's
    constructor does, and the connection it returns, a new object, is the one
    registered for the peer from then on; a connection registered before is
    dropped from the registry without being closed. *)
Theorem createPeerConnection_replaces E (s : State) (peerId : string)
    (isInitiator : bool) (m : RTCManager) :
  rtcManager s = Some m ->
  new_RTCPeerConnection E peerId = Resolved tt ->
  exists s',
    RTCManager.createPeerConnection E peerId isInitiator s = Ok (new_connection s) s' /\
    connection_of s' peerId = Some (new_connection s) /\
    handle (new_connection s) = next_handle s /\
    closed (trace s') = closed (trace s).
Proof.
  intros Hm Hnew.
  destruct (createPeerConnection_ok E s peerId isInitiator m Hm Hnew)
    as (s' & Hcreate & Htrace & Hmgr & _).
  exists s'. split; [done|]. split.
  - unfold connection_of. rewrite Hmgr. cbn. apply lookup_insert_eq.
  - split; [done|].
    pose proof (keeps_Ok _ _ _ _ _ (createPeerConnection_no_release E peerId isInitiator)
                  Hcreate) as (H & _). done.
Qed.

(** C6 at work: a second connection is opened for bob. *)
Lemma createPeerConnection_replaces_witness :
  exists s',
    RTCManager.createPeerConnection willing "bob" false calling_bob
      = Ok (new_connection calling_bob) s' /\
    connection_of s' "bob" = Some (new_connection calling_bob) /\
    handle (new_connection calling_bob) = next_handle calling_bob /\
    closed (trace s') = closed (trace calling_bob).
Proof.
  apply (createPeerConnection_replaces willing calling_bob "bob" false
           (manager_of calling_bob));
    vm_compute; reflexivity.
Defined.

(** C6 fails as stated: bob already has connection 2; opening a session for
    him again returns normally and registers connection 3 in its place. *)
Lemma second_createPeerConnection_succeeds :
  let r := RTCManager.createPeerConnection willing "bob" false calling_bob in
  returns r = true /\
  handle <$> connection_of calling_bob "bob" = Some 2%nat /\
  handle <$> connection_of (final r) "bob" = Some 3%nat /\
  closed (trace (final r)) = [].
Proof. vm_compute. repeat split. Qed.

(** ** C7: inbound dispatch *)



(** ** C8: rejectCall *)



(** ** C9: initiateCall on a peer that has a call *)

(** C9 (as amended): [initiateCall] makes no check for an existing call.  On
    an initialized coordinator, whenever the connection can be created and
    the offer generated and committed, it returns the call id used, which is
    the supplied one when that is a non-empty string and a generated one
    otherwise, and the peer's call record is the new one, whether or not a
    record existed before. *)
Theorem initiateCall_no_conflict_check E (s : State) (peerId : string)
    (cid : option string) (m : RTCManager) (text : string) :
  rtcManager s = Some m ->
  new_RTCPeerConnection E peerId = Resolved tt ->
  pc_createOffer E (new_connection s) = Resolved text ->
  pc_setLocalDescription E (new_connection s) {| sd_type := offer; sdp := Some text |}
    = Resolved tt ->
  exists id s',
    RTCSignaling.or_else cid RTCSignaling.generateCallId s = Ok id s /\
    (forall c, cid = Some c -> c <> "" -> id = c) /\
    RTCSignaling.initiateCall E peerId cid s = Ok id s' /\
    activeCalls s' =
      <[peerId := {| callId := Some id; initiator := true;
                     startTime := now s; state := "connecting" |}]> (activeCalls s) /\
    connection_of s' peerId =
      Some (RTCManager.with_local {| sd_type := offer; sdp := Some text |}
              (new_connection s)).
Proof.
  intros Hm Hnew Hoffer Hlocal.
  destruct (or_else_generate cid s) as (id & Hid & Hgiven).
  destruct (sendSignalingMessage_step s peerId "rtc:call-request" (PCall (Some id)))
    as (s1 & Hsend & Hm1 & Hc1 & _ & Hn1 & Hnow1 & _).
  assert (new_connection s1 = new_connection s) as Hconn.
  { unfold new_connection. by rewrite Hm1, Hn1. }
  rewrite Hm in Hm1.
  destruct (createPeerConnection_ok E s1 peerId true m Hm1 Hnew)
    as (s2 & Hcreate & _ & Hm2 & Hc2 & _).
  rewrite Hconn in Hcreate, Hm2.
  destruct (createOffer_ok E s2 peerId _ (new_connection s) text Hm2) as
    (s3 & Hco & _ & Hm3 & Hc3 & _); [by apply lookup_insert_eq|done|done|].
  pose proof (keeps_Ok _ _ _ _ _ (createPeerConnection_env E peerId true) Hcreate)
    as (_&_&Hnow2&_).
  pose proof (keeps_Ok _ _ _ _ _ (createOffer_env E peerId) Hco) as (_&_&Hnow3&_).
  exists id.
  assert (exists s', RTCSignaling.initiateCall E peerId cid s = Ok id s' /\
            activeCalls s' = <[peerId := {| callId := Some id; initiator := true;
                     startTime := now s3; state := "connecting" |}]> (activeCalls s3) /\
            rtcManager s' = rtcManager s3) as (s' & Hinit & Ha & Hr).
  { unfold RTCSignaling.initiateCall, try_catch.
    unfold bind at 1. rewrite Hid.
    unfold bind at 1. rewrite Hsend.
    unfold bind at 1. unfold RTCSignaling.on_rtcManager at 1. rewrite Hm1, Hcreate.
    unfold bind at 1. unfold RTCSignaling.on_rtcManager at 1. rewrite Hm2, Hco.
    unfold bind, RTCSignaling.logEvent, ret. cbn.
    destruct (debug (config s3)); eexists; (split; [reflexivity|]); cbn; done. }
  exists s'. split; [done|]. split; [done|]. split; [done|]. split.
  - rewrite Ha, Hc3, Hc2, Hc1, Hnow3, Hnow2, Hnow1. done.
  - unfold connection_of. rewrite Hr, Hm3. cbn.
    rewrite lookup_alter_eq, lookup_insert_eq. done.
Qed.

(** C9 at work: bob is called again while the first call is still open. *)
Lemma initiateCall_no_conflict_check_witness :
  exists id s',
    RTCSignaling.or_else (Some "again") RTCSignaling.generateCallId calling_bob
      = Ok id calling_bob /\
    (forall c, Some "again" = Some c -> c <> "" -> id = c) /\
    RTCSignaling.initiateCall willing "bob" (Some "again") calling_bob = Ok id s' /\
    activeCalls s' =
      <["bob" := {| callId := Some id; initiator := true;
                    startTime := now calling_bob; state := "connecting" |}]>
        (activeCalls calling_bob) /\
    connection_of s' "bob" =
      Some (RTCManager.with_local {| sd_type := offer; sdp := Some "v=0 offer" |}
              (new_connection calling_bob)).
Proof.
  apply (initiateCall_no_conflict_check willing calling_bob "bob" (Some "again")
           (manager_of calling_bob) "v=0 offer");
    vm_compute; reflexivity.
Defined.

(** C9 fails as stated: bob has a call in state 'connecting'; calling him
    again returns a call id instead of failing, sends a second request and a
    second offer, and overwrites the record. *)
Lemma second_initiateCall_succeeds :
  let r := RTCSignaling.initiateCall willing "bob" (Some "again") calling_bob in
  RTCSignaling.getActiveCall "bob" calling_bob = Some bob_call /\
  r = Ok "again" (final r) /\
  callId <$> RTCSignaling.getActiveCall "bob" (final r) = Some (Some "again") /\
  length (sent (trace (final r))) = (length (sent (trace calling_bob)) + 2)%nat /\
  handle <$> connection_of (final r) "bob" = Some 3%nat.
Proof. vm_compute. repeat split. Qed.

(** ** C10: sending on a closed channel *)

(** C10: when the secure channel is absent or not open, the guard of
    [sendSignalingMessage] is false and the call returns normally with the
    state, trace included, exactly as it was: nothing is sent, nothing is
    raised, nothing is recorded.  The value returned is the one returned
    after a send, so the caller cannot tell the two apart. *)
Theorem sendSignalingMessage_discards (s : State) (peerId messageType : string)
    (p : Payload) :
  channel_open s = false ->
  RTCSignaling.sendSignalingMessage peerId messageType p s = Ok tt s /\
  (forall s0, exists s1,
     RTCSignaling.sendSignalingMessage peerId messageType p s0 = Ok tt s1).
Proof.
  intros Hclosed. split.
  - revert Hclosed. unfold channel_open, RTCSignaling.sendSignalingMessage.
    destruct (nodeCrypt s) as [channel|]; [|done].
    by intros ->.
  - intros s0.
    destruct (sendSignalingMessage_step s0 peerId messageType p) as (s1 & Hsend & _).
    by exists s1.
Qed.

(** C10 at work: the channel is down when bob's call is to be ended. *)
Lemma sendSignalingMessage_discards_witness :
  RTCSignaling.sendSignalingMessage "bob" "rtc:call-end" (PCall (callId bob_call))
    (offline calling_bob) = Ok tt (offline calling_bob) /\
  (forall s0, exists s1,
     RTCSignaling.sendSignalingMessage "bob" "rtc:call-end" (PCall (callId bob_call)) s0
       = Ok tt s1).
Proof.
  apply (sendSignalingMessage_discards (offline calling_bob)).
  vm_compute. reflexivity.
Defined.
(** * Further properties of the coordinator and its manager *)

(** ** Checking a concrete state *)

Lemma fresh_tracks_check (s : State) :
  forallb (fun t => t <? next_handle s)%nat (fst <$> map_to_list (tracks s)) = true ->
  fresh_tracks s.
Proof.
  intros H t [tr Ht]. rewrite forallb_forall in H. apply Nat.ltb_lt, H.
  apply list_elem_of_In, list_elem_of_fmap. exists (t, tr).
  split; [done|]. by apply elem_of_map_to_list.
Qed.

Lemma all_connecting_check (s : State) :
  forallb (fun c => String.eqb (state c) "connecting")
          (snd <$> map_to_list (activeCalls s)) = true ->
  all_connecting s.
Proof.
  intros H p c Hc. rewrite forallb_forall in H. apply String.eqb_eq, H.
  apply list_elem_of_In, list_elem_of_fmap. exists (p, c).
  split; [done|]. by apply elem_of_map_to_list.
Qed.

Lemma registry_listed (m : RTCManager) (order : list string) :
  forallb (fun p => bool_decide (p ∈ order))
          (fst <$> map_to_list (peerConnections m)) = true ->
  forall p, is_Some (peerConnections m !! p) -> p ∈ order.
Proof.
  intros H p [pc Hp]. rewrite forallb_forall in H.
  eapply bool_decide_eq_true_1, H.
  apply list_elem_of_In, list_elem_of_fmap. exists (p, pc).
  split; [done|]. by apply elem_of_map_to_list.
Qed.

Lemma calls_listed (s : State) (calls : list string) :
  forallb (fun p => bool_decide (p ∈ calls)) (fst <$> map_to_list (activeCalls s))
  && forallb (fun p => bool_decide (is_Some (activeCalls s !! p))) calls = true ->
  forall p, p ∈ calls <-> is_Some (activeCalls s !! p).
Proof.
  intros H p. apply andb_true_iff in H as [H1 H2].
  rewrite forallb_forall in H1, H2. split.
  - intros Hp. eapply bool_decide_eq_true_1, H2. by apply list_elem_of_In.
  - intros [c Hc]. eapply bool_decide_eq_true_1, H1.
    apply list_elem_of_In, list_elem_of_fmap. exists (p, c).
    split; [done|]. by apply elem_of_map_to_list.
Qed.

Lemma orphans_listed (s : State) (m : RTCManager) (order : list string) :
  forallb (fun p => bool_decide (is_Some (peerConnections m !! p))
                    && negb (bool_decide (is_Some (activeCalls s !! p)))) order
  && forallb (fun p => bool_decide (p ∈ order)
                       || bool_decide (is_Some (activeCalls s !! p)))
             (fst <$> map_to_list (peerConnections m)) = true ->
  forall p, p ∈ order <->
            is_Some (peerConnections m !! p) /\ activeCalls s !! p = None.
Proof.
  intros H p. apply andb_true_iff in H as [H1 H2].
  rewrite forallb_forall in H1, H2. split.
  - intros Hp. apply list_elem_of_In, H1, andb_true_iff in Hp as [Hpc Hno].
    split; [by eapply bool_decide_eq_true_1|].
    apply negb_true_iff, bool_decide_eq_false in Hno.
    by apply eq_None_not_Some.
  - intros [[pc Hpc] Hno].
    assert (In p (fst <$> map_to_list (peerConnections m))) as Hin.
    { apply list_elem_of_In, list_elem_of_fmap. exists (p, pc).
      split; [done|]. by apply elem_of_map_to_list. }
    apply H2, orb_true_iff in Hin as [Hin|Hin].
    + by eapply bool_decide_eq_true_1.
    + apply bool_decide_eq_true_1 in Hin. rewrite Hno in Hin. by destruct Hin.
Qed.

#[global] Instance no_send_refl : Reflexive no_send.
Proof. by intros s. Qed.

#[global] Instance no_send_trans : Transitive no_send.
Proof. intros s1 s2 s3 H1 H2. unfold no_send in *. congruence. Qed.

#[global] Instance quiet_refl : Reflexive quiet.
Proof. by intros s. Qed.

#[global] Instance quiet_trans : Transitive quiet.
Proof.
  intros s1 s2 s3 [Hc1 H1] [Hc2 H2]. split; [congruence|].
  intros Hd. rewrite H2, H1; [done..|]. by rewrite Hc1.
Qed.

#[global] Instance ended_stays_refl : Reflexive ended_stays.
Proof. intros s t tr Ht. eauto. Qed.

#[global] Instance ended_stays_trans : Transitive ended_stays.
Proof.
  intros s1 s2 s3 H1 H2 t tr Ht.
  destruct (H1 t tr Ht) as (tr2 & Ht2 & Hk2 & He2).
  destruct (H2 t tr2 Ht2) as (tr3 & Ht3 & Hk3 & He3).
  exists tr3. split; [done|]. split; [congruence|]. auto.
Qed.

Ltac send_leaf :=
  unfold no_send; cbn; rewrite ?sent_app; cbn; rewrite ?app_nil_r; done.

Ltac quiet_leaf :=
  unfold quiet; cbn; split; [done|]; intros; congruence.

Ltac ended_leaf :=
  let t := fresh "t" in
  let tr := fresh "tr" in
  let Ht := fresh "Ht" in
  intros t tr Ht; cbn;
  try (eexists; split; [exact Ht|]; split; done);
  match goal with
  | |- context [alter ?f ?x _ !! t] =>
      destruct (decide (x = t)) as [->|];
      [rewrite lookup_alter_eq, Ht; cbn; eexists; split; [reflexivity|]; split; done
      |rewrite lookup_alter_ne by done; eexists; split; [exact Ht|]; split; done]
  end.

Lemma closePeerConnection_no_send peerId :
  keeps no_send (RTCManager.closePeerConnection peerId).
Proof. unfold RTCManager.closePeerConnection. frame send_leaf. Qed.

Lemma inbound_no_send E peerId message handler :
  RTCSignaling.messageHandlers E !! type message = Some handler ->
  type message <> "rtc:offer" ->
  keeps no_send (handler peerId message).
Proof.
  unfold RTCSignaling.messageHandlers.
  rewrite !lookup_insert, lookup_empty.
  repeat case_decide; intros; simplify_eq.
  - unfold RTCSignaling.handleAnswer, RTCManager.handleAnswer. frame send_leaf.
  - unfold RTCSignaling.handleIceCandidate, RTCManager.addIceCandidate. frame send_leaf.
  - unfold RTCSignaling.handleCallRequest. frame send_leaf.
  - unfold RTCSignaling.handleCallAccept. frame send_leaf.
  - unfold RTCSignaling.handleCallReject. frame send_leaf. apply closePeerConnection_no_send.
  - unfold RTCSignaling.handleCallEnd. frame send_leaf. apply closePeerConnection_no_send.
Qed.

Lemma closePeerConnection_ended peerId :
  keeps ended_stays (RTCManager.closePeerConnection peerId).
Proof. unfold RTCManager.closePeerConnection. frame ended_leaf. Qed.

(** [endCall] keeps what the steps of its body keep. *)
Lemma keeps_endCall (R : relation State) `{!Reflexive R} `{!Transitive R} peerId :
  (forall call,
     keeps R (RTCSignaling.sendSignalingMessage peerId "rtc:call-end"
                (PCall (callId call)))) ->
  keeps R (RTCManager.closePeerConnection peerId) ->
  (forall s, R s (set_activeCalls (delete peerId) s)) ->
  (forall a b c, keeps R (RTCSignaling.logEvent a b c)) ->
  keeps R (RTCSignaling.endCall peerId).
Proof.
  intros Hsend Hclose Hdel Hlog s. unfold RTCSignaling.endCall.
  destruct (activeCalls s !! peerId) as [call|]; [|reflexivity].
  assert (keeps R
    (RTCSignaling.sendSignalingMessage peerId "rtc:call-end" (PCall (callId call)) >>
     RTCSignaling.on_rtcManager (RTCManager.closePeerConnection peerId) >>
     (fun s' => Ok tt (set_activeCalls (delete peerId) s')) >>
     RTCSignaling.logEvent "endCall" ("Call ended with " +:+ peerId) "info")) as Hk.
  { apply keeps_bind; [done|apply Hsend|intros _].
    apply keeps_bind; [done|by apply keeps_on_rtcManager|intros _].
    apply keeps_bind; [done|intros s0; apply Hdel|intros _]. apply Hlog. }
  apply Hk.
Qed.

Lemma keeps_toggle (R : relation State) `{!Reflexive R} `{!Transitive R} k on :
  (forall t, keeps R (RTCManager.set_enabled on t)) ->
  keeps R (RTCManager.toggle k on).
Proof.
  intros Hset. unfold RTCManager.toggle.
  apply keeps_bind; [done|by apply keeps_this|intros me].
  destruct (localStream me) as [stream|]; [|by apply keeps_ret].
  intros s. by apply keeps_for_each.
Qed.

Lemma stopLocalStream_ended : keeps ended_stays RTCManager.stopLocalStream.
Proof. unfold RTCManager.stopLocalStream. frame ended_leaf. Qed.

Lemma manager_destroy_ended order : keeps ended_stays (RTCManager.destroy order).
Proof.
  unfold RTCManager.destroy. frame ended_leaf.
  - apply stopLocalStream_ended.
  - apply closePeerConnection_ended.
Qed.

Lemma same_env_channel_open s s' : same_env s s' -> channel_open s' = channel_open s.
Proof. intros (H&_). unfold channel_open. by rewrite H. Qed.

Lemma closePeerConnection_env peerId : keeps same_env (RTCManager.closePeerConnection peerId).
Proof. unfold RTCManager.closePeerConnection. frame env_leaf. Qed.

(** ** initLocalStream and initialize *)

Lemma new_tracks_spec (kinds : list TrackKind) (s : State) :
  exists s',
    RTCManager.new_tracks kinds s = Ok (seq (next_handle s) (length kinds)) s' /\
    next_handle s' = (next_handle s + length kinds)%nat /\
    (forall i k, kinds !! i = Some k ->
       tracks s' !! (next_handle s + i)%nat
         = Some {| kind := k; enabled := true; readyState := live |}) /\
    (forall t, (t < next_handle s)%nat -> tracks s' !! t = tracks s !! t) /\
    rtcManager s' = rtcManager s /\ activeCalls s' = activeCalls s /\
    trace s' = trace s /\ console s' = console s /\ config s' = config s.
Proof.
  revert s. induction kinds as [|k kinds IH]; intros s.
  - eexists. split; [reflexivity|]. cbn. repeat split; try done; lia.
  - cbn [RTCManager.new_tracks]. unfold bind at 1. unfold fresh_handle.
    unfold bind at 1.
    set (s1 := set_tracks <[next_handle s := {| kind := k; enabled := true;
                                               readyState := live |}]>
                 (set_next_handle (S (next_handle s)) s)).
    destruct (IH s1) as (s' & Hnew & Hn & Hin & Hout & Hm & Hc & Ht & Hco & Hcf).
    unfold bind. rewrite Hnew. exists s'. split; [done|].
    subst s1; cbn in *. split; [lia|]. split; [|split].
    + intros [|i] k' Hk; cbn in Hk.
      * injection Hk as <-. rewrite Nat.add_0_r, Hout by lia.
        apply lookup_insert_eq.
      * replace (next_handle s + S i)%nat with (S (next_handle s) + i)%nat by lia.
        by apply Hin.
    + intros t Ht'. rewrite Hout by lia. apply lookup_insert_ne. lia.
    + done.
Qed.

(** X1: When getUserMedia resolves, initialize returns true and installs a new
    manager with empty connection and data-channel registries whose local stream
    holds one new live, enabled track per granted kind. Tracks that existed
    before and the call records are untouched, and getUserMedia is the only
    engine call. *)
Theorem initialize_ok E (s : State) (c : Constraints) (kinds : list TrackKind) :
  getUserMedia E c = Resolved kinds ->
  exists s',
    RTCSignaling.initialize E c s = Ok true s' /\
    rtcManager s' = Some {| peerConnections := ∅;
                            localStream := Some (seq (next_handle s) (length kinds));
                            dataChannels := ∅ |} /\
    (forall i k, kinds !! i = Some k ->
       tracks s' !! (next_handle s + i)%nat
         = Some {| kind := k; enabled := true; readyState := live |}) /\
    (forall t, (t < next_handle s)%nat -> tracks s' !! t = tracks s !! t) /\
    activeCalls s' = activeCalls s /\
    trace s' = trace s ++ [GetUserMedia].
Proof.
  intros Hmedia. unfold RTCSignaling.initialize, try_catch.
  unfold bind at 1. unfold bind at 1.
  unfold RTCSignaling.on_rtcManager. cbn [rtcManager set_rtcManager].
  unfold RTCManager.initLocalStream, try_catch.
  unfold bind at 1. unfold engine_call, bind at 1. unfold emit. rewrite Hmedia.
  unfold settle, ret at 1. unfold bind at 1.
  set (s1 := set_trace _ _).
  destruct (new_tracks_spec kinds s1) as (s2 & Hnew & Hn & Hin & Hout & Hm & Hc & Ht & _).
  rewrite Hnew. subst s1; cbn in *.
  unfold bind, RTCManager.modify_this, RTCManager.logEvent, RTCSignaling.logEvent, ret.
  cbn. rewrite Hm. cbn.
  destruct (debug (config s2)) eqn:Hd; cbn; rewrite ?Hd; cbn;
    eexists; (split; [reflexivity|]); cbn; repeat split; done.
Qed.

Lemma initialize_ok_witness :
  let E := willing in
  let s := fresh_state in
  let c := constraints_av in
  let kinds := [audio; video] in
  exists s',
    RTCSignaling.initialize E c s = Ok true s' /\
    rtcManager s' = Some {| peerConnections := ∅;
                            localStream := Some (seq (next_handle s) (length kinds));
                            dataChannels := ∅ |} /\
    (forall i k, kinds !! i = Some k ->
       tracks s' !! (next_handle s + i)%nat
         = Some {| kind := k; enabled := true; readyState := live |}) /\
    (forall t, (t < next_handle s)%nat -> tracks s' !! t = tracks s !! t) /\
    activeCalls s' = activeCalls s /\
    trace s' = trace s ++ [GetUserMedia].
Proof.
  cbv zeta.
  apply (initialize_ok willing fresh_state constraints_av [audio; video]).
  reflexivity.
Defined.

(** X2: When getUserMedia rejects, initialize rethrows that error, but the new
    manager, with empty registries and no local stream, has already replaced the
    previous one. Tracks and call records are unchanged. *)
Theorem initialize_rejected E (s : State) (c : Constraints) (e : Error) :
  getUserMedia E c = Rejected e ->
  exists s',
    RTCSignaling.initialize E c s = Throw e s' /\
    rtcManager s' = Some RTCManager.constructor /\
    tracks s' = tracks s /\
    activeCalls s' = activeCalls s /\
    trace s' = trace s ++ [GetUserMedia].
Proof.
  intros Hmedia. unfold RTCSignaling.initialize, try_catch.
  unfold bind at 1. unfold bind at 1.
  unfold RTCSignaling.on_rtcManager. cbn [rtcManager set_rtcManager].
  unfold RTCManager.initLocalStream, try_catch.
  unfold bind at 1. unfold engine_call, bind at 1. unfold emit. rewrite Hmedia.
  unfold settle, throw, bind, RTCManager.logEvent, RTCSignaling.logEvent. cbn.
  destruct (debug (config s)) eqn:Hd; cbn; rewrite ?Hd; cbn;
    eexists; (split; [reflexivity|]); cbn; done.
Qed.

Lemma initialize_rejected_witness :
  let E := no_media in
  let s := fresh_state in
  let c := constraints_av in
  let e := DOMException "NotAllowedError" "Permission denied" in
  exists s',
    RTCSignaling.initialize E c s = Throw e s' /\
    rtcManager s' = Some RTCManager.constructor /\
    tracks s' = tracks s /\
    activeCalls s' = activeCalls s /\
    trace s' = trace s ++ [GetUserMedia].
Proof.
  cbv zeta.
  apply (initialize_rejected no_media fresh_state constraints_av).
  reflexivity.
Defined.

(** ** createPeerConnection fails *)

Lemma createPeerConnection_fail E (s : State) (peerId : string) (isInitiator : bool) e s' :
  RTCManager.createPeerConnection E peerId isInitiator s = Throw e s' ->
  rtcManager s' = rtcManager s /\
  trace s' = trace s ++ [NewPeerConnection (next_handle s)] /\
  (is_Some (rtcManager s) -> new_RTCPeerConnection E peerId = Rejected e).
Proof.
  unfold RTCManager.createPeerConnection.
  unfold try_catch, bind at 1. unfold fresh_handle.
  unfold bind at 1. unfold engine_call, bind at 1. unfold emit at 1.
  destruct (new_RTCPeerConnection E peerId) as [[]|err]; unfold settle.
  - unfold ret at 1. unfold bind at 1. unfold RTCManager.this.
    cbn [rtcManager set_trace set_next_handle].
    destruct (rtcManager s) as [m|] eqn:Hm.
    + unfold bind at 1. rewrite for_each_emit.
      destruct isInitiator;
        unfold bind, emit, RTCManager.setupDataChannel, RTCManager.modify_this,
          RTCManager.logEvent, ret; cbn; rewrite Hm; cbn;
        destruct (debug (config s)); done.
    + unfold RTCManager.logEvent, bind, throw. cbn.
      destruct (debug (config s)); intros; simplify_eq/=;
        (split; [done|]; split; [done|]; by intros [? ?]).
  - unfold RTCManager.logEvent, bind, throw. cbn.
    destruct (debug (config s)); intros; by simplify_eq/=.
Qed.

Lemma createPeerConnection_no_send E peerId b :
  keeps no_send (RTCManager.createPeerConnection E peerId b).
Proof. unfold RTCManager.createPeerConnection. frame send_leaf. Qed.

(** X3: With a manager present and a connection constructor that succeeds,
    acceptCall creates a non-initiator connection (no data channel) carrying the
    local tracks, then sends rtc:call-accept with the given callId if the
    channel is open, and stores the record {callId, initiator false, startTime
    now, state 'connecting'}; the new connection replaces whatever was
    registered for the peer. *)
Theorem acceptCall_ok E (s : State) (peerId : string) (cid : option string) m :
  rtcManager s = Some m ->
  new_RTCPeerConnection E peerId = Resolved tt ->
  exists s',
    RTCSignaling.acceptCall E peerId cid s = Ok tt s' /\
    trace s' = trace s ++ [NewPeerConnection (next_handle s)]
      ++ (AddTrack (next_handle s) <$> default [] (localStream m))
      ++ (if channel_open s
          then [Send {| to := peerId;
                        data := {| type := "rtc:call-accept"; timestamp := now s;
                                   payload := PCall cid |} |}]
          else []) /\
    activeCalls s' =
      <[peerId := {| callId := cid; initiator := false;
                     startTime := now s; state := "connecting" |}]> (activeCalls s) /\
    rtcManager s' =
      Some (RTCManager.set_peerConnections <[peerId := new_connection s]> m).
Proof.
  intros Hm Hnew.
  destruct (createPeerConnection_ok E s peerId false m Hm Hnew)
    as (s1 & Hcreate & Ht1 & Hm1 & Hc1 & _).
  pose proof (keeps_Ok _ _ _ _ _ (createPeerConnection_env E peerId false) Hcreate)
    as Henv.
  pose proof (same_env_channel_open _ _ Henv) as Hopen.
  destruct Henv as (_&_&Hnow1&_).
  destruct (sendSignalingMessage_step s1 peerId "rtc:call-accept" (PCall cid))
    as (s2 & Hsend & Hm2 & Hc2 & _ & _ & Hnow2 & _ & Ht2).
  assert (exists s', RTCSignaling.acceptCall E peerId cid s = Ok tt s' /\
            trace s' = trace s2 /\ rtcManager s' = rtcManager s2 /\
            activeCalls s' = <[peerId := {| callId := cid; initiator := false;
                    startTime := now s2; state := "connecting" |}]> (activeCalls s2))
    as (s' & Hacc & Ht & Hr & Ha).
  { unfold RTCSignaling.acceptCall, try_catch.
    unfold bind at 1. unfold RTCSignaling.on_rtcManager. rewrite Hm, Hcreate.
    unfold bind at 1. rewrite Hsend.
    unfold bind, RTCSignaling.logEvent. cbn.
    destruct (debug (config s2)); eexists; (split; [reflexivity|]); cbn; done. }
  exists s'. split; [done|]. split; [|split].
  - rewrite Ht, Ht2, Ht1, Hopen, Hnow1. cbn. rewrite app_nil_r.
    by rewrite <- ?app_assoc.
  - by rewrite Ha, Hc2, Hc1, Hnow2, Hnow1.
  - by rewrite Hr, Hm2, Hm1.
Qed.

Lemma acceptCall_ok_witness :
  let E := willing in
  let s := ready in
  let peerId := "alice" in
  let cid := Some "c1" in
  let m := manager_of ready in
  exists s',
    RTCSignaling.acceptCall E peerId cid s = Ok tt s' /\
    trace s' = trace s ++ [NewPeerConnection (next_handle s)]
      ++ (AddTrack (next_handle s) <$> default [] (localStream m))
      ++ (if channel_open s
          then [Send {| to := peerId;
                        data := {| type := "rtc:call-accept"; timestamp := now s;
                                   payload := PCall cid |} |}]
          else []) /\
    activeCalls s' =
      <[peerId := {| callId := cid; initiator := false;
                     startTime := now s; state := "connecting" |}]> (activeCalls s) /\
    rtcManager s' =
      Some (RTCManager.set_peerConnections <[peerId := new_connection s]> m).
Proof.
  cbv zeta.
  apply (acceptCall_ok willing ready "alice" (Some "c1") (manager_of ready));
    vm_compute; reflexivity.
Defined.

Lemma on_rtcManager_createPeerConnection_Throw E s peerId b e s1 :
  RTCSignaling.on_rtcManager (RTCManager.createPeerConnection E peerId b) s = Throw e s1 ->
  rtcManager s1 = rtcManager s /\ sent (trace s1) = sent (trace s) /\
  activeCalls s1 = activeCalls s.
Proof.
  intros Hthrow.
  pose proof (keeps_Throw _ _ _ _ _
    (keeps_on_rtcManager _ _ (createPeerConnection_no_send E peerId b)) Hthrow) as Hs.
  pose proof (keeps_Throw _ _ _ _ _
    (keeps_on_rtcManager _ _ (createPeerConnection_calls E peerId b)) Hthrow) as Hc.
  split; [|by split].
  unfold RTCSignaling.on_rtcManager in Hthrow.
  destruct (rtcManager s) eqn:Hm.
  - apply createPeerConnection_fail in Hthrow as (-> & _). done.
  - by injection Hthrow as <- <-.
Qed.

(** X4: Whenever acceptCall throws, nothing has been sent, and the call records
    and the manager's registries are as they were. *)
Theorem acceptCall_failure E (s : State) (peerId : string) (cid : option string) e s' :
  RTCSignaling.acceptCall E peerId cid s = Throw e s' ->
  sent (trace s') = sent (trace s) /\
  activeCalls s' = activeCalls s /\
  rtcManager s' = rtcManager s.
Proof.
  unfold RTCSignaling.acceptCall, try_catch. unfold bind at 1.
  destruct (RTCSignaling.on_rtcManager (RTCManager.createPeerConnection E peerId false) s)
    as [pc s1|e1 s1] eqn:Hcreate.
  - destruct (sendSignalingMessage_step s1 peerId "rtc:call-accept" (PCall cid))
      as (s2 & Hsend & _).
    unfold bind at 1. rewrite Hsend.
    unfold bind, RTCSignaling.logEvent. cbn. by destruct (debug (config s2)).
  - apply on_rtcManager_createPeerConnection_Throw in Hcreate as (Hm & Hs & Hc).
    destruct (logEvent_step "acceptCall"
                ("Failed to accept call: " +:+ error_message e1) "error" s1)
      as (s4 & Hlog & Ha4 & Hm4 & _ & Ht4).
    unfold bind, throw. rewrite Hlog. intros [= <- <-].
    rewrite Ht4, Ha4, Hm4. done.
Qed.

Lemma acceptCall_failure_witness :
  let E := no_connection in
  let s := ready in
  let peerId := "alice" in
  let cid := Some "c1" in
  let e := DOMException "NotSupportedError" "bad configuration" in
  let s' := final (RTCSignaling.acceptCall no_connection "alice" (Some "c1") ready) in
  sent (trace s') = sent (trace s) /\
  activeCalls s' = activeCalls s /\
  rtcManager s' = rtcManager s.
Proof.
  cbv zeta.
  apply (acceptCall_failure no_connection ready "alice" (Some "c1")
           (DOMException "NotSupportedError" "bad configuration")
           (final (RTCSignaling.acceptCall no_connection "alice" (Some "c1") ready))).
  vm_compute. reflexivity.
Defined.

(** ** initiateCall *)

Lemma createOffer_Throw_no_send E s peerId e s1 :
  RTCSignaling.on_rtcManager (RTCManager.createOffer E RTCSignaling.callbacks peerId) s
    = Throw e s1 ->
  sent (trace s1) = sent (trace s).
Proof.
  unfold RTCSignaling.on_rtcManager. destruct (rtcManager s) as [m|] eqn:Hm;
    [|by intros [= <- <-]].
  unfold RTCManager.createOffer, try_catch, RTCManager.get_peerConnection,
    RTCManager.this, engine_call, RTCManager.commit, RTCManager.modify_this,
    RTCManager.logEvent, RTCSignaling.callbacks, RTCSignaling.sendSignalingMessage,
    bind, emit, settle, ret, throw. cbn. rewrite Hm.
  intros H. repeat (case_match; simplify_eq/=); rewrite ?sent_app; cbn;
    by rewrite ?app_nil_r.
Qed.

Lemma or_else_nonempty (cid : option string) (s : State) :
  exists id, RTCSignaling.or_else cid RTCSignaling.generateCallId s = Ok id s /\
             id <> "".
Proof.
  unfold RTCSignaling.or_else, RTCSignaling.generateCallId.
  destruct cid as [c|].
  - destruct (String.eqb_spec c "") as [->|Hne].
    + eexists; split; [reflexivity|]. done.
    + by exists c.
  - eexists; split; [reflexivity|]. done.
Qed.

(** X5: Whenever initiateCall returns, the id it returns is non-empty and is the
    callId of the record now stored for the peer (initiator true, startTime the
    current time, state 'connecting'); a connection is registered for the peer
    and the records of other peers are untouched. *)
Theorem initiateCall_returns_recorded_id E (s : State) (peerId : string)
    (cid : option string) (id : string) (s' : State) :
  RTCSignaling.initiateCall E peerId cid s = Ok id s' ->
  id <> "" /\
  activeCalls s' !! peerId =
    Some {| callId := Some id; initiator := true;
            startTime := now s; state := "connecting" |} /\
  is_Some (connection_of s' peerId) /\
  (forall q, q <> peerId -> activeCalls s' !! q = activeCalls s !! q).
Proof.
  unfold RTCSignaling.initiateCall, try_catch.
  destruct (or_else_nonempty cid s) as (id0 & Hid & Hne).
  destruct (sendSignalingMessage_step s peerId "rtc:call-request" (PCall (Some id0)))
    as (s1 & Hsend & Hm1 & Hc1 & _ & Hn1 & Hnow1 & _).
  unfold bind at 1. rewrite Hid. unfold bind at 1. rewrite Hsend. unfold bind at 1.
  destruct (RTCSignaling.on_rtcManager (RTCManager.createPeerConnection E peerId true) s1)
    as [pc s2|e2 s2] eqn:Hcreate.
  - unfold bind at 1.
    destruct (RTCSignaling.on_rtcManager
                (RTCManager.createOffer E RTCSignaling.callbacks peerId) s2)
      as [o s3|e3 s3] eqn:Hco.
    + pose proof (keeps_Ok _ _ _ _ _
        (keeps_on_rtcManager _ _ (createPeerConnection_calls E peerId true)) Hcreate) as Hk2.
      pose proof (keeps_Ok _ _ _ _ _
        (keeps_on_rtcManager _ _ (createOffer_calls E peerId)) Hco) as Hk3.
      pose proof (keeps_Ok _ _ _ _ _
        (keeps_on_rtcManager _ _ (createPeerConnection_env E peerId true)) Hcreate)
        as (_&_&Hnow2&_).
      pose proof (keeps_Ok _ _ _ _ _
        (keeps_on_rtcManager _ _ (createOffer_env E peerId)) Hco) as (_&_&Hnow3&_).
      pose proof (keeps_Ok _ _ _ _ _
        (keeps_on_rtcManager _ _ (createOffer_same_handle E peerId)) Hco) as Hh3.
      assert (is_Some (connection_of s2 peerId)) as Hreg.
      { unfold RTCSignaling.on_rtcManager in Hcreate.
        destruct (rtcManager s1) as [m|] eqn:Hm; [|done].
        unfold RTCManager.createPeerConnection, try_catch, fresh_handle, engine_call,
          RTCManager.this, bind at 1 2 3 4 5 in Hcreate.
        unfold emit at 1, settle in Hcreate.
        destruct (new_RTCPeerConnection E peerId) as [[]|err].
        - unfold ret at 1 in Hcreate. cbn [rtcManager set_trace set_next_handle] in Hcreate.
          rewrite Hm in Hcreate. unfold bind at 1 in Hcreate.
          rewrite for_each_emit in Hcreate.
          unfold bind, emit, RTCManager.setupDataChannel, RTCManager.modify_this,
            RTCManager.logEvent, ret in Hcreate. cbn in Hcreate. rewrite Hm in Hcreate.
          cbn in Hcreate.
          destruct (debug (config s1)); injection Hcreate as <- <-;
            unfold connection_of; cbn; rewrite lookup_insert_eq; eauto.
        - unfold RTCManager.logEvent, bind, throw in Hcreate. cbn in Hcreate.
          by destruct (debug (config s1)). }
      unfold bind, RTCSignaling.logEvent, ret. cbn.
      unfold same_calls, same_handle in *.
      destruct (debug (config s3)); intros [= <- <-]; cbn;
        (split; [done|]; split;
         [rewrite lookup_insert_eq; by rewrite Hnow3, Hnow2, Hnow1|]; split;
         [unfold connection_of in *; cbn;
          destruct Hreg as [pc2 Hpc2]; rewrite Hpc2 in Hh3;
          destruct (rtcManager s3 ≫= _); [eauto|done]
         |intros q Hq; rewrite lookup_insert_ne by done; congruence]).
    + unfold bind, throw, RTCSignaling.logEvent. by destruct (debug (config s3)).
  - unfold bind, throw, RTCSignaling.logEvent. by destruct (debug (config s2)).
Qed.

Lemma initiateCall_returns_recorded_id_witness :
  let E := willing in
  let s := ready in
  let peerId := "bob" in
  let cid := @None string in
  let id := "call_1000_k3j9x0q2a" in
  let s' := calling_bob in
  id <> "" /\
  activeCalls s' !! peerId =
    Some {| callId := Some id; initiator := true;
            startTime := now s; state := "connecting" |} /\
  is_Some (connection_of s' peerId) /\
  (forall q, q <> peerId -> activeCalls s' !! q = activeCalls s !! q).
Proof.
  cbv zeta.
  apply (initiateCall_returns_recorded_id willing ready "bob" None
           "call_1000_k3j9x0q2a" calling_bob).
  vm_compute. reflexivity.
Defined.

(** X6: On an initialized coordinator whose engine cooperates, initiateCall does
    exactly this, in this order: send rtc:call-request, construct the
    connection, add the local tracks, create the 'signal' data channel,
    createOffer, setLocalDescription, send rtc:offer (the two sends only if the
    channel is open). The data channel is registered for the peer. *)
Theorem initiateCall_order E (s : State) (peerId : string) (cid : option string) m text :
  rtcManager s = Some m ->
  new_RTCPeerConnection E peerId = Resolved tt ->
  pc_createOffer E (new_connection s) = Resolved text ->
  pc_setLocalDescription E (new_connection s) {| sd_type := offer; sdp := Some text |}
    = Resolved tt ->
  exists id s',
    RTCSignaling.initiateCall E peerId cid s = Ok id s' /\
    trace s' = trace s ++
      (if channel_open s
       then [Send {| to := peerId;
                     data := {| type := "rtc:call-request"; timestamp := now s;
                                payload := PCall (Some id) |} |}]
       else []) ++
      [NewPeerConnection (next_handle s)] ++
      (AddTrack (next_handle s) <$> default [] (localStream m)) ++
      [CreateDataChannel (next_handle s) "signal";
       CreateOffer (next_handle s);
       SetLocalDescription (next_handle s) {| sd_type := offer; sdp := Some text |}] ++
      (if channel_open s
       then [Send {| to := peerId;
                     data := {| type := "rtc:offer"; timestamp := now s;
                                payload := PSdp (Some text) |} |}]
       else []) /\
    (dataChannels <$> rtcManager s') =
      Some (<[peerId := {| dc_owner := next_handle s; dc_label := "signal" |}]>
              (dataChannels m)).
Proof.
  intros Hm Hnew Hoffer Hlocal.
  destruct (or_else_generate cid s) as (id & Hid & _).
  destruct (sendSignalingMessage_step s peerId "rtc:call-request" (PCall (Some id)))
    as (s1 & Hsend & Hm1 & Hc1 & _ & Hn1 & Hnow1 & Hopen1 & Ht1).
  assert (new_connection s1 = new_connection s) as Hconn.
  { unfold new_connection. by rewrite Hm1, Hn1. }
  rewrite Hm in Hm1.
  destruct (createPeerConnection_ok E s1 peerId true m Hm1 Hnew)
    as (s2 & Hcreate & Ht2 & Hm2 & Hc2 & _).
  rewrite Hconn in Hcreate, Hm2.
  pose proof (keeps_Ok _ _ _ _ _ (createPeerConnection_env E peerId true) Hcreate)
    as Henv2.
  pose proof (same_env_channel_open _ _ Henv2) as Hopen2.
  destruct Henv2 as (_&_&Hnow2&_).
  destruct (createOffer_ok E s2 peerId _ (new_connection s) text Hm2) as
    (s3 & Hco & Ht3 & Hm3 & Hc3 & _); [by apply lookup_insert_eq|done|done|].
  exists id.
  assert (exists s', RTCSignaling.initiateCall E peerId cid s = Ok id s' /\
            trace s' = trace s3 /\ rtcManager s' = rtcManager s3)
    as (s' & Hinit & Ht & Hr).
  { unfold RTCSignaling.initiateCall, try_catch.
    unfold bind at 1. rewrite Hid.
    unfold bind at 1. rewrite Hsend.
    unfold bind at 1. unfold RTCSignaling.on_rtcManager at 1. rewrite Hm1, Hcreate.
    unfold bind at 1. unfold RTCSignaling.on_rtcManager at 1. rewrite Hm2, Hco.
    unfold bind, RTCSignaling.logEvent, ret. cbn.
    destruct (debug (config s3)); eexists; (split; [reflexivity|]); cbn; done. }
  exists s'. split; [done|]. split.
  - rewrite Ht, Ht3, Ht2, Ht1, Hopen2, Hopen1, Hnow2, Hnow1, Hn1.
    cbn [handle new_connection]. rewrite <- !app_assoc. cbn [app].
    rewrite <- ?app_assoc. repeat f_equal.
  - rewrite Hr, Hm3. cbn. by rewrite Hn1.
Qed.

Lemma initiateCall_order_witness :
  let E := willing in
  let s := ready in
  let peerId := "bob" in
  let cid := @None string in
  let m := manager_of ready in
  let text := "v=0 offer" in
  exists id s',
    RTCSignaling.initiateCall E peerId cid s = Ok id s' /\
    trace s' = trace s ++
      (if channel_open s
       then [Send {| to := peerId;
                     data := {| type := "rtc:call-request"; timestamp := now s;
                                payload := PCall (Some id) |} |}]
       else []) ++
      [NewPeerConnection (next_handle s)] ++
      (AddTrack (next_handle s) <$> default [] (localStream m)) ++
      [CreateDataChannel (next_handle s) "signal";
       CreateOffer (next_handle s);
       SetLocalDescription (next_handle s) {| sd_type := offer; sdp := Some text |}] ++
      (if channel_open s
       then [Send {| to := peerId;
                     data := {| type := "rtc:offer"; timestamp := now s;
                                payload := PSdp (Some text) |} |}]
       else []) /\
    (dataChannels <$> rtcManager s') =
      Some (<[peerId := {| dc_owner := next_handle s; dc_label := "signal" |}]>
              (dataChannels m)).
Proof.
  cbv zeta.
  apply (initiateCall_order willing ready "bob" None (manager_of ready) "v=0 offer");
    vm_compute; reflexivity.
Defined.

(** X7: Whenever initiateCall throws, the messages it has sent are exactly the
    rtc:call-request (if the channel is open): the peer has been asked for a
    call, no offer has gone out. *)
Theorem initiateCall_failure_request E (s : State) (peerId : string)
    (cid : option string) (e : Error) (s' : State) :
  RTCSignaling.initiateCall E peerId cid s = Throw e s' ->
  exists id,
    RTCSignaling.or_else cid RTCSignaling.generateCallId s = Ok id s /\
    sent (trace s') = sent (trace s) ++
      (if channel_open s
       then [{| to := peerId;
                data := {| type := "rtc:call-request"; timestamp := now s;
                           payload := PCall (Some id) |} |}]
       else []).
Proof.
  unfold RTCSignaling.initiateCall, try_catch.
  destruct (or_else_generate cid s) as (id & Hid & _).
  destruct (sendSignalingMessage_step s peerId "rtc:call-request" (PCall (Some id)))
    as (s1 & Hsend & _ & _ & _ & _ & _ & _ & Ht1).
  unfold bind at 1. rewrite Hid. unfold bind at 1. rewrite Hsend.
  assert (sent (trace s1) = sent (trace s) ++
      (if channel_open s
       then [{| to := peerId;
                data := {| type := "rtc:call-request"; timestamp := now s;
                           payload := PCall (Some id) |} |}]
       else [])) as Hs1.
  { rewrite Ht1, sent_app. by destruct (channel_open s). }
  unfold bind at 1.
  destruct (RTCSignaling.on_rtcManager (RTCManager.createPeerConnection E peerId true) s1)
    as [pc s2|e2 s2] eqn:Hcreate.
  - pose proof (keeps_Ok _ _ _ _ _
      (keeps_on_rtcManager _ _ (createPeerConnection_no_send E peerId true)) Hcreate) as Hs2.
    unfold bind at 1.
    destruct (RTCSignaling.on_rtcManager
                (RTCManager.createOffer E RTCSignaling.callbacks peerId) s2)
      as [o s3|e3 s3] eqn:Hco.
    + unfold bind, RTCSignaling.logEvent, ret. cbn. by destruct (debug (config s3)).
    + apply createOffer_Throw_no_send in Hco.
      destruct (logEvent_step "initiateCall"
                  ("Failed to initiate call: " +:+ error_message e3) "error" s3)
        as (s4 & Hlog & _ & _ & _ & Ht4).
      unfold bind, throw. rewrite Hlog. intros [= <- <-].
      exists id. split; [done|]. unfold no_send in Hs2. congruence.
  - apply on_rtcManager_createPeerConnection_Throw in Hcreate as (_ & Hs2 & _).
    destruct (logEvent_step "initiateCall"
                ("Failed to initiate call: " +:+ error_message e2) "error" s2)
      as (s4 & Hlog & _ & _ & _ & Ht4).
    unfold bind, throw. rewrite Hlog. intros [= <- <-].
    exists id. split; [done|]. congruence.
Qed.

Lemma initiateCall_failure_request_witness :
  let E := no_offer in
  let s := ready in
  let peerId := "bob" in
  let cid := @None string in
  let e := DOMException "OperationError" "createOffer failed" in
  let s' := final (RTCSignaling.initiateCall no_offer "bob" None ready) in
  exists id,
    RTCSignaling.or_else cid RTCSignaling.generateCallId s = Ok id s /\
    sent (trace s') = sent (trace s) ++
      (if channel_open s
       then [{| to := peerId;
                data := {| type := "rtc:call-request"; timestamp := now s;
                           payload := PCall (Some id) |} |}]
       else []).
Proof.
  cbv zeta.
  apply (initiateCall_failure_request no_offer ready "bob" None
           (DOMException "OperationError" "createOffer failed")
           (final (RTCSignaling.initiateCall no_offer "bob" None ready))).
  vm_compute. reflexivity.
Defined.

(** ** handleOffer *)

Lemma manager_handleOffer_ok E (s : State) (peerId : string) m pc o text :
  rtcManager s = Some m ->
  peerConnections m !! peerId = Some pc ->
  pc_setRemoteDescription E pc o = Resolved tt ->
  pc_createAnswer E (RTCManager.with_remote o pc) = Resolved text ->
  pc_setLocalDescription E (RTCManager.with_remote o pc)
    {| sd_type := answer; sdp := Some text |} = Resolved tt ->
  exists s',
    RTCManager.handleOffer E RTCSignaling.callbacks peerId o s
      = Ok {| sd_type := answer; sdp := Some text |} s' /\
    trace s' = trace s ++
      [SetRemoteDescription (handle pc) o;
       CreateAnswer (handle pc);
       SetLocalDescription (handle pc) {| sd_type := answer; sdp := Some text |}] ++
      (if channel_open s
       then [Send {| to := peerId;
                     data := {| type := "rtc:answer"; timestamp := now s;
                                payload := PSdp (Some text) |} |}]
       else []) /\
    rtcManager s' = Some (RTCManager.set_peerConnections
      <[peerId := RTCManager.with_local {| sd_type := answer; sdp := Some text |}
                    (RTCManager.with_remote o pc)]> m) /\
    activeCalls s' = activeCalls s /\
    tracks s' = tracks s.
Proof.
  intros Hm Hpc Hremote Hanswer Hlocal. unfold RTCManager.handleOffer.
  unfold try_catch, bind at 1. unfold RTCManager.get_peerConnection, bind at 1.
  unfold RTCManager.this. rewrite Hm, Hpc. unfold ret at 1.
  unfold engine_call. rewrite Hremote.
  unfold bind, emit, settle, ret, RTCManager.commit, RTCManager.modify_this,
    RTCManager.logEvent. cbn. rewrite Hanswer. cbn. rewrite Hlocal. cbn.
  unfold RTCSignaling.sendSignalingMessage, channel_open, emit.
  assert (alter (RTCManager.with_local {| sd_type := answer; sdp := Some text |}) peerId
            (alter (RTCManager.with_remote o) peerId (peerConnections m))
          = <[peerId := RTCManager.with_local {| sd_type := answer; sdp := Some text |}
                          (RTCManager.with_remote o pc)]> (peerConnections m)) as Halter.
  { apply map_eq. intros q. destruct (decide (peerId = q)) as [->|Hne].
    - by rewrite !lookup_alter_eq, lookup_insert_eq, Hpc.
    - by rewrite !lookup_alter_ne, lookup_insert_ne. }
  destruct (debug (config s)); cbn;
    (destruct (nodeCrypt s) as [[[]]|]; cbn; eexists; (split; [reflexivity|]); cbn;
     rewrite ?Hm; cbn; unfold RTCManager.set_peerConnections; cbn; rewrite ?Halter;
     rewrite <- ?app_assoc, ?app_nil_r; done).
Qed.

Lemma handleOffer_same_calls E peerId message :
  keeps same_calls (RTCSignaling.handleOffer E peerId message).
Proof.
  unfold RTCSignaling.handleOffer, RTCManager.handleOffer. frame calls_leaf.
  apply createPeerConnection_calls.
Qed.

(** X8: With a manager present and an engine that cooperates, an inbound offer
    is answered whether or not a call was accepted: handleOffer uses the peer's
    registered connection or creates a non-initiator one, then
    setRemoteDescription(offer), createAnswer, setLocalDescription(answer) and
    sends rtc:answer if the channel is open. Both descriptions are recorded on
    the connection; no call record and no data channel is written. *)
Theorem handleOffer_answers E (s : State) (peerId : string) (message : SignalMessage)
    (m : RTCManager) (text : string) :
  let o := {| sd_type := offer; sdp := msg_sdp message |} in
  let a := {| sd_type := answer; sdp := Some text |} in
  let target := default (new_connection s) (peerConnections m !! peerId) in
  rtcManager s = Some m ->
  (peerConnections m !! peerId = None -> new_RTCPeerConnection E peerId = Resolved tt) ->
  pc_setRemoteDescription E target o = Resolved tt ->
  pc_createAnswer E (RTCManager.with_remote o target) = Resolved text ->
  pc_setLocalDescription E (RTCManager.with_remote o target) a = Resolved tt ->
  exists s',
    RTCSignaling.handleOffer E peerId message s = Ok tt s' /\
    trace s' = trace s ++
      match peerConnections m !! peerId with
      | Some _ => []
      | None => [NewPeerConnection (next_handle s)] ++
                (AddTrack (next_handle s) <$> default [] (localStream m))
      end ++
      [SetRemoteDescription (handle target) o;
       CreateAnswer (handle target);
       SetLocalDescription (handle target) a] ++
      (if channel_open s
       then [Send {| to := peerId;
                     data := {| type := "rtc:answer"; timestamp := now s;
                                payload := PSdp (Some text) |} |}]
       else []) /\
    connection_of s' peerId = Some (RTCManager.with_local a (RTCManager.with_remote o target)) /\
    dataChannels <$> rtcManager s' = Some (dataChannels m) /\
    activeCalls s' = activeCalls s.
Proof.
  intros o a target Hm Hnew Hremote Hanswer Hlocal.
  assert (exists s1 m1,
    (let! known := RTCSignaling.on_rtcManager
        (let! me := RTCManager.this in
         ret (bool_decide (is_Some (peerConnections me !! peerId)))) in
     if known then ret tt
     else RTCSignaling.on_rtcManager (RTCManager.createPeerConnection E peerId false)
          >> ret tt) s = Ok tt s1 /\
    rtcManager s1 = Some m1 /\ peerConnections m1 !! peerId = Some target /\
    dataChannels m1 = dataChannels m /\
    <[peerId := target]> (peerConnections m1) = peerConnections m1 /\
    trace s1 = trace s ++
      match peerConnections m !! peerId with
      | Some _ => []
      | None => [NewPeerConnection (next_handle s)] ++
                (AddTrack (next_handle s) <$> default [] (localStream m))
      end /\
    activeCalls s1 = activeCalls s /\ channel_open s1 = channel_open s /\
    now s1 = now s) as (s1 & m1 & Hprep & Hm1 & Hpc1 & Hdc1 & _ & Ht1 & Hc1 & Hopen1 & Hnow1).
  { unfold bind at 1. unfold RTCSignaling.on_rtcManager at 1. rewrite Hm.
    unfold bind at 1. unfold RTCManager.this. rewrite Hm. unfold ret at 1.
    subst target. destruct (peerConnections m !! peerId) as [pc|] eqn:Hpc; cbn.
    - exists s, m. rewrite app_nil_r. repeat split; try done.
      by apply insert_id.
    - destruct (createPeerConnection_ok E s peerId false m Hm (Hnew eq_refl))
        as (s1 & Hcreate & Ht1 & Hm1 & Hc1 & _).
      pose proof (keeps_Ok _ _ _ _ _ (createPeerConnection_env E peerId false) Hcreate)
        as Henv.
      pose proof (same_env_channel_open _ _ Henv) as Hopen.
      destruct Henv as (_&_&Hnow1&_).
      unfold bind, RTCSignaling.on_rtcManager, ret. rewrite Hm, Hcreate.
      eexists _, _. split; [reflexivity|]. split; [exact Hm1|]. cbn.
      rewrite lookup_insert_eq, insert_insert_eq, Ht1, app_nil_r. done. }
  destruct (manager_handleOffer_ok E s1 peerId m1 target o text Hm1 Hpc1
              Hremote Hanswer Hlocal) as (s2 & Hho & Ht2 & Hm2 & Hc2 & _).
  assert (exists s', RTCSignaling.handleOffer E peerId message s = Ok tt s' /\
            trace s' = trace s2 /\ rtcManager s' = rtcManager s2 /\
            activeCalls s' = activeCalls s2) as (s' & Hrun & Ht & Hr & Ha).
  { unfold RTCSignaling.handleOffer, try_catch.
    unfold bind at 1. unfold bind at 1 in Hprep. 
    destruct (RTCSignaling.on_rtcManager
      (let! me := RTCManager.this in
       ret (bool_decide (is_Some (peerConnections me !! peerId)))) s)
      as [known s0|e0 s0]; [|done].
    unfold bind at 1. rewrite Hprep.
    unfold bind at 1. unfold RTCSignaling.on_rtcManager at 1. rewrite Hm1.
    fold o. rewrite Hho. unfold RTCSignaling.logEvent.
    destruct (debug (config s2)); eexists; (split; [reflexivity|]); cbn; done. }
  exists s'. split; [done|]. split; [|split; [|split]].
  - rewrite Ht, Ht2, Ht1, Hopen1, Hnow1. by rewrite <- !app_assoc.
  - unfold connection_of. rewrite Hr, Hm2. cbn. apply lookup_insert_eq.
  - rewrite Hr, Hm2. cbn. by rewrite Hdc1.
  - by rewrite Ha, Hc2, Hc1.
Qed.

Lemma handleOffer_answers_witness :
  let E := willing in
  let s := calling_bob in
  let peerId := "dave" in
  let message := offer_msg in
  let m := manager_of calling_bob in
  let text := "v=0 answer" in
  let o := {| sd_type := offer; sdp := msg_sdp message |} in
  let a := {| sd_type := answer; sdp := Some text |} in
  let target := default (new_connection s) (peerConnections m !! peerId) in
  
  exists s',
    RTCSignaling.handleOffer E peerId message s = Ok tt s' /\
    trace s' = trace s ++
      match peerConnections m !! peerId with
      | Some _ => []
      | None => [NewPeerConnection (next_handle s)] ++
                (AddTrack (next_handle s) <$> default [] (localStream m))
      end ++
      [SetRemoteDescription (handle target) o;
       CreateAnswer (handle target);
       SetLocalDescription (handle target) a] ++
      (if channel_open s
       then [Send {| to := peerId;
                     data := {| type := "rtc:answer"; timestamp := now s;
                                payload := PSdp (Some text) |} |}]
       else []) /\
    connection_of s' peerId = Some (RTCManager.with_local a (RTCManager.with_remote o target)) /\
    dataChannels <$> rtcManager s' = Some (dataChannels m) /\
    activeCalls s' = activeCalls s.
Proof.
  cbv zeta.
  apply (handleOffer_answers willing calling_bob "dave" offer_msg
           (manager_of calling_bob) "v=0 answer");
    try (intros _); vm_compute; reflexivity.
Defined.

(** X9: handleOffer never writes a call record, so for a peer without a record
    an endCall after the inbound offer does nothing at all: whatever connection
    the offer created stays open and registered. *)
Theorem offer_session_survives_endCall E (s : State) (peerId : string)
    (message : SignalMessage) :
  activeCalls s !! peerId = None ->
  let s1 := final (RTCSignaling.handleOffer E peerId message s) in
  activeCalls s1 = activeCalls s /\
  RTCSignaling.endCall peerId s1 = Ok tt s1.
Proof.
  intros Hnone s1.
  pose proof (handleOffer_same_calls E peerId message s) as Hc.
  unfold same_calls in Hc. fold s1 in Hc. split; [done|].
  apply endCall_unknown. by rewrite Hc.
Qed.

Lemma offer_session_survives_endCall_witness :
  let E := willing in
  let s := calling_bob in
  let peerId := "dave" in
  let message := offer_msg in
  let s1 := final (RTCSignaling.handleOffer E peerId message s) in
  activeCalls s1 = activeCalls s /\
  RTCSignaling.endCall peerId s1 = Ok tt s1.
Proof.
  cbv zeta.
  apply (offer_session_survives_endCall willing calling_bob "dave" offer_msg).
  vm_compute. reflexivity.
Defined.

(** X10: handleAnswer always returns. If a connection is registered for the peer
    the answer is passed to setRemoteDescription and becomes its remote
    description when the engine accepts it; with no connection, or when the
    engine rejects, nothing changes. Call records and tracks are never touched. *)
Theorem handleAnswer_applies E (s : State) (peerId : string) (message : SignalMessage) :
  let a := {| sd_type := answer; sdp := msg_sdp message |} in
  exists s',
    RTCSignaling.handleAnswer E peerId message s = Ok tt s' /\
    trace s' = trace s ++
      match connection_of s peerId with
      | Some pc => [SetRemoteDescription (handle pc) a]
      | None => []
      end /\
    connection_of s' peerId =
      match connection_of s peerId with
      | Some pc => match pc_setRemoteDescription E pc a with
                   | Resolved _ => Some (RTCManager.with_remote a pc)
                   | Rejected _ => Some pc
                   end
      | None => None
      end /\
    activeCalls s' = activeCalls s /\
    tracks s' = tracks s.
Proof.
  intros a.
  unfold RTCSignaling.handleAnswer, RTCManager.handleAnswer, connection_of.
  fold a.
  unfold try_catch, RTCSignaling.on_rtcManager, RTCManager.get_peerConnection,
    RTCManager.this, bind, engine_call, bind, emit, settle, ret, throw,
    RTCManager.commit, RTCManager.modify_this, RTCManager.logEvent, RTCSignaling.logEvent.
  destruct (rtcManager s) as [m|] eqn:Hm; cbn.
  - destruct (peerConnections m !! peerId) as [pc|] eqn:Hpc; cbn.
    + destruct (pc_setRemoteDescription E pc a) as [[]|err]; cbn.
      * destruct (debug (config s)) eqn:Hd; cbn; rewrite ?Hd; cbn;
          eexists; (split; [reflexivity|]); cbn; rewrite Hm; cbn;
          rewrite lookup_alter_eq, Hpc; done.
      * destruct (debug (config s)) eqn:Hd; cbn; rewrite ?Hd; cbn;
          eexists; (split; [reflexivity|]); cbn; rewrite Hm; cbn; rewrite Hpc; done.
    + destruct (debug (config s)) eqn:Hd; cbn; rewrite ?Hd; cbn;
        eexists; (split; [reflexivity|]); cbn; rewrite Hm; cbn;
        rewrite Hpc, app_nil_r; done.
  - destruct (debug (config s)) eqn:Hd; cbn; rewrite ?Hd; cbn;
      eexists; (split; [reflexivity|]); cbn; rewrite Hm, app_nil_r; done.
Qed.

Lemma closePeerConnection_spec (s : State) (peerId : string) m :
  rtcManager s = Some m ->
  exists s',
    RTCManager.closePeerConnection peerId s = Ok tt s' /\
    trace s' = trace s ++ closing_events m peerId /\
    tracks s' = stop_all (closing_tracks m peerId) (tracks s) /\
    rtcManager s' = Some (without peerId m) /\
    activeCalls s' = activeCalls s /\
    next_handle s' = next_handle s.
Proof.
  intros Hm. unfold closing_events, closing_tracks, without.
  destruct (peerConnections m !! peerId) as [pc|] eqn:Hpc.
  - by apply closePeerConnection_known.
  - exists s. unfold RTCManager.closePeerConnection, bind, RTCManager.this.
    rewrite Hm, Hpc, app_nil_r. done.
Qed.

Lemma without_lookup peerId m q :
  peerConnections (without peerId m) !! q =
  if decide (peerId = q) then None else peerConnections m !! q.
Proof.
  unfold without. destruct (peerConnections m !! peerId) as [pc|] eqn:Hpc; cbn.
  - rewrite lookup_delete. by case_decide.
  - case_decide; [by subst|done].
Qed.

Lemma sent_closing m peerId : sent (closing_events m peerId) = [].
Proof.
  unfold closing_events. destruct (peerConnections m !! peerId); [|done].
  by rewrite sent_app, sent_stops.
Qed.

Lemma closed_closing m peerId :
  closed (closing_events m peerId) = option_list (handle <$> peerConnections m !! peerId).
Proof.
  unfold closing_events. destruct (peerConnections m !! peerId); [|done].
  by rewrite closed_app, closed_stops.
Qed.

(** ** endCall, whatever the channel and the registry *)

Lemma endCall_known (s : State) (peerId : string) (call : Call) (m : RTCManager) :
  activeCalls s !! peerId = Some call ->
  rtcManager s = Some m ->
  exists s',
    RTCSignaling.endCall peerId s = Ok tt s' /\
    trace s' = trace s ++
      (if channel_open s
       then [Send {| to := peerId;
                     data := {| type := "rtc:call-end"; timestamp := now s;
                                payload := PCall (callId call) |} |}]
       else []) ++ closing_events m peerId /\
    tracks s' = stop_all (closing_tracks m peerId) (tracks s) /\
    activeCalls s' = delete peerId (activeCalls s) /\
    rtcManager s' = Some (without peerId m).
Proof.
  intros Hcall Hm.
  destruct (sendSignalingMessage_step s peerId "rtc:call-end" (PCall (callId call)))
    as (s1 & Hsend & Hm1 & Hc1 & Htr1 & _ & _ & _ & Ht1).
  rewrite Hm in Hm1.
  destruct (closePeerConnection_spec s1 peerId m Hm1)
    as (s2 & Hclose & Ht2 & Htr2 & Hm2 & Hc2 & _).
  unfold RTCSignaling.endCall. rewrite Hcall.
  unfold bind at 1. rewrite Hsend.
  unfold bind at 1. unfold RTCSignaling.on_rtcManager. rewrite Hm1, Hclose.
  unfold bind, RTCSignaling.logEvent. cbn.
  destruct (debug (config s2)); eexists; (split; [reflexivity|]); cbn;
    rewrite ?Ht2, ?Ht1, ?Htr2, ?Htr1, ?Hc2, ?Hc1, <- ?app_assoc; done.
Qed.

(** X11: On an initialized coordinator, for a peer with a call record, endCall
    sends rtc:call-end with the record's callId (if the channel is open), then
    stops the tracks of the connection's senders, closes the connection, removes
    it and its data channel from the registries, and deletes the record. *)
Theorem endCall_spec (s : State) (peerId : string) (call : Call) (m : RTCManager) :
  activeCalls s !! peerId = Some call ->
  rtcManager s = Some m ->
  exists s',
    RTCSignaling.endCall peerId s = Ok tt s' /\
    trace s' = trace s ++
      (if channel_open s
       then [Send {| to := peerId;
                     data := {| type := "rtc:call-end"; timestamp := now s;
                                payload := PCall (callId call) |} |}]
       else []) ++ closing_events m peerId /\
    tracks s' = stop_all (closing_tracks m peerId) (tracks s) /\
    activeCalls s' = delete peerId (activeCalls s) /\
    rtcManager s' = Some (without peerId m).
Proof. intros. eapply endCall_known; eassumption. Qed.

Lemma endCall_spec_witness :
  let s := calling_bob in
  let peerId := "bob" in
  let call := bob_call in
  let m := manager_of calling_bob in
  exists s',
    RTCSignaling.endCall peerId s = Ok tt s' /\
    trace s' = trace s ++
      (if channel_open s
       then [Send {| to := peerId;
                     data := {| type := "rtc:call-end"; timestamp := now s;
                                payload := PCall (callId call) |} |}]
       else []) ++ closing_events m peerId /\
    tracks s' = stop_all (closing_tracks m peerId) (tracks s) /\
    activeCalls s' = delete peerId (activeCalls s) /\
    rtcManager s' = Some (without peerId m).
Proof.
  cbv zeta.
  apply (endCall_spec calling_bob "bob" bob_call (manager_of calling_bob));
    vm_compute; reflexivity.
Defined.

Lemma notify_returns (cb : option (option Error)) (n : Notification) (s : State) :
  cb ≫= id = None ->
  notify cb n s = Ok tt (set_trace (trace s ++ match cb with
                                               | Some _ => [Notify n]
                                               | None => []
                                               end) s).
Proof.
  unfold notify, bind, emit, ret. destruct cb as [[e|]|]; cbn; [done|done|].
  intros _. f_equal. destruct s; unfold set_trace; cbn. by rewrite app_nil_r.
Qed.

(** X12: On an initialized coordinator, when the onCallEnd callback is absent or
    returns, an inbound rtc:call-end notifies it, deletes the call record and
    closes the peer's connection (sender tracks stopped, registrations removed),
    and sends nothing back. *)
Theorem handleCallEnd_releases (s : State) (peerId : string) (message : SignalMessage)
    (m : RTCManager) :
  rtcManager s = Some m ->
  (onCallEnd (config s) ≫= fun f => f peerId (msg_callId message)) = None ->
  exists s',
    RTCSignaling.handleCallEnd peerId message s = Ok tt s' /\
    trace s' = trace s ++
      match onCallEnd (config s) with
      | Some _ => [Notify (OnCallEnd peerId (msg_callId message))]
      | None => []
      end ++ closing_events m peerId /\
    sent (trace s') = sent (trace s) /\
    activeCalls s' = delete peerId (activeCalls s) /\
    rtcManager s' = Some (without peerId m) /\
    tracks s' = stop_all (closing_tracks m peerId) (tracks s).
Proof.
  intros Hm Hcb. unfold RTCSignaling.handleCallEnd.
  unfold bind at 1. rewrite notify_returns by (by destruct (onCallEnd (config s))).
  set (s1 := set_trace _ s).
  unfold bind at 1.
  destruct (closePeerConnection_spec (set_activeCalls (delete peerId) s1) peerId m Hm)
    as (s2 & Hclose & Ht2 & Htr2 & Hm2 & Hc2 & _).
  unfold RTCSignaling.on_rtcManager. cbn [rtcManager set_activeCalls].
  change (rtcManager s1) with (rtcManager s). rewrite Hm, Hclose.
  exists s2. split; [done|]. subst s1; cbn in *.
  split; [|split; [|done]].
  - rewrite Ht2. destruct (onCallEnd (config s)); cbn; by rewrite <- ?app_assoc.
  - rewrite Ht2, !sent_app, sent_closing.
    destruct (onCallEnd (config s)); cbn; by rewrite !app_nil_r.
Qed.

Lemma handleCallEnd_releases_witness :
  let s := with_config listening calling_bob in
  let peerId := "bob" in
  let message := hangup_msg in
  let m := manager_of calling_bob in
  exists s',
    RTCSignaling.handleCallEnd peerId message s = Ok tt s' /\
    trace s' = trace s ++
      match onCallEnd (config s) with
      | Some _ => [Notify (OnCallEnd peerId (msg_callId message))]
      | None => []
      end ++ closing_events m peerId /\
    sent (trace s') = sent (trace s) /\
    activeCalls s' = delete peerId (activeCalls s) /\
    rtcManager s' = Some (without peerId m) /\
    tracks s' = stop_all (closing_tracks m peerId) (tracks s).
Proof.
  cbv zeta.
  apply (handleCallEnd_releases (with_config listening calling_bob) "bob" hangup_msg
           (manager_of calling_bob));
    vm_compute; reflexivity.
Defined.

(** X13: On an initialized coordinator, when the onCallReject callback is absent
    or returns, an inbound rtc:call-reject notifies it with callId and reason,
    deletes the call record and closes the peer's connection, and sends nothing
    back. *)
Theorem handleCallReject_releases (s : State) (peerId : string) (message : SignalMessage)
    (m : RTCManager) :
  rtcManager s = Some m ->
  (onCallReject (config s) ≫=
     fun f => f peerId (msg_callId message) (msg_reason message)) = None ->
  exists s',
    RTCSignaling.handleCallReject peerId message s = Ok tt s' /\
    trace s' = trace s ++
      match onCallReject (config s) with
      | Some _ => [Notify (OnCallReject peerId (msg_callId message) (msg_reason message))]
      | None => []
      end ++ closing_events m peerId /\
    sent (trace s') = sent (trace s) /\
    activeCalls s' = delete peerId (activeCalls s) /\
    rtcManager s' = Some (without peerId m) /\
    tracks s' = stop_all (closing_tracks m peerId) (tracks s).
Proof.
  intros Hm Hcb. unfold RTCSignaling.handleCallReject.
  unfold bind at 1. rewrite notify_returns by (by destruct (onCallReject (config s))).
  set (s1 := set_trace _ s).
  unfold bind at 1.
  destruct (closePeerConnection_spec (set_activeCalls (delete peerId) s1) peerId m Hm)
    as (s2 & Hclose & Ht2 & Htr2 & Hm2 & Hc2 & _).
  unfold RTCSignaling.on_rtcManager. cbn [rtcManager set_activeCalls].
  change (rtcManager s1) with (rtcManager s). rewrite Hm, Hclose.
  exists s2. split; [done|]. subst s1; cbn in *.
  split; [|split; [|done]].
  - rewrite Ht2. destruct (onCallReject (config s)); cbn; by rewrite <- ?app_assoc.
  - rewrite Ht2, !sent_app, sent_closing.
    destruct (onCallReject (config s)); cbn; by rewrite !app_nil_r.
Qed.

Lemma handleCallReject_releases_witness :
  let s := with_config listening calling_bob in
  let peerId := "bob" in
  let message := reject_msg in
  let m := manager_of calling_bob in
  exists s',
    RTCSignaling.handleCallReject peerId message s = Ok tt s' /\
    trace s' = trace s ++
      match onCallReject (config s) with
      | Some _ => [Notify (OnCallReject peerId (msg_callId message) (msg_reason message))]
      | None => []
      end ++ closing_events m peerId /\
    sent (trace s') = sent (trace s) /\
    activeCalls s' = delete peerId (activeCalls s) /\
    rtcManager s' = Some (without peerId m) /\
    tracks s' = stop_all (closing_tracks m peerId) (tracks s).
Proof.
  cbv zeta.
  apply (handleCallReject_releases (with_config listening calling_bob) "bob" reject_msg
           (manager_of calling_bob));
    vm_compute; reflexivity.
Defined.

(** X14: If the configured onCallEnd (for rtc:call-end) or onCallReject (for
    rtc:call-reject) callback throws, dispatching the message still returns, but
    the cleanup that follows the callback is skipped: the call records, the
    connections and the tracks are as before and nothing is closed. *)
Theorem hangup_lost_when_callback_throws E (s : State) (peerId : string)
    (message : SignalMessage) (e : Error) :
  (type message = "rtc:call-end" /\
   (onCallEnd (config s) ≫= fun f => f peerId (msg_callId message)) = Some e) \/
  (type message = "rtc:call-reject" /\
   (onCallReject (config s) ≫=
      fun f => f peerId (msg_callId message) (msg_reason message)) = Some e) ->
  let r := RTCSignaling.handleSignalingMessage
             (RTCSignaling.messageHandlers E) peerId message s in
  returns r = true /\
  activeCalls (final r) = activeCalls s /\
  rtcManager (final r) = rtcManager s /\
  tracks (final r) = tracks s /\
  closed (trace (final r)) = closed (trace s).
Proof.
  intros Hcase.
  assert (exists (handler : string -> SignalMessage -> M unit) n,
            RTCSignaling.messageHandlers E !! type message = Some handler /\
            handler peerId message s = Throw e (set_trace (trace s ++ [Notify n]) s))
    as (handler & n & Hh & Hthrow).
  { destruct Hcase as [[Hty Hcb]|[Hty Hcb]]; rewrite Hty.
    - exists RTCSignaling.handleCallEnd, (OnCallEnd peerId (msg_callId message)).
      split; [done|]. unfold RTCSignaling.handleCallEnd, bind.
      destruct (onCallEnd (config s)) as [f|]; [|done]. cbn in Hcb.
      cbn [fmap option_fmap option_map]. by rewrite Hcb.
    - exists RTCSignaling.handleCallReject,
        (OnCallReject peerId (msg_callId message) (msg_reason message)).
      split; [done|]. unfold RTCSignaling.handleCallReject, bind.
      destruct (onCallReject (config s)) as [f|]; [|done]. cbn in Hcb.
      cbn [fmap option_fmap option_map]. by rewrite Hcb. }
  unfold RTCSignaling.handleSignalingMessage. rewrite Hh.
  unfold try_catch. rewrite Hthrow. unfold RTCSignaling.logEvent. cbn.
  destruct (debug (config s)); cbn; rewrite ?closed_app; cbn;
    by rewrite ?app_nil_r.
Qed.

Lemma hangup_lost_when_callback_throws_witness :
  let E := willing in
  let s := with_config broken_hangup calling_bob in
  let peerId := "bob" in
  let message := hangup_msg in
  let e := TypeError "panel is not defined" in
  let r := RTCSignaling.handleSignalingMessage
             (RTCSignaling.messageHandlers E) peerId message s in
  returns r = true /\
  activeCalls (final r) = activeCalls s /\
  rtcManager (final r) = rtcManager s /\
  tracks (final r) = tracks s /\
  closed (trace (final r)) = closed (trace s).
Proof.
  cbv zeta.
  apply (hangup_lost_when_callback_throws willing (with_config broken_hangup calling_bob)
           "bob" hangup_msg (TypeError "panel is not defined")).
  left. split; vm_compute; reflexivity.
Defined.

Lemma for_each_set_enabled (b : bool) (l : list nat) (s : State) :
  for_each (RTCManager.set_enabled b) l s =
  Ok tt (set_tracks (fun h => foldl (fun h t => alter (with_enabled b) t h) h l) s).
Proof.
  revert s. induction l as [|t l IH]; intros s; cbn [for_each foldl].
  - unfold ret. f_equal. by destruct s.
  - unfold bind, RTCManager.set_enabled. rewrite IH. f_equal.
Qed.

Lemma enable_all_lookup (b : bool) (l : list nat) (h : gmap nat MediaStreamTrack) (t : nat) :
  foldl (fun h t => alter (with_enabled b) t h) h l !! t =
  if bool_decide (t ∈ l) then with_enabled b <$> h !! t else h !! t.
Proof.
  revert h. induction l as [|x l IH]; intros h.
  - done.
  - cbn [foldl]. rewrite IH. destruct (decide (x = t)) as [->|Hne].
    + rewrite lookup_alter_eq.
      rewrite (bool_decide_eq_true_2 (t ∈ t :: l)) by apply list_elem_of_here.
      case_bool_decide; [|done].
      by destruct (h !! t).
    + rewrite lookup_alter_ne by done.
      rewrite (bool_decide_ext (t ∈ x :: l) (t ∈ l)); [done|].
      rewrite elem_of_cons. split; [intros [Heq|Hin]; [by subst|done]|by right].
Qed.

(** X15: With a local stream present, toggleAudio and toggleVideo set the
    enabled flag on exactly the tracks of the local stream that have that kind;
    every other track, every readyState, the registries, the call records and
    the engine trace are untouched. *)
Theorem toggle_spec (k : TrackKind) (on : bool) (s : State) m stream :
  rtcManager s = Some m ->
  localStream m = Some stream ->
  exists s',
    RTCManager.toggle k on s = Ok tt s' /\
    (forall t tr, tracks s !! t = Some tr ->
       tracks s' !! t =
         Some (if bool_decide (t ∈ stream) && same_kind (kind tr) k
               then with_enabled on tr else tr)) /\
    (forall t, tracks s !! t = None -> tracks s' !! t = None) /\
    trace s' = trace s /\
    rtcManager s' = rtcManager s /\
    activeCalls s' = activeCalls s.
Proof.
  intros Hm Hstream. unfold RTCManager.toggle, bind, RTCManager.this.
  rewrite Hm, Hstream, for_each_set_enabled.
  eexists. split; [reflexivity|]. cbn. split; [|split; [|done]].
  - intros t tr Ht. rewrite enable_all_lookup, Ht.
    unfold RTCManager.tracks_of_kind.
    case_bool_decide as Hin.
    + apply list_elem_of_In, filter_In in Hin as [Hin Hk]. rewrite Ht in Hk.
      apply list_elem_of_In in Hin. rewrite bool_decide_eq_true_2 by done.
      cbn. unfold same_kind. destruct (kind tr), k; done.
    + destruct (bool_decide (t ∈ stream)) eqn:Hs; [|done]. cbn.
      destruct (same_kind (kind tr) k) eqn:Hk; [|done].
      exfalso. apply Hin. apply list_elem_of_In, filter_In.
      apply bool_decide_eq_true in Hs. split; [by apply list_elem_of_In|].
      rewrite Ht. unfold same_kind in Hk. destruct (kind tr), k; done.
  - intros t Ht. rewrite enable_all_lookup, Ht. by case_bool_decide.
Qed.

Lemma toggle_spec_witness :
  let k := audio in
  let on := false in
  let s := ready in
  let m := manager_of ready in
  let stream := [0; 1]%nat in
  exists s',
    RTCManager.toggle k on s = Ok tt s' /\
    (forall t tr, tracks s !! t = Some tr ->
       tracks s' !! t =
         Some (if bool_decide (t ∈ stream) && same_kind (kind tr) k
               then with_enabled on tr else tr)) /\
    (forall t, tracks s !! t = None -> tracks s' !! t = None) /\
    trace s' = trace s /\
    rtcManager s' = rtcManager s /\
    activeCalls s' = activeCalls s.
Proof.
  cbv zeta.
  apply (toggle_spec audio false ready (manager_of ready) [0; 1]%nat);
    vm_compute; reflexivity.
Defined.

Lemma tracks_of_kind_enable k stream b l s :
  RTCManager.tracks_of_kind k stream
    (set_tracks (fun h => foldl (fun h t => alter (with_enabled b) t h) h l) s)
  = RTCManager.tracks_of_kind k stream s.
Proof.
  unfold RTCManager.tracks_of_kind. apply filter_ext. intros t. cbn.
  rewrite enable_all_lookup. case_bool_decide; [|done].
  by destruct (tracks s !! t).
Qed.

(** X16: Two toggles of the same kind in a row have the effect of the second one
    alone. *)
Theorem toggle_last_wins (k : TrackKind) (a b : bool) (s : State) :
  (RTCManager.toggle k a >> RTCManager.toggle k b) s = RTCManager.toggle k b s.
Proof.
  unfold bind at 1. unfold RTCManager.toggle at 1 3. unfold bind, RTCManager.this.
  destruct (rtcManager s) as [m|] eqn:Hm; [|done].
  destruct (localStream m) as [stream|] eqn:Hstream.
  - rewrite !for_each_set_enabled.
    unfold RTCManager.toggle, bind, RTCManager.this. cbn. rewrite Hm, Hstream.
    rewrite for_each_set_enabled, tracks_of_kind_enable. f_equal.
    unfold set_tracks; cbn. f_equal. apply map_eq. intros t.
    rewrite !enable_all_lookup. case_bool_decide; [|done].
    by destruct (tracks s !! t).
  - unfold ret, RTCManager.toggle, bind, RTCManager.this. by rewrite Hm, Hstream.
Qed.

(** X17: closePeerConnection is idempotent: calling it again for the same peer
    right away changes nothing and closes or stops nothing twice. *)
Theorem closePeerConnection_twice (peerId : string) (s : State) :
  (RTCManager.closePeerConnection peerId >> RTCManager.closePeerConnection peerId) s
  = RTCManager.closePeerConnection peerId s.
Proof.
  unfold bind at 1.
  destruct (rtcManager s) as [m|] eqn:Hm.
  - destruct (closePeerConnection_spec s peerId m Hm) as (s' & Hclose & _ & _ & Hm' & _).
    rewrite Hclose.
    destruct (closePeerConnection_spec s' peerId _ Hm') as (s'' & Hclose' & _).
    unfold RTCManager.closePeerConnection, bind, RTCManager.this.
    rewrite Hm', without_lookup. by case_decide.
  - unfold RTCManager.closePeerConnection, bind, RTCManager.this. by rewrite Hm.
Qed.

Lemma stopLocalStream_none (s : State) m :
  rtcManager s = Some m -> localStream m = None ->
  RTCManager.stopLocalStream s = Ok tt s.
Proof.
  intros Hm Hnone. unfold RTCManager.stopLocalStream, bind, RTCManager.this.
  by rewrite Hm, Hnone.
Qed.

(** X18: stopLocalStream is idempotent: the first call stops the tracks and sets
    the stream to null, the second finds no stream and does nothing. *)
Theorem stopLocalStream_twice (s : State) :
  (RTCManager.stopLocalStream >> RTCManager.stopLocalStream) s
  = RTCManager.stopLocalStream s.
Proof.
  unfold bind at 1.
  destruct (rtcManager s) as [m|] eqn:Hm.
  - destruct (localStream m) as [stream|] eqn:Hstream.
    + destruct (stopLocalStream_known s m stream Hm Hstream) as (s' & Hstop & _ & Hls).
      rewrite Hstop. destruct (rtcManager s') as [m'|] eqn:Hm'; [|done].
      injection Hls as Hls. by apply (stopLocalStream_none s' m').
    + by rewrite (stopLocalStream_none s m), (stopLocalStream_none s m).
  - unfold RTCManager.stopLocalStream, bind, RTCManager.this. by rewrite Hm.
Qed.

(** ** A connection opened after a close or after stopLocalStream *)

Lemma sender_tracks_new (s : State) m :
  rtcManager s = Some m ->
  sender_tracks (new_connection s) = default [] (localStream m).
Proof.
  intros Hm. unfold sender_tracks, new_connection. cbn. rewrite Hm. cbn.
  induction (default [] (localStream m)) as [|t l IH]; [done|]. cbn. by f_equal.
Qed.

(** X19: Closing one peer's connection stops the local tracks its senders share
    with the local stream; a connection created afterwards, for any peer, when
    the constructor succeeds, gets those same tracks as senders, all of them
    ended. *)
Theorem connection_after_close_is_dead E (s : State) (closing opening : string)
    (isInitiator : bool) m pc stream :
  rtcManager s = Some m ->
  localStream m = Some stream ->
  peerConnections m !! closing = Some pc ->
  sender_tracks pc = stream ->
  new_RTCPeerConnection E opening = Resolved tt ->
  exists s1 s2 pc',
    RTCManager.closePeerConnection closing s = Ok tt s1 /\
    RTCManager.createPeerConnection E opening isInitiator s1 = Ok pc' s2 /\
    connection_of s2 opening = Some pc' /\
    sender_tracks pc' = stream /\
    (forall t tr, t ∈ stream -> tracks s !! t = Some tr ->
       tracks s2 !! t = Some (RTCManager.end_track tr)).
Proof.
  intros Hm Hstream Hpc Hsenders Hnew.
  destruct (closePeerConnection_known s closing m pc Hm Hpc)
    as (s1 & Hclose & _ & Htracks1 & Hm1 & _).
  destruct (createPeerConnection_ok E s1 opening isInitiator _ Hm1 Hnew)
    as (s2 & Hcreate & _ & Hm2 & _ & Htracks2 & _).
  exists s1, s2, (new_connection s1). split; [done|]. split; [done|]. split; [|split].
  - unfold connection_of. rewrite Hm2. cbn. apply lookup_insert_eq.
  - rewrite (sender_tracks_new s1 _ Hm1). cbn. by rewrite Hstream.
  - intros t tr Hin Ht. rewrite Htracks2, Htracks1, stop_all_lookup, Hsenders.
    by rewrite bool_decide_eq_true_2, Ht.
Qed.

Lemma connection_after_close_is_dead_witness :
  let E := willing in
  let s := calling_bob in
  let closing := "bob" in
  let opening := "carol" in
  let isInitiator := true in
  let m := manager_of calling_bob in
  let pc := bob_connection in
  let stream := [0; 1]%nat in
  exists s1 s2 pc',
    RTCManager.closePeerConnection closing s = Ok tt s1 /\
    RTCManager.createPeerConnection E opening isInitiator s1 = Ok pc' s2 /\
    connection_of s2 opening = Some pc' /\
    sender_tracks pc' = stream /\
    (forall t tr, t ∈ stream -> tracks s !! t = Some tr ->
       tracks s2 !! t = Some (RTCManager.end_track tr)).
Proof.
  cbv zeta.
  apply (connection_after_close_is_dead willing calling_bob "bob" "carol" true
           (manager_of calling_bob) bob_connection [0; 1]%nat);
    vm_compute; reflexivity.
Defined.

(** X20: After stopLocalStream the local stream is null, so a connection created
    afterwards (the constructor succeeding) has no senders: no track is added to
    it. *)
Theorem connection_after_stopLocalStream_is_empty E (s : State) (peerId : string)
    (isInitiator : bool) m :
  rtcManager s = Some m ->
  new_RTCPeerConnection E peerId = Resolved tt ->
  exists s1 s2 pc,
    RTCManager.stopLocalStream s = Ok tt s1 /\
    RTCManager.createPeerConnection E peerId isInitiator s1 = Ok pc s2 /\
    connection_of s2 peerId = Some pc /\
    senders pc = [] /\
    trace s2 = trace s1 ++ [NewPeerConnection (next_handle s)] ++
      (if isInitiator then [CreateDataChannel (next_handle s) "signal"] else []).
Proof.
  intros Hm Hnew.
  assert (exists s1 m1, RTCManager.stopLocalStream s = Ok tt s1 /\
            rtcManager s1 = Some m1 /\ localStream m1 = None /\
            next_handle s1 = next_handle s) as (s1 & m1 & Hstop & Hm1 & Hls & Hn).
  { destruct (localStream m) as [stream|] eqn:Hstream.
    - unfold RTCManager.stopLocalStream, bind, RTCManager.this.
      rewrite Hm, Hstream, for_each_stop. unfold RTCManager.modify_this. cbn. rewrite Hm.
      eexists _, _. split; [reflexivity|]. by cbn.
    - exists s, m. by rewrite (stopLocalStream_none s m). }
  destruct (createPeerConnection_ok E s1 peerId isInitiator _ Hm1 Hnew)
    as (s2 & Hcreate & Ht2 & Hm2 & _).
  exists s1, s2, (new_connection s1). split; [done|]. split; [done|]. split; [|split].
  - unfold connection_of. rewrite Hm2. cbn. apply lookup_insert_eq.
  - unfold new_connection. cbn. by rewrite Hm1; cbn; rewrite Hls.
  - rewrite Ht2, Hls, Hn. done.
Qed.

Lemma connection_after_stopLocalStream_is_empty_witness :
  let E := willing in
  let s := ready in
  let peerId := "bob" in
  let isInitiator := true in
  let m := manager_of ready in
  exists s1 s2 pc,
    RTCManager.stopLocalStream s = Ok tt s1 /\
    RTCManager.createPeerConnection E peerId isInitiator s1 = Ok pc s2 /\
    connection_of s2 peerId = Some pc /\
    senders pc = [] /\
    trace s2 = trace s1 ++ [NewPeerConnection (next_handle s)] ++
      (if isInitiator then [CreateDataChannel (next_handle s) "signal"] else []).
Proof.
  cbv zeta.
  apply (connection_after_stopLocalStream_is_empty willing ready "bob" true
           (manager_of ready));
    vm_compute; reflexivity.
Defined.

Lemma onconnectionstatechange_steps (s : State) (peerId : string)
    (st : ConnectionState) (m : RTCManager) :
  rtcManager s = Some m ->
  (onConnectionStateChange (config s) ≫= fun f => f peerId st) = None ->
  exists s',
    RTCManager.onconnectionstatechange RTCSignaling.callbacks peerId st s = Ok tt s' /\
    trace s' = trace s ++
      match onConnectionStateChange (config s) with
      | Some _ => [Notify (OnConnectionStateChange peerId st)]
      | None => []
      end ++ (if is_failure st then closing_events m peerId else []) /\
    rtcManager s' = Some (if is_failure st then without peerId m else m) /\
    tracks s' = (if is_failure st
                 then stop_all (closing_tracks m peerId) (tracks s) else tracks s) /\
    activeCalls s' = activeCalls s /\
    sent (trace s') = sent (trace s) /\
    channel_open s' = channel_open s /\ now s' = now s.
Proof.
  intros Hm Hcb. unfold RTCManager.onconnectionstatechange.
  assert (exists s1,
    (RTCManager.logEvent "onconnectionstatechange"
       (peerId +:+ ": " +:+ RTCManager.connectionState_text st) "info" >>
     RTCManager.cb_onConnectionStateChange RTCSignaling.callbacks peerId st) s = Ok tt s1 /\
    trace s1 = trace s ++
      match onConnectionStateChange (config s) with
      | Some _ => [Notify (OnConnectionStateChange peerId st)]
      | None => []
      end /\
    rtcManager s1 = Some m /\ tracks s1 = tracks s /\ activeCalls s1 = activeCalls s /\
    channel_open s1 = channel_open s /\ now s1 = now s)
    as (s1 & Hrun & Ht1 & Hm1 & Htr1 & Hc1 & Ho1 & Hn1).
  { unfold bind, RTCManager.logEvent, RTCSignaling.callbacks. cbn.
    destruct (debug (config s)); cbn;
      (destruct (onConnectionStateChange (config s)) as [f|]; cbn in Hcb;
       cbn; rewrite ?Hcb; cbn;
       eexists; (split; [reflexivity|]); cbn; rewrite ?app_nil_r; done). }
  assert (forall k : unit -> M unit,
    (RTCManager.logEvent "onconnectionstatechange"
       (peerId +:+ ": " +:+ RTCManager.connectionState_text st) "info" >>
     RTCManager.cb_onConnectionStateChange RTCSignaling.callbacks peerId st >>
     k tt) s = k tt s1) as Hstep.
  { intros k. unfold bind at 1 2. unfold bind in Hrun.
    destruct (RTCManager.logEvent _ _ _ s) as [[] s0|e0 s0]; [|done].
    by rewrite Hrun. }
  destruct (closePeerConnection_spec s1 peerId m Hm1)
    as (s2 & Hclose & Ht2 & Htr2 & Hm2 & Hc2 & _).
  pose proof (closePeerConnection_no_send peerId s1) as Hs2. rewrite Hclose in Hs2.
  pose proof (closePeerConnection_env peerId s1) as Henv2. rewrite Hclose in Henv2.
  pose proof (same_env_channel_open _ _ Henv2) as Ho2. destruct Henv2 as (_&_&Hn2&_).
  cbn in Hs2, Ho2, Hn2. unfold no_send in Hs2.
  assert (sent (trace s1) = sent (trace s)) as Hsent1.
  { rewrite Ht1, sent_app. destruct (onConnectionStateChange (config s)); cbn;
      by rewrite app_nil_r. }
  assert (is_failure st = true ->
    exists s', RTCManager.closePeerConnection peerId s1 = Ok tt s' /\
      trace s' = trace s ++
        match onConnectionStateChange (config s) with
        | Some _ => [Notify (OnConnectionStateChange peerId st)]
        | None => []
        end ++ closing_events m peerId /\
      rtcManager s' = Some (without peerId m) /\
      tracks s' = stop_all (closing_tracks m peerId) (tracks s) /\
      activeCalls s' = activeCalls s /\
      sent (trace s') = sent (trace s) /\
      channel_open s' = channel_open s /\ now s' = now s) as Hfail.
  { intros _. exists s2. split; [done|].
    rewrite Hs2, Hsent1, Ht2, Ht1, Htr2, Htr1, Hc2, Hc1, Ho2, Ho1, Hn2, Hn1,
      <- ?app_assoc. done. }
  assert (is_failure st = false ->
    exists s', ret tt s1 = Ok tt s' /\
      trace s' = trace s ++
        match onConnectionStateChange (config s) with
        | Some _ => [Notify (OnConnectionStateChange peerId st)]
        | None => []
        end ++ [] /\
      rtcManager s' = Some m /\
      tracks s' = tracks s /\
      activeCalls s' = activeCalls s /\
      sent (trace s') = sent (trace s) /\
      channel_open s' = channel_open s /\ now s' = now s) as Hother.
  { intros _. exists s1. split; [done|]. by rewrite Hsent1, Ht1, app_nil_r. }
  destruct st; cbn [is_failure] in *;
    first [ rewrite (Hstep (fun _ => RTCManager.closePeerConnection peerId));
            by apply Hfail
          | rewrite (Hstep (fun _ => ret tt)); by apply Hother ].
Qed.

(** X21: A connection state change is reported to the configured callback. On an
    initialized coordinator, when the callback is absent or returns: on 'failed'
    or 'disconnected' the connection is then closed, its sender tracks stopped
    and its registrations removed, while the call record is kept and nothing is
    sent to the peer; on every other state nothing else changes. *)
Theorem onconnectionstatechange_spec (s : State) (peerId : string)
    (st : ConnectionState) (m : RTCManager) :
  rtcManager s = Some m ->
  (onConnectionStateChange (config s) ≫= fun f => f peerId st) = None ->
  exists s',
    RTCManager.onconnectionstatechange RTCSignaling.callbacks peerId st s = Ok tt s' /\
    trace s' = trace s ++
      match onConnectionStateChange (config s) with
      | Some _ => [Notify (OnConnectionStateChange peerId st)]
      | None => []
      end ++ (if is_failure st then closing_events m peerId else []) /\
    rtcManager s' = Some (if is_failure st then without peerId m else m) /\
    tracks s' = (if is_failure st
                 then stop_all (closing_tracks m peerId) (tracks s) else tracks s) /\
    activeCalls s' = activeCalls s /\
    sent (trace s') = sent (trace s) /\
    channel_open s' = channel_open s /\ now s' = now s.
Proof. intros. eapply onconnectionstatechange_steps; eassumption. Qed.

Lemma onconnectionstatechange_spec_witness :
  let s := with_config listening calling_bob in
  let peerId := "bob" in
  let st := cs_failed in
  let m := manager_of calling_bob in
  exists s',
    RTCManager.onconnectionstatechange RTCSignaling.callbacks peerId st s = Ok tt s' /\
    trace s' = trace s ++
      match onConnectionStateChange (config s) with
      | Some _ => [Notify (OnConnectionStateChange peerId st)]
      | None => []
      end ++ (if is_failure st then closing_events m peerId else []) /\
    rtcManager s' = Some (if is_failure st then without peerId m else m) /\
    tracks s' = (if is_failure st
                 then stop_all (closing_tracks m peerId) (tracks s) else tracks s) /\
    activeCalls s' = activeCalls s /\
    sent (trace s') = sent (trace s) /\
    channel_open s' = channel_open s /\ now s' = now s.
Proof.
  cbv zeta.
  apply (onconnectionstatechange_spec (with_config listening calling_bob) "bob" cs_failed
           (manager_of calling_bob));
    vm_compute; reflexivity.
Defined.

Lemma closing_events_without m peerId : closing_events (without peerId m) peerId = [].
Proof.
  unfold closing_events. rewrite without_lookup. by case_decide.
Qed.

(** X22: After a connection has failed or disconnected (state callback absent or
    returning) its call record is still there; an endCall that follows sends
    rtc:call-end and deletes the record, and closes or stops nothing a second
    time. *)
Theorem endCall_after_failure (s : State) (peerId : string) (st : ConnectionState)
    (call : Call) (m : RTCManager) :
  rtcManager s = Some m ->
  activeCalls s !! peerId = Some call ->
  is_failure st = true ->
  (onConnectionStateChange (config s) ≫= fun f => f peerId st) = None ->
  exists s1 s2,
    RTCManager.onconnectionstatechange RTCSignaling.callbacks peerId st s = Ok tt s1 /\
    connection_of s1 peerId = None /\
    activeCalls s1 !! peerId = Some call /\
    sent (trace s1) = sent (trace s) /\
    RTCSignaling.endCall peerId s1 = Ok tt s2 /\
    closed (trace s2) = closed (trace s1) /\
    stopped (trace s2) = stopped (trace s1) /\
    sent (trace s2) = sent (trace s1) ++
      (if channel_open s
       then [{| to := peerId;
                data := {| type := "rtc:call-end"; timestamp := now s;
                           payload := PCall (callId call) |} |}]
       else []) /\
    activeCalls s2 !! peerId = None.
Proof.
  intros Hm Hcall Hfail Hcb.
  destruct (onconnectionstatechange_steps s peerId st m Hm Hcb)
    as (s1 & Hev & _ & Hm1 & _ & Hc1 & Hsent1 & Ho1 & Hn1).
  rewrite Hfail in Hm1. rewrite <- Hc1 in Hcall.
  destruct (endCall_known s1 peerId call _ Hcall Hm1) as (s2 & Hend & Ht2 & _ & Hc2 & _).
  rewrite closing_events_without, app_nil_r, Ho1, Hn1 in Ht2.
  exists s1, s2. split; [done|]. split.
  { unfold connection_of. rewrite Hm1. cbn. rewrite without_lookup. by case_decide. }
  split; [done|]. split; [done|]. split; [done|].
  rewrite Ht2, closed_app, stopped_app, sent_app, Hc2, lookup_delete_eq.
  destruct (channel_open s); cbn; by rewrite ?app_nil_r.
Qed.

Lemma endCall_after_failure_witness :
  let s := calling_bob in
  let peerId := "bob" in
  let st := cs_disconnected in
  let call := bob_call in
  let m := manager_of calling_bob in
  exists s1 s2,
    RTCManager.onconnectionstatechange RTCSignaling.callbacks peerId st s = Ok tt s1 /\
    connection_of s1 peerId = None /\
    activeCalls s1 !! peerId = Some call /\
    sent (trace s1) = sent (trace s) /\
    RTCSignaling.endCall peerId s1 = Ok tt s2 /\
    closed (trace s2) = closed (trace s1) /\
    stopped (trace s2) = stopped (trace s1) /\
    sent (trace s2) = sent (trace s1) ++
      (if channel_open s
       then [{| to := peerId;
                data := {| type := "rtc:call-end"; timestamp := now s;
                           payload := PCall (callId call) |} |}]
       else []) /\
    activeCalls s2 !! peerId = None.
Proof.
  cbv zeta.
  apply (endCall_after_failure calling_bob "bob" cs_disconnected bob_call
           (manager_of calling_bob));
    vm_compute; reflexivity.
Defined.

(** X23: A local ICE candidate event that carries a candidate is forwarded as
    one rtc:ice-candidate message if the channel is open; the end-of-candidates
    event (null candidate) and a closed channel forward nothing. Registries,
    call records and tracks are unchanged. *)
Theorem onicecandidate_spec (s : State) (peerId : string) (c : option IceCandidateInit) :
  exists s',
    RTCManager.onicecandidate RTCSignaling.callbacks peerId c s = Ok tt s' /\
    trace s' = trace s ++
      match c with
      | Some init =>
          if channel_open s
          then [Send {| to := peerId;
                        data := {| type := "rtc:ice-candidate"; timestamp := now s;
                                   payload := PCandidate init |} |}]
          else []
      | None => []
      end /\
    rtcManager s' = rtcManager s /\
    activeCalls s' = activeCalls s /\
    tracks s' = tracks s.
Proof.
  unfold RTCManager.onicecandidate. destruct c as [init|].
  - unfold bind, RTCManager.logEvent, RTCSignaling.callbacks. cbn.
    assert ({| candidate := candidate init; sdpMLineIndex := sdpMLineIndex init;
               sdpMid := sdpMid init |} = init) as -> by (by destruct init).
    unfold RTCSignaling.sendSignalingMessage, channel_open, emit.
    destruct (debug (config s)); cbn;
      (destruct (nodeCrypt s) as [[[]]|]; cbn; eexists; (split; [reflexivity|]); cbn;
       rewrite ?app_nil_r; done).
  - exists s. by rewrite app_nil_r.
Qed.

(** ** destroy *)

Lemma stop_all_app l1 l2 h : stop_all (l1 ++ l2) h = stop_all l2 (stop_all l1 h).
Proof. unfold stop_all. apply foldl_app. Qed.

Lemma closing_events_other m x p :
  p <> x -> closing_events (without x m) p = closing_events m p.
Proof.
  intros Hne. unfold closing_events. rewrite without_lookup. by case_decide; [subst|].
Qed.

Lemma closing_tracks_other m x p :
  p <> x -> closing_tracks (without x m) p = closing_tracks m p.
Proof.
  intros Hne. unfold closing_tracks. rewrite without_lookup. by case_decide; [subst|].
Qed.

Lemma close_all (order : list string) (s : State) (m : RTCManager) :
  rtcManager s = Some m ->
  NoDup order ->
  exists s',
    for_each RTCManager.closePeerConnection order s = Ok tt s' /\
    trace s' = trace s ++ concat (closing_events m <$> order) /\
    tracks s' = stop_all (concat (closing_tracks m <$> order)) (tracks s) /\
    rtcManager s' = Some (foldl (fun m p => without p m) m order) /\
    activeCalls s' = activeCalls s.
Proof.
  revert s m. induction order as [|x order IH]; intros s m Hm Hnd.
  - exists s. cbn. by rewrite app_nil_r.
  - apply NoDup_cons in Hnd as [Hx Hnd].
    destruct (closePeerConnection_spec s x m Hm) as (s1 & Hclose & Ht1 & Htr1 & Hm1 & Hc1 & _).
    destruct (IH s1 _ Hm1 Hnd) as (s2 & Hrest & Ht2 & Htr2 & Hm2 & Hc2).
    exists s2. cbn [for_each]. unfold bind. rewrite Hclose. split; [done|].
    assert (closing_events (without x m) <$> order = closing_events m <$> order) as He.
    { apply list_fmap_ext. intros i p Hp. apply closing_events_other.
      intros ->. apply Hx. by eapply list_elem_of_lookup_2. }
    assert (closing_tracks (without x m) <$> order = closing_tracks m <$> order) as Hk.
    { apply list_fmap_ext. intros i p Hp. apply closing_tracks_other.
      intros ->. apply Hx. by eapply list_elem_of_lookup_2. }
    rewrite Ht2, Htr2, Ht1, Htr1, He, Hk, Hc2, Hc1, !fmap_cons.
    cbn [concat foldl]. by rewrite stop_all_app, <- app_assoc.
Qed.

Lemma closed_closing_all m order :
  closed (concat (closing_events m <$> order))
  = omap (fun p => handle <$> peerConnections m !! p) order.
Proof.
  induction order as [|p order IH]; [done|].
  rewrite fmap_cons. cbn [concat omap list_omap]. rewrite closed_app, closed_closing, IH.
  by destruct (peerConnections m !! p).
Qed.

Lemma sent_closing_all m order : sent (concat (closing_events m <$> order)) = [].
Proof.
  induction order as [|p order IH]; [done|].
  rewrite fmap_cons. cbn [concat]. by rewrite sent_app, sent_closing, IH.
Qed.

Lemma stop_all_ended ts h t tr :
  h !! t = Some tr -> t ∈ ts -> stop_all ts h !! t = Some (RTCManager.end_track tr).
Proof. intros Ht Hin. by rewrite stop_all_lookup, bool_decide_eq_true_2, Ht. Qed.

Lemma stop_all_kept ts h t tr :
  h !! t = Some tr -> readyState tr = ended ->
  stop_all ts h !! t = Some tr.
Proof.
  intros Ht He. rewrite stop_all_lookup, Ht. case_bool_decide; [|done].
  cbn. f_equal. destruct tr; cbn in *. by subst.
Qed.

Lemma elem_of_concat {A} (x : A) (ls : list (list A)) :
  x ∈ concat ls <-> exists l, l ∈ ls /\ x ∈ l.
Proof.
  rewrite list_elem_of_In, in_concat. split; intros (l & H1 & H2); exists l;
    by rewrite ?list_elem_of_In in *.
Qed.

Lemma localStream_without_all order m :
  localStream (foldl (fun m p => without p m) m order) = localStream m.
Proof.
  revert m. induction order as [|p order IH]; intros m; [done|].
  cbn [foldl]. rewrite IH. unfold without. by destruct (peerConnections m !! p).
Qed.

Lemma manager_destroy_steps (s : State) (order : list string) (m : RTCManager) :
  rtcManager s = Some m ->
  NoDup order ->
  (forall p, is_Some (peerConnections m !! p) -> p ∈ order) ->
  exists s',
    RTCManager.destroy order s = Ok tt s' /\
    rtcManager s' = Some RTCManager.constructor /\
    closed (trace s') = closed (trace s)
      ++ omap (fun p => handle <$> peerConnections m !! p) order /\
    (forall p pc, peerConnections m !! p = Some pc -> handle pc ∈ closed (trace s')) /\
    (forall t tr, tracks s !! t = Some tr ->
       t ∈ default [] (localStream m) \/
       (exists p pc, peerConnections m !! p = Some pc /\ t ∈ sender_tracks pc) ->
       tracks s' !! t = Some (RTCManager.end_track tr)) /\
    sent (trace s') = sent (trace s) /\
    activeCalls s' = activeCalls s.
Proof.
  intros Hm Hnd Hcover.
  assert (exists s1 m1, RTCManager.stopLocalStream s = Ok tt s1 /\
            rtcManager s1 = Some m1 /\ peerConnections m1 = peerConnections m /\
            localStream m1 = None /\
            trace s1 = trace s ++ (TrackStop <$> default [] (localStream m)) /\
            tracks s1 = stop_all (default [] (localStream m)) (tracks s) /\
            activeCalls s1 = activeCalls s)
    as (s1 & m1 & Hstop & Hm1 & Hpcs & Hls & Ht1 & Htr1 & Hc1).
  { destruct (localStream m) as [stream|] eqn:Hstream.
    - unfold RTCManager.stopLocalStream, bind, RTCManager.this.
      rewrite Hm, Hstream, for_each_stop. unfold RTCManager.modify_this. cbn. rewrite Hm.
      eexists _, _. split; [reflexivity|]. by cbn.
    - exists s, m. rewrite (stopLocalStream_none s m) by done. cbn.
      by rewrite app_nil_r. }
  destruct (close_all order s1 m1 Hm1 Hnd) as (s2 & Hall & Ht2 & Htr2 & Hm2 & Hc2).
  assert (closing_events m1 <$> order = closing_events m <$> order) as He.
  { apply list_fmap_ext. intros i p _. unfold closing_events. by rewrite Hpcs. }
  assert (closing_tracks m1 <$> order = closing_tracks m <$> order) as Hk.
  { apply list_fmap_ext. intros i p _. unfold closing_tracks. by rewrite Hpcs. }
  rewrite He in Ht2. rewrite Hk in Htr2.
  assert (closed (trace s2) = closed (trace s)
            ++ omap (fun p => handle <$> peerConnections m !! p) order) as Hclosed.
  { rewrite Ht2, Ht1, !closed_app, closed_stops, closed_closing_all. by rewrite app_nil_r. }
  eexists. split.
  { unfold RTCManager.destroy. unfold bind at 1. rewrite Hstop.
    unfold bind at 1. rewrite Hall.
    unfold bind, RTCManager.modify_this. cbn. rewrite Hm2. cbn. reflexivity. }
  cbn [rtcManager trace tracks activeCalls set_rtcManager]. split.
  { unfold RTCManager.constructor, RTCManager.set_dataChannels,
      RTCManager.set_peerConnections. cbn.
    by rewrite localStream_without_all, Hls. }
  split; [done|]. split; [|split; [|split]].
  - intros p pc Hpc. rewrite Hclosed. apply elem_of_app. right.
    apply list_elem_of_omap. exists p. split; [apply Hcover; eauto|]. by rewrite Hpc.
  - intros t tr Ht Hwhere. rewrite Htr2, Htr1.
    destruct (decide (t ∈ default [] (localStream m))) as [Hin|Hout].
    + apply stop_all_kept; [by apply stop_all_ended|done].
    + destruct Hwhere as [?|(p & pc & Hpc & Hin)]; [done|].
      apply stop_all_ended.
      * by rewrite stop_all_lookup, bool_decide_eq_false_2.
      * apply elem_of_concat. exists (closing_tracks m p). split.
        { apply list_elem_of_fmap. exists p. split; [done|]. apply Hcover. eauto. }
        unfold closing_tracks. by rewrite Hpc.
  - rewrite Ht2, Ht1, !sent_app, sent_stops, sent_closing_all. by rewrite !app_nil_r.
  - by rewrite Hc2, Hc1.
Qed.

(** X24: RTCManager.destroy closes every registered connection, in iteration
    order, ends every track of the local stream and of the connections' senders,
    and leaves the manager as freshly constructed (empty registries, no stream);
    it sends nothing and leaves the call records alone. *)
Theorem manager_destroy_releases (s : State) (order : list string) (m : RTCManager) :
  rtcManager s = Some m ->
  NoDup order ->
  (forall p, is_Some (peerConnections m !! p) -> p ∈ order) ->
  exists s',
    RTCManager.destroy order s = Ok tt s' /\
    rtcManager s' = Some RTCManager.constructor /\
    closed (trace s') = closed (trace s)
      ++ omap (fun p => handle <$> peerConnections m !! p) order /\
    (forall p pc, peerConnections m !! p = Some pc -> handle pc ∈ closed (trace s')) /\
    (forall t tr, tracks s !! t = Some tr ->
       t ∈ default [] (localStream m) \/
       (exists p pc, peerConnections m !! p = Some pc /\ t ∈ sender_tracks pc) ->
       tracks s' !! t = Some (RTCManager.end_track tr)) /\
    sent (trace s') = sent (trace s) /\
    activeCalls s' = activeCalls s.
Proof. intros. eapply manager_destroy_steps; eassumption. Qed.

Lemma manager_destroy_releases_witness :
  let s := calling_both in
  let order := ["bob"; "carol"] in
  let m := manager_of calling_both in
  exists s',
    RTCManager.destroy order s = Ok tt s' /\
    rtcManager s' = Some RTCManager.constructor /\
    closed (trace s') = closed (trace s)
      ++ omap (fun p => handle <$> peerConnections m !! p) order /\
    (forall p pc, peerConnections m !! p = Some pc -> handle pc ∈ closed (trace s')) /\
    (forall t tr, tracks s !! t = Some tr ->
       t ∈ default [] (localStream m) \/
       (exists p pc, peerConnections m !! p = Some pc /\ t ∈ sender_tracks pc) ->
       tracks s' !! t = Some (RTCManager.end_track tr)) /\
    sent (trace s') = sent (trace s) /\
    activeCalls s' = activeCalls s.
Proof.
  cbv zeta.
  apply (manager_destroy_releases calling_both ["bob"; "carol"] (manager_of calling_both)).
  - vm_compute. reflexivity.
  - apply (bool_decide_unpack _). vm_compute. exact I.
  - apply registry_listed. vm_compute. reflexivity.
Defined.

Lemma endCall_env peerId : keeps same_env (RTCSignaling.endCall peerId).
Proof.
  apply keeps_endCall; [apply _..| | | |].
  - intros call. frame env_leaf.
  - apply closePeerConnection_env.
  - intros s. env_leaf.
  - intros a b c. frame env_leaf.
Qed.

(** [endCall] on a state with a manager, record or no record. *)
Lemma endCall_total (s : State) (peerId : string) (m : RTCManager) :
  rtcManager s = Some m ->
  exists s',
    RTCSignaling.endCall peerId s = Ok tt s' /\
    trace s' = trace s ++ call_end_events s peerId /\
    tracks s' = stop_all (match activeCalls s !! peerId with
                          | Some _ => closing_tracks m peerId
                          | None => []
                          end) (tracks s) /\
    activeCalls s' = delete peerId (activeCalls s) /\
    rtcManager s' = Some (match activeCalls s !! peerId with
                          | Some _ => without peerId m
                          | None => m
                          end) /\
    channel_open s' = channel_open s /\ now s' = now s.
Proof.
  intros Hm. unfold call_end_events. rewrite Hm.
  pose proof (endCall_env peerId s) as Henv.
  destruct (activeCalls s !! peerId) as [call|] eqn:Hcall.
  - destruct (endCall_known s peerId call m Hcall Hm) as (s' & Hend & Ht & Htr & Hc & Hm').
    rewrite Hend in Henv. exists s'. split; [done|].
    pose proof (same_env_channel_open _ _ Henv). destruct Henv as (_&_&Hn&_). done.
  - exists s. rewrite endCall_unknown by done. rewrite app_nil_r.
    repeat split; try done. by rewrite delete_id.
Qed.

Lemma without_all_lookup (l : list string) (m : RTCManager) (p : string) :
  peerConnections (foldl (fun m p => without p m) m l) !! p =
  if bool_decide (p ∈ l) then None else peerConnections m !! p.
Proof.
  revert m. induction l as [|x l IH]; intros m; [done|].
  cbn [foldl]. rewrite IH, without_lookup.
  destruct (decide (x = p)) as [->|Hne].
  - rewrite (bool_decide_eq_true_2 (p ∈ p :: l)) by apply list_elem_of_here.
    by case_bool_decide.
  - rewrite (bool_decide_ext (p ∈ x :: l) (p ∈ l)); [done|].
    rewrite elem_of_cons. split; [intros [Heq|Hin]; [by subst|done]|by right].
Qed.

Lemma delete_all_lookup {A} (l : list string) (a : gmap string A) (p : string) :
  foldl (fun a p => delete p a) a l !! p =
  if bool_decide (p ∈ l) then None else a !! p.
Proof.
  revert a. induction l as [|x l IH]; intros a; [done|].
  cbn [foldl]. rewrite IH, lookup_delete.
  destruct (decide (x = p)) as [->|Hne].
  - rewrite (bool_decide_eq_true_2 (p ∈ p :: l)) by apply list_elem_of_here.
    by case_bool_decide.
  - rewrite (bool_decide_ext (p ∈ x :: l) (p ∈ l)); [done|].
    rewrite elem_of_cons. split; [intros [Heq|Hin]; [by subst|done]|by right].
Qed.

Lemma end_all (calls : list string) (s : State) (m : RTCManager) :
  rtcManager s = Some m ->
  NoDup calls ->
  (forall p, p ∈ calls -> is_Some (activeCalls s !! p)) ->
  exists s',
    for_each RTCSignaling.endCall calls s = Ok tt s' /\
    trace s' = trace s ++ concat (call_end_events s <$> calls) /\
    tracks s' = stop_all (concat (closing_tracks m <$> calls)) (tracks s) /\
    activeCalls s' = foldl (fun a p => delete p a) (activeCalls s) calls /\
    rtcManager s' = Some (foldl (fun m p => without p m) m calls) /\
    channel_open s' = channel_open s /\ now s' = now s.
Proof.
  revert s m. induction calls as [|x calls IH]; intros s m Hm Hnd Hrec.
  - exists s. cbn. by rewrite app_nil_r.
  - apply NoDup_cons in Hnd as [Hx Hnd].
    destruct (endCall_total s x m Hm) as (s1 & Hend & Ht1 & Htr1 & Hc1 & Hm1 & Ho1 & Hn1).
    destruct (Hrec x) as [call Hcall]; [apply list_elem_of_here|].
    rewrite Hcall in Htr1, Hm1.
    assert (forall p, p ∈ calls -> p <> x) as Hne.
    { intros p Hp ->. done. }
    destruct (IH s1 _ Hm1 Hnd) as (s2 & Hrest & Ht2 & Htr2 & Hc2 & Hm2 & Ho2 & Hn2).
    { intros p Hp. rewrite Hc1, lookup_delete_ne by (apply not_eq_sym; auto).
      apply Hrec. by apply list_elem_of_further. }
    exists s2. cbn [for_each]. unfold bind. rewrite Hend. split; [done|].
    assert (call_end_events s1 <$> calls = call_end_events s <$> calls) as He.
    { apply list_fmap_ext. intros i p Hp. apply list_elem_of_lookup_2 in Hp.
      unfold call_end_events.
      rewrite Hc1, lookup_delete_ne, Ho1, Hn1, Hm1, Hm by (apply not_eq_sym; auto).
      by rewrite closing_events_other by auto. }
    assert (closing_tracks (without x m) <$> calls = closing_tracks m <$> calls) as Hk.
    { apply list_fmap_ext. intros i p Hp. apply closing_tracks_other.
      apply Hne. by eapply list_elem_of_lookup_2. }
    rewrite Ht2, Htr2, Ht1, Htr1, He, Hk, Hc2, Hc1, Hm2, Ho2, Ho1, Hn2, Hn1, !fmap_cons.
    cbn [concat foldl]. by rewrite stop_all_app, <- app_assoc.
Qed.

Lemma sent_call_end_all s calls :
  is_Some (rtcManager s) ->
  sent (concat (call_end_events s <$> calls)) =
  if channel_open s then call_end_envelopes s calls else [].
Proof.
  intros [m Hm]. unfold call_end_envelopes.
  induction calls as [|p calls IH].
  - by destruct (channel_open s).
  - rewrite fmap_cons. cbn [concat omap list_omap]. rewrite sent_app, IH.
    unfold call_end_events. rewrite Hm.
    destruct (activeCalls s !! p) as [call|]; cbn.
    + rewrite sent_app, sent_closing. by destruct (channel_open s).
    + by destruct (channel_open s).
Qed.

Lemma closed_concat_elem {A} (f : A -> list Event) (l : list A) (p : A) (h : nat) :
  p ∈ l -> h ∈ closed (f p) -> h ∈ closed (concat (f <$> l)).
Proof.
  intros Hp Hh. induction l as [|x l IH]; [by apply elem_of_nil in Hp|].
  rewrite fmap_cons. cbn [concat]. rewrite closed_app. apply elem_of_app.
  apply elem_of_cons in Hp as [->|Hp]; [by left|right; auto].
Qed.

Lemma ended_stays_is_ended s s' t :
  ended_stays s s' -> is_ended s t -> is_ended s' t.
Proof.
  unfold is_ended. intros Hk He.
  destruct (tracks s !! t) as [tr|] eqn:Ht; [|done].
  destruct (Hk t tr Ht) as (tr' & -> & _ & Hend). cbn in *.
  f_equal. apply Hend. by injection He.
Qed.

(** X25: On an initialized coordinator RTCSignaling.destroy sends one rtc:call-
    end per call record, in iteration order, if the channel is open, leaves no
    call record, closes every registered connection, including those that have
    no record, ends every local and sender track, and leaves the manager as
    freshly constructed. *)
Theorem destroy_releases (s : State) (calls order : list string) (m : RTCManager) :
  rtcManager s = Some m ->
  NoDup calls -> NoDup order ->
  (forall p, p ∈ calls <-> is_Some (activeCalls s !! p)) ->
  (forall p, p ∈ order <->
             is_Some (peerConnections m !! p) /\ activeCalls s !! p = None) ->
  exists s',
    RTCSignaling.destroy calls order s = Ok tt s' /\
    activeCalls s' = ∅ /\
    rtcManager s' = Some RTCManager.constructor /\
    sent (trace s') = sent (trace s) ++
      (if channel_open s then call_end_envelopes s calls else []) /\
    (forall p pc, peerConnections m !! p = Some pc -> handle pc ∈ closed (trace s')) /\
    (forall t, is_Some (tracks s !! t) ->
       t ∈ default [] (localStream m) \/
       (exists p pc, peerConnections m !! p = Some pc /\ t ∈ sender_tracks pc) ->
       is_ended s' t).
Proof.
  intros Hm Hndc Hndo Hcalls Horder.
  destruct (end_all calls s m Hm Hndc) as (s1 & Hend & Ht1 & Htr1 & Hc1 & Hm1 & Ho1 & Hn1).
  { intros p Hp. by apply Hcalls. }
  set (m1 := foldl (fun m p => without p m) m calls) in *.
  assert (forall p, is_Some (peerConnections m1 !! p) -> p ∈ order) as Hcover.
  { intros p. subst m1. rewrite without_all_lookup. case_bool_decide as Hin.
    - by intros [? ?].
    - intros Hp. apply Horder. split; [done|].
      destruct (activeCalls s !! p) eqn:Hrec; [|done].
      exfalso. apply Hin, Hcalls. eauto. }
  destruct (manager_destroy_steps s1 order m1 Hm1 Hndo Hcover)
    as (s2 & Hdestroy & Hm2 & Hclosed2 & Hall2 & Hended2 & Hsent2 & Hc2).
  exists s2. split.
  { unfold RTCSignaling.destroy, bind. rewrite Hend.
    unfold RTCSignaling.on_rtcManager. by rewrite Hm1. }
  split.
  { rewrite Hc2, Hc1. apply map_eq. intros p.
    rewrite delete_all_lookup, lookup_empty. case_bool_decide as Hin; [done|].
    destruct (activeCalls s !! p) eqn:Hrec; [|done].
    exfalso. apply Hin, Hcalls. eauto. }
  split; [done|]. split.
  { rewrite Hsent2, Ht1, sent_app, sent_call_end_all by eauto. done. }
  split.
  - intros p pc Hpc. destruct (decide (p ∈ calls)) as [Hin|Hout].
    + rewrite Hclosed2, Ht1, closed_app. apply elem_of_app. left. apply elem_of_app. right.
      destruct (proj1 (Hcalls p) Hin) as [call Hcall].
      apply (closed_concat_elem _ _ p); [done|].
      unfold call_end_events. rewrite Hcall, Hm.
      rewrite closed_app, closed_closing, Hpc. cbn.
      apply elem_of_app. right. apply list_elem_of_here.
    + apply (Hall2 p pc). subst m1. rewrite without_all_lookup.
      by rewrite bool_decide_eq_false_2.
  - intros t [tr Ht] Hwhere.
    assert (exists tr1, tracks s1 !! t = Some tr1) as [tr1 Ht1'].
    { rewrite Htr1, stop_all_lookup, Ht. case_bool_decide; eauto. }
    assert (localStream m1 = localStream m) as Hls by apply localStream_without_all.
    destruct (decide (t ∈ default [] (localStream m))) as [Hin|Hout].
    { unfold is_ended. rewrite (Hended2 t tr1 Ht1'); [done|]. left. by rewrite Hls. }
    destruct Hwhere as [?|(p & pc & Hpc & Hsender)]; [done|].
    destruct (decide (p ∈ calls)) as [Hcall|Hnocall].
    + apply (ended_stays_is_ended s1).
      { pose proof (manager_destroy_ended order s1) as Hk. by rewrite Hdestroy in Hk. }
      unfold is_ended. rewrite Htr1, stop_all_lookup, Ht.
      rewrite bool_decide_eq_true_2; [done|].
      apply elem_of_concat. exists (closing_tracks m p). split.
      * apply list_elem_of_fmap. by exists p.
      * unfold closing_tracks. by rewrite Hpc.
    + unfold is_ended. rewrite (Hended2 t tr1 Ht1'); [done|]. right.
      exists p, pc. split; [|done]. subst m1. rewrite without_all_lookup.
      by rewrite bool_decide_eq_false_2.
Qed.

Lemma destroy_releases_witness :
  let s := offered_by_dave in
  let calls := ["bob"] in
  let order := ["dave"] in
  let m := manager_of offered_by_dave in
  exists s',
    RTCSignaling.destroy calls order s = Ok tt s' /\
    activeCalls s' = ∅ /\
    rtcManager s' = Some RTCManager.constructor /\
    sent (trace s') = sent (trace s) ++
      (if channel_open s then call_end_envelopes s calls else []) /\
    (forall p pc, peerConnections m !! p = Some pc -> handle pc ∈ closed (trace s')) /\
    (forall t, is_Some (tracks s !! t) ->
       t ∈ default [] (localStream m) \/
       (exists p pc, peerConnections m !! p = Some pc /\ t ∈ sender_tracks pc) ->
       is_ended s' t).
Proof.
  cbv zeta.
  apply (destroy_releases offered_by_dave ["bob"] ["dave"] (manager_of offered_by_dave)).
  - vm_compute. reflexivity.
  - apply (bool_decide_unpack _). vm_compute. exact I.
  - apply (bool_decide_unpack _). vm_compute. exact I.
  - apply calls_listed. vm_compute. reflexivity.
  - apply orphans_listed. vm_compute. reflexivity.
Defined.

Lemma run_keeps (R : relation State) `{!Reflexive R} `{!Transitive R} E :
  (forall a s, R s (perform E a s)) ->
  forall actions s, R s (run E actions s).
Proof.
  intros Hstep actions. induction actions as [|a actions IH]; intros s; cbn.
  - reflexivity.
  - etrans; [apply Hstep|apply IH].
Qed.

Lemma keeps_final {A} (R : relation State) (m : M A) :
  keeps R m -> forall s, R s (final (m s)).
Proof. intros Hk. exact Hk. Qed.

#[global] Instance keeps_connecting_refl : Reflexive keeps_connecting.
Proof. intros s H. exact H. Qed.

#[global] Instance keeps_connecting_trans : Transitive keeps_connecting.
Proof. intros s1 s2 s3 H1 H2 H. auto. Qed.

Ltac connecting_leaf :=
  let Hinv := fresh "Hinv_k" in
  let p := fresh "peer_k" in
  let c := fresh "call_k" in
  let Hc := fresh "Hc_k" in
  unfold keeps_connecting, all_connecting; intros Hinv p c; cbn; intros Hc;
  first
    [ exact (Hinv _ _ Hc)
    | match type of Hc with
      | delete ?x _ !! _ = _ =>
          destruct (decide (x = p)) as [->|];
          [by rewrite lookup_delete_eq in Hc
          |rewrite lookup_delete_ne in Hc by done; exact (Hinv _ _ Hc)]
      | <[?x:=_]> _ !! _ = _ =>
          destruct (decide (x = p)) as [->|];
          [rewrite lookup_insert_eq in Hc; by simplify_eq
          |rewrite lookup_insert_ne in Hc by done; exact (Hinv _ _ Hc)]
      | ∅ !! _ = _ => by rewrite lookup_empty in Hc
      end ].

Lemma new_tracks_connecting kinds : keeps keeps_connecting (RTCManager.new_tracks kinds).
Proof.
  induction kinds as [|k kinds IH]; cbn [RTCManager.new_tracks]; frame connecting_leaf.
  apply IH.
Qed.

Ltac unfold_methods :=
  unfold RTCSignaling.initialize, RTCSignaling.initiateCall, RTCSignaling.acceptCall,
    RTCSignaling.rejectCall, RTCSignaling.handleOffer, RTCSignaling.handleAnswer,
    RTCSignaling.handleIceCandidate, RTCSignaling.handleCallRequest,
    RTCSignaling.handleCallAccept, RTCSignaling.handleCallReject,
    RTCSignaling.handleCallEnd, RTCSignaling.toggleAudio, RTCSignaling.toggleVideo,
    RTCSignaling.destroy, RTCManager.initLocalStream, RTCManager.createPeerConnection,
    RTCManager.createOffer, RTCManager.handleOffer, RTCManager.handleAnswer,
    RTCManager.addIceCandidate, RTCManager.closePeerConnection,
    RTCManager.stopLocalStream, RTCManager.toggleAudio, RTCManager.toggleVideo,
    RTCManager.onconnectionstatechange, RTCManager.onicecandidate,
    RTCManager.ondatachannel, RTCManager.dc_onclose, RTCManager.destroy.

(** Walk a method and the methods it calls; [tac] closes the leaves,
    [lem] is the frame of [new_tracks]. *)
Ltac deep tac lem :=
  repeat first
    [ apply lem
    | apply keeps_endCall
    | apply keeps_toggle
    | match goal with
      | |- _ _ (set_activeCalls _ _) => solve [tac]
      | |- keeps _ (RTCManager.set_enabled _ _) =>
          solve [intros ?s; unfold RTCManager.set_enabled; tac]
      end
    | progress unfold_methods
    | progress (frame tac) ].

Ltac builtin tac lem :=
  unfold RTCSignaling.messageHandlers;
  rewrite !lookup_insert, lookup_empty;
  repeat case_decide; intros; simplify_eq; deep tac lem.

Ltac perform_keeps tac lem Hbuiltin :=
  match goal with
  | |- _ _ (perform _ ?a _) => destruct a; cbn [perform]
  end;
  try (apply keeps_final);
  [ deep tac lem | deep tac lem | deep tac lem | deep tac lem | deep tac lem
  | unfold RTCSignaling.handleSignalingMessage;
    match goal with
    | |- context [RTCSignaling.messageHandlers ?E !! ?k] =>
        let Hh := fresh "Hh" in
        destruct (RTCSignaling.messageHandlers E !! k) eqn:Hh;
        [apply keeps_try_catch;
           [apply _|by eapply Hbuiltin|intros ?; deep tac lem]
        |apply keeps_ret; apply _]
    end
  | deep tac lem | deep tac lem | deep tac lem | deep tac lem | deep tac lem
  | deep tac lem | deep tac lem | ].

(** ** Nothing is written to the console while [debug] is off *)

Lemma new_tracks_quiet kinds : keeps quiet (RTCManager.new_tracks kinds).
Proof.
  intros s. destruct (new_tracks_spec kinds s)
    as (s' & -> & _ & _ & _ & _ & _ & _ & Hco & Hcf).
  cbn. split; [done|]. intros _. done.
Qed.

Lemma builtin_quiet E peerId message handler :
  RTCSignaling.messageHandlers E !! type message = Some handler ->
  keeps quiet (handler peerId message).
Proof. builtin quiet_leaf new_tracks_quiet. Qed.

Lemma perform_quiet E a s : quiet s (perform E a s).
Proof.
  perform_keeps quiet_leaf new_tracks_quiet builtin_quiet.
  split; [done|]. by intros _.
Qed.

(** X26: With debug off nothing is ever written to the console, and the
    configuration is never changed, over any sequence of interface calls, built-
    in inbound messages, engine events and clock ticks. *)
Theorem silent_without_debug E actions s :
  debug (config s) = false ->
  console (run E actions s) = console s /\
  config (run E actions s) = config s.
Proof.
  intros Hd. destruct (run_keeps quiet E (perform_quiet E) actions s) as [Hc Hq].
  split; [by apply Hq|done].
Qed.

Lemma silent_without_debug_witness :
  let E := willing in
  let actions := a_day in
  let s := calling_both in
  console (run E actions s) = console s /\
  config (run E actions s) = config s.
Proof.
  cbv zeta.
  apply (silent_without_debug willing a_day calling_both).
  reflexivity.
Defined.

#[global] Instance grows_refl : Reflexive grows.
Proof.
  intros s. split; [done|]. split; [by left|].
  intros t tr _ Ht. by exists tr.
Qed.

#[global] Instance grows_trans : Transitive grows.
Proof.
  intros s1 s2 s3 (Hn1 & Hd1 & He1) (Hn2 & Hd2 & He2).
  split; [lia|]. split.
  - intros t Ht. destruct (Hd2 t Ht) as [H2|H2]; [|right; lia].
    destruct (Hd1 t H2) as [H1|H1]; [by left|right; lia].
  - intros t tr Hlt Ht.
    destruct (He1 t tr Hlt Ht) as (tr2 & Ht2 & Hk2 & Hr2).
    destruct (He2 t tr2 ltac:(lia) Ht2) as (tr3 & Ht3 & Hk3 & Hr3).
    exists tr3. split; [done|]. split; [congruence|]. auto.
Qed.

Ltac grows_leaf :=
  let t := fresh "t_k" in
  let tr := fresh "tr_k" in
  let Ht := fresh "Ht_k" in
  let Hlt := fresh "Hlt_k" in
  unfold grows; cbn; split; [lia|]; split;
  [ intros t Ht; left;
    try (match type of Ht with
         | context [alter ?f ?x _ !! _] =>
             destruct (decide (x = t)) as [->|];
             [rewrite lookup_alter_eq in Ht; by apply fmap_is_Some in Ht
             |by rewrite lookup_alter_ne in Ht by done]
         end); exact Ht
  | intros t tr Hlt Ht;
    try (eexists; split; [exact Ht|]; split; done);
    match goal with
    | |- context [alter ?f ?x _ !! t] =>
        destruct (decide (x = t)) as [->|];
        [rewrite lookup_alter_eq, Ht; cbn; eexists; split; [reflexivity|]; split; done
        |rewrite lookup_alter_ne by done; eexists; split; [exact Ht|]; split; done]
    end ].

Lemma new_tracks_dom kinds s t :
  is_Some (tracks (final (RTCManager.new_tracks kinds s)) !! t) ->
  is_Some (tracks s !! t) \/
  (next_handle s <= t < next_handle s + length kinds)%nat.
Proof.
  revert s. induction kinds as [|k kinds IH]; intros s; [by left|].
  cbn [RTCManager.new_tracks]. unfold bind at 1. unfold fresh_handle.
  unfold bind at 1.
  set (s1 := set_tracks <[next_handle s := {| kind := k; enabled := true;
                                             readyState := live |}]>
               (set_next_handle (S (next_handle s)) s)).
  destruct (new_tracks_spec kinds s1) as (s' & Hnew & _).
  unfold bind. pose proof (IH s1) as IH1. rewrite Hnew in IH1 |- *. cbn in *.
  intros Ht. destruct (IH1 Ht) as [H1|H1]; [|right; lia].
  destruct (decide (next_handle s = t)) as [<-|Hne]; [right; lia|].
  left. by rewrite lookup_insert_ne in H1.
Qed.

Lemma new_tracks_grows kinds : keeps grows (RTCManager.new_tracks kinds).
Proof.
  intros s. pose proof (new_tracks_dom kinds s) as Hdom.
  destruct (new_tracks_spec kinds s) as (s' & Hnew & Hn & _ & Hout & _).
  rewrite Hnew in Hdom |- *. cbn in *.
  split; [lia|]. split.
  - intros t Ht. destruct (Hdom t Ht); [by left|right; lia].
  - intros t tr Hlt Ht. exists tr. by rewrite Hout.
Qed.

Lemma builtin_grows E peerId message handler :
  RTCSignaling.messageHandlers E !! type message = Some handler ->
  keeps grows (handler peerId message).
Proof. builtin grows_leaf new_tracks_grows. Qed.

Lemma perform_grows E a s : grows s (perform E a s).
Proof.
  perform_keeps grows_leaf new_tracks_grows builtin_grows.
  unfold at_time. grows_leaf.
Qed.

(** X27: A stopped track is never restarted: from a state whose track objects
    all sit below the next free handle, over any sequence of operations, a
    second initialize included, a track that has ended stays ended and keeps its
    kind. *)
Theorem ended_track_never_revives E actions s t tr :
  fresh_tracks s ->
  tracks s !! t = Some tr -> readyState tr = ended ->
  exists tr', tracks (run E actions s) !! t = Some tr' /\
    kind tr' = kind tr /\ readyState tr' = ended.
Proof.
  intros Hf Ht Hr.
  destruct (run_keeps grows E (perform_grows E) actions s) as (_ & _ & He).
  destruct (He t tr (Hf t (mk_is_Some _ _ Ht)) Ht) as (tr' & Ht' & Hk & Hr').
  exists tr'. auto.
Qed.

Lemma ended_track_never_revives_witness :
  let E := willing in
  let actions := a_day in
  let s := hung_up in
  let t := 0%nat in
  let tr := {| kind := audio; enabled := true; readyState := ended |} in
  exists tr', tracks (run E actions s) !! t = Some tr' /\
    kind tr' = kind tr /\ readyState tr' = ended.
Proof.
  cbv zeta.
  apply (ended_track_never_revives willing a_day hung_up 0%nat
           {| kind := audio; enabled := true; readyState := ended |}).
  - apply fresh_tracks_check. vm_compute. reflexivity.
  - vm_compute. reflexivity.
  - reflexivity.
Defined.

(** ** Every call record reads 'connecting' *)

Lemma builtin_connecting E peerId message handler :
  RTCSignaling.messageHandlers E !! type message = Some handler ->
  keeps keeps_connecting (handler peerId message).
Proof. builtin connecting_leaf new_tracks_connecting. Qed.

Lemma perform_connecting E a s : keeps_connecting s (perform E a s).
Proof.
  perform_keeps connecting_leaf new_tracks_connecting builtin_connecting.
  intros Hinv p c. apply Hinv.
Qed.

(** X28: No operation updates the state of a call record: starting from a state
    in which every record reads 'connecting' (a fresh coordinator has none),
    over any sequence of interface calls, built-in inbound messages, engine
    events and clock ticks, every call record reads 'connecting' for as long as
    it exists. *)
Theorem calls_stay_connecting E actions s :
  all_connecting s -> all_connecting (run E actions s).
Proof. apply (run_keeps keeps_connecting E (perform_connecting E)). Qed.

Lemma calls_stay_connecting_witness :
  let E := willing in
  let actions := a_day in
  let s := calling_both in
 all_connecting (run E actions s).
Proof.
  cbv zeta.
  apply (calls_stay_connecting willing a_day calling_both).
  apply all_connecting_check. vm_compute. reflexivity.
Defined.

(** X29: Dispatching an inbound message of any type other than rtc:offer through
    the built-in handlers sends nothing on the secure channel. *)
Theorem only_offers_are_answered E (s : State) (peerId : string)
    (message : SignalMessage) :
  type message <> "rtc:offer" ->
  sent (trace (final (RTCSignaling.handleSignalingMessage
                        (RTCSignaling.messageHandlers E) peerId message s)))
  = sent (trace s).
Proof.
  intros Hty.
  assert (keeps no_send (RTCSignaling.handleSignalingMessage
                           (RTCSignaling.messageHandlers E) peerId message)) as Hk.
  { unfold RTCSignaling.handleSignalingMessage.
    destruct (RTCSignaling.messageHandlers E !! type message) as [handler|] eqn:Hh.
    - apply keeps_try_catch; [apply _|by eapply inbound_no_send|].
      intros e. frame send_leaf.
    - apply keeps_ret; apply _. }
  apply Hk.
Qed.

Lemma only_offers_are_answered_witness :
  let E := willing in
  let s := calling_bob in
  let peerId := "bob" in
  let message := hangup_msg in
  sent (trace (final (RTCSignaling.handleSignalingMessage
                        (RTCSignaling.messageHandlers E) peerId message s)))
  = sent (trace s).
Proof.
  cbv zeta.
  apply (only_offers_are_answered willing calling_bob "bob" hangup_msg).
  vm_compute. discriminate.
Defined.

(** X30: Before initialize (rtcManager is null) initiateCall and acceptCall
    throw a TypeError and write no call record: initiateCall has by then sent
    the rtc:call-request if the channel is open, acceptCall has sent nothing and
    made no engine call. toggleAudio and toggleVideo throw the TypeError and
    change nothing. *)
Theorem calls_before_initialize E (s : State) (peerId : string)
    (callId : option string) (on : bool) :
  rtcManager s = None ->
  (exists s', RTCSignaling.initiateCall E peerId callId s = Throw null_manager s' /\
     (exists id, sent (trace s') = sent (trace s) ++
        (if channel_open s
         then [{| to := peerId;
                  data := {| type := "rtc:call-request"; timestamp := now s;
                             payload := PCall (Some id) |} |}]
         else [])) /\
     activeCalls s' = activeCalls s /\ rtcManager s' = None) /\
  (exists s', RTCSignaling.acceptCall E peerId callId s = Throw null_manager s' /\
     trace s' = trace s /\ activeCalls s' = activeCalls s /\ rtcManager s' = None) /\
  RTCSignaling.toggleAudio on s = Throw null_manager s /\
  RTCSignaling.toggleVideo on s = Throw null_manager s.
Proof.
  intros Hm. split; [|split; [|split]].
  - unfold RTCSignaling.initiateCall, try_catch, bind.
    destruct (or_else_generate callId s) as (id & Hid & _). rewrite Hid.
    destruct (sendSignalingMessage_step s peerId "rtc:call-request" (PCall (Some id)))
      as (s1 & Hs1 & Hm1 & Hc1 & _ & _ & _ & _ & Ht1).
    rewrite Hs1. unfold RTCSignaling.on_rtcManager at 1. rewrite Hm1, Hm.
    destruct (logEvent_step "initiateCall"
                ("Failed to initiate call: " +:+ error_message null_manager) "error" s1)
      as (s2 & Hs2 & Hc2 & Hm2 & _ & Ht2).
    unfold null_manager in *. rewrite Hs2. unfold throw.
    eexists. split; [reflexivity|]. split; [|split; congruence].
    exists id. rewrite Ht2, Ht1, sent_app.
    destruct (channel_open s); cbn; by rewrite ?app_nil_r.
  - unfold RTCSignaling.acceptCall, try_catch, bind.
    unfold RTCSignaling.on_rtcManager at 1. rewrite Hm.
    destruct (logEvent_step "acceptCall"
                ("Failed to accept call: " +:+ error_message null_manager) "error" s)
      as (s2 & Hs2 & Hc2 & Hm2 & _ & Ht2).
    unfold null_manager in *. rewrite Hs2. unfold throw.
    eexists. split; [reflexivity|]. split; [done|]. split; congruence.
  - unfold RTCSignaling.toggleAudio, RTCSignaling.on_rtcManager. by rewrite Hm.
  - unfold RTCSignaling.toggleVideo, RTCSignaling.on_rtcManager. by rewrite Hm.
Qed.

Lemma calls_before_initialize_witness :
  let E := willing in
  let s := fresh_state in
  let peerId := "bob" in
  let callId := @None string in
  let on := false in
  (exists s', RTCSignaling.initiateCall E peerId callId s = Throw null_manager s' /\
     (exists id, sent (trace s') = sent (trace s) ++
        (if channel_open s
         then [{| to := peerId;
                  data := {| type := "rtc:call-request"; timestamp := now s;
                             payload := PCall (Some id) |} |}]
         else [])) /\
     activeCalls s' = activeCalls s /\ rtcManager s' = None) /\
  (exists s', RTCSignaling.acceptCall E peerId callId s = Throw null_manager s' /\
     trace s' = trace s /\ activeCalls s' = activeCalls s /\ rtcManager s' = None) /\
  RTCSignaling.toggleAudio on s = Throw null_manager s /\
  RTCSignaling.toggleVideo on s = Throw null_manager s.
Proof.
  cbv zeta.
  apply (calls_before_initialize willing fresh_state "bob" None false).
  reflexivity.
Defined.
